(** * Matchmaking and connection lifecycle of [useHumanChat]

    A shallow embedding of [src/hooks/useHumanChat.ts]: the hook's React
    state and refs become one record, every callback of the hook becomes a
    state-passing function, and the objects the hook only holds references
    to (PeerJS data connections, timers created by [setTimeout]) live in
    an explicit store so that aliasing between [mainConnRef], the
    direct-connection map and the closures of pending timers is kept. *)

From stdpp Require Import gmap strings list pretty.
From Stdlib Require Import QArith Qround.

Local Open Scope string_scope.
Local Open Scope Z_scope.
Local Open Scope list_scope.

(** ** Data model ([types.ts]) *)

Inductive ChatMode := IDLE | SEARCHING | WAITING | CONNECTED | DISCONNECTED | ERROR.

Inductive SessionType := Random | Direct.

Record UserProfile := mkProfile {
  uid : option string;
  username : string;
  age : string;
  gender : string;
  interests : list string;
  location : string
}.

Inductive MessageType := MsgText | MsgImage | MsgAudio.

Inductive Sender := Me | Stranger | System.

Inductive Delivery := Sent | Seen.

Record ReplyInfo := mkReply { reply_id : string; reply_text : string; senderName : string }.

(** A wire payload is typed [any]; the values the protocol puts there are
    strings, booleans and profiles. *)
Inductive Payload :=
  | PUndefined
  | PStr (s : string)
  | PBool (b : bool)
  | PProfile (p : UserProfile).

(** [emoji] is typed [string]; a reaction made from a frame holds the
    payload as it came. *)
Record Reaction := mkReaction { emoji : Payload; r_sender : Sender }.

Record Message := mkMessage {
  m_id : string;
  m_text : Payload;
  m_fileData : Payload;
  m_type : MessageType;
  m_sender : Sender;
  m_senderPeerId : option string;
  m_senderProfile : option UserProfile;
  m_timestamp : Z;
  m_isVanish : option bool;
  m_reactions : list Reaction;
  m_isEdited : option bool;
  m_status : option Delivery;
  m_replyTo : option ReplyInfo;
  m_expiryDuration : option Z;
  m_expiresAt : option Z
}.

Inductive FrameType :=
  | F_message | F_typing | F_recording | F_disconnect | F_profile
  | F_profile_update | F_vanish_mode | F_reaction | F_edit_message
  | F_friend_request | F_friend_accept | F_seen.

Record PeerData := mkFrame {
  f_type : FrameType;
  f_payload : Payload;
  f_dataType : option MessageType;
  f_messageId : option string;
  f_id : option string;
  f_replyTo : option ReplyInfo;
  f_expiryDuration : option Z;
  f_isVanish : option bool
}.

(** The hook publishes ['idle'] besides the three statuses of the
    [PresenceState] type. *)
Inductive PresenceStatus := P_idle | P_waiting | P_paired | P_busy.

Record PresenceState := mkPresence {
  ps_peerId : string;
  ps_status : PresenceStatus;
  ps_timestamp : Z;
  ps_profile : option UserProfile
}.

Record DirectMessageEvent := mkDirectMsg { dm_peerId : string; dm_message : Message }.

Global Instance ChatMode_eq_dec : EqDecision ChatMode.
Proof. solve_decision. Defined.
Global Instance SessionType_eq_dec : EqDecision SessionType.
Proof. solve_decision. Defined.
Global Instance MessageType_eq_dec : EqDecision MessageType.
Proof. solve_decision. Defined.
Global Instance FrameType_eq_dec : EqDecision FrameType.
Proof. solve_decision. Defined.
Global Instance PresenceStatus_eq_dec : EqDecision PresenceStatus.
Proof. solve_decision. Defined.

(** ** The transport objects the hook refers to

    A [DataConnection] of PeerJS, as far as the hook observes it: the remote
    peer id, the [open] flag the hook reads, whether [close()] was called,
    which listeners [setupConnection] installed on it ([None]: none yet;
    [Some Random]: the listeners with [isMain = true]; [Some Direct]: those
    with [isMain = false]) and the frames handed to [send], oldest first. *)
Record DataConnection := mkConn {
  conn_peer : string;
  conn_open : bool;
  conn_closed : bool;
  conn_role : option SessionType;
  conn_sent : list PeerData
}.

(** A pending [setTimeout] callback with the variables its closure captured:
    the jitter callback of [attemptMatch] captures the chosen [target]
    ([None] when the array read gave [undefined]); the 5 s callback captures
    the dialled connection and the target's peer id. *)
Inductive TimerBody :=
  | JitterDial (target : option PresenceState)
  | DialTimeout (conn : nat) (target_peerId : string).

Record Timer := mkTimer { timer_body : TimerBody; timer_pending : bool }.

(** ** The hook's state

    React state first, then the hook's props and refs, then the stores of
    transport objects and timers and two logs of outward calls:
    [tracked] lists the status of each record handed to [channel.track]
    and [dialed] the peer ids handed to [peer.connect] by the matchmaker,
    both oldest first.  A ref to an object becomes the object's position
    in its store ([mainConnRef], [directConnsRef], [connectionTimeoutRef])
    or, for the Peer and the lobby channel, whether it is there.

    A field of React state holds the latest value handed to its setter.
    A callback created by a commit sees the values of that commit
    instead: [renderedOnlineUsers] and [renderedPeerId] are [onlineUsers]
    and [myPeerId] as the last commit rendered them, which is what the
    closures of the matchmaking effect, of the offline poll and of
    [connect] hold; the rendered status is what [statusRef] holds.  The
    indicators [partnerTyping], [partnerRecording] and [remoteVanishMode]
    take whatever payload the frame carried.  State that none of the
    callbacks below reads (friends, friend requests, notification, error,
    the incoming direct status and reaction events) is left out. *)

Record State := mkState {
  messages : list Message;
  status : ChatMode;
  partnerTyping : Payload;
  partnerRecording : Payload;
  partnerProfile : option UserProfile;
  remoteVanishMode : option Payload;
  partnerPeerId : option string;
  onlineUsers : list PresenceState;
  myPeerId : option string;
  disconnectReason : option string;
  incomingDirectMessage : option DirectMessageEvent;
  activeDirectConnections : gset string;
  userProfile : option UserProfile;
  peerRef : bool;
  mainConnRef : option nat;
  directConnsRef : gmap string nat;
  directPeerProfilesRef : gmap string UserProfile;
  channelRef : bool;
  isMatchmakerRef : bool;
  statusRef : ChatMode;
  renderedOnlineUsers : list PresenceState;
  renderedPeerId : option string;
  connectionTimeoutRef : option nat;
  failedPeersRef : gset string;
  conns : list DataConnection;
  timers : list Timer;
  tracked : list PresenceStatus;
  dialed : list string
}.

(** Field updates: [set_f v s] is [s] with field [f] replaced by [v]. *)

Definition set_messages (v : list Message) (s : State) : State :=
  mkState v (s.(status)) (s.(partnerTyping)) (s.(partnerRecording))
    (s.(partnerProfile)) (s.(remoteVanishMode)) (s.(partnerPeerId))
    (s.(onlineUsers)) (s.(myPeerId)) (s.(disconnectReason))
    (s.(incomingDirectMessage)) (s.(activeDirectConnections))
    (s.(userProfile)) (s.(peerRef)) (s.(mainConnRef)) (s.(directConnsRef))
    (s.(directPeerProfilesRef)) (s.(channelRef)) (s.(isMatchmakerRef))
    (s.(statusRef)) (s.(renderedOnlineUsers)) (s.(renderedPeerId))
    (s.(connectionTimeoutRef)) (s.(failedPeersRef)) (s.(conns)) (s.(timers))
    (s.(tracked)) (s.(dialed)).

Definition set_status (v : ChatMode) (s : State) : State :=
  mkState (s.(messages)) v (s.(partnerTyping)) (s.(partnerRecording))
    (s.(partnerProfile)) (s.(remoteVanishMode)) (s.(partnerPeerId))
    (s.(onlineUsers)) (s.(myPeerId)) (s.(disconnectReason))
    (s.(incomingDirectMessage)) (s.(activeDirectConnections))
    (s.(userProfile)) (s.(peerRef)) (s.(mainConnRef)) (s.(directConnsRef))
    (s.(directPeerProfilesRef)) (s.(channelRef)) (s.(isMatchmakerRef))
    (s.(statusRef)) (s.(renderedOnlineUsers)) (s.(renderedPeerId))
    (s.(connectionTimeoutRef)) (s.(failedPeersRef)) (s.(conns)) (s.(timers))
    (s.(tracked)) (s.(dialed)).

Definition set_partnerTyping (v : Payload) (s : State) : State :=
  mkState (s.(messages)) (s.(status)) v (s.(partnerRecording))
    (s.(partnerProfile)) (s.(remoteVanishMode)) (s.(partnerPeerId))
    (s.(onlineUsers)) (s.(myPeerId)) (s.(disconnectReason))
    (s.(incomingDirectMessage)) (s.(activeDirectConnections))
    (s.(userProfile)) (s.(peerRef)) (s.(mainConnRef)) (s.(directConnsRef))
    (s.(directPeerProfilesRef)) (s.(channelRef)) (s.(isMatchmakerRef))
    (s.(statusRef)) (s.(renderedOnlineUsers)) (s.(renderedPeerId))
    (s.(connectionTimeoutRef)) (s.(failedPeersRef)) (s.(conns)) (s.(timers))
    (s.(tracked)) (s.(dialed)).

Definition set_partnerRecording (v : Payload) (s : State) : State :=
  mkState (s.(messages)) (s.(status)) (s.(partnerTyping)) v
    (s.(partnerProfile)) (s.(remoteVanishMode)) (s.(partnerPeerId))
    (s.(onlineUsers)) (s.(myPeerId)) (s.(disconnectReason))
    (s.(incomingDirectMessage)) (s.(activeDirectConnections))
    (s.(userProfile)) (s.(peerRef)) (s.(mainConnRef)) (s.(directConnsRef))
    (s.(directPeerProfilesRef)) (s.(channelRef)) (s.(isMatchmakerRef))
    (s.(statusRef)) (s.(renderedOnlineUsers)) (s.(renderedPeerId))
    (s.(connectionTimeoutRef)) (s.(failedPeersRef)) (s.(conns)) (s.(timers))
    (s.(tracked)) (s.(dialed)).

Definition set_partnerProfile (v : option UserProfile) (s : State) : State :=
  mkState (s.(messages)) (s.(status)) (s.(partnerTyping))
    (s.(partnerRecording)) v (s.(remoteVanishMode)) (s.(partnerPeerId))
    (s.(onlineUsers)) (s.(myPeerId)) (s.(disconnectReason))
    (s.(incomingDirectMessage)) (s.(activeDirectConnections))
    (s.(userProfile)) (s.(peerRef)) (s.(mainConnRef)) (s.(directConnsRef))
    (s.(directPeerProfilesRef)) (s.(channelRef)) (s.(isMatchmakerRef))
    (s.(statusRef)) (s.(renderedOnlineUsers)) (s.(renderedPeerId))
    (s.(connectionTimeoutRef)) (s.(failedPeersRef)) (s.(conns)) (s.(timers))
    (s.(tracked)) (s.(dialed)).

Definition set_remoteVanishMode (v : option Payload) (s : State) : State :=
  mkState (s.(messages)) (s.(status)) (s.(partnerTyping))
    (s.(partnerRecording)) (s.(partnerProfile)) v (s.(partnerPeerId))
    (s.(onlineUsers)) (s.(myPeerId)) (s.(disconnectReason))
    (s.(incomingDirectMessage)) (s.(activeDirectConnections))
    (s.(userProfile)) (s.(peerRef)) (s.(mainConnRef)) (s.(directConnsRef))
    (s.(directPeerProfilesRef)) (s.(channelRef)) (s.(isMatchmakerRef))
    (s.(statusRef)) (s.(renderedOnlineUsers)) (s.(renderedPeerId))
    (s.(connectionTimeoutRef)) (s.(failedPeersRef)) (s.(conns)) (s.(timers))
    (s.(tracked)) (s.(dialed)).

Definition set_partnerPeerId (v : option string) (s : State) : State :=
  mkState (s.(messages)) (s.(status)) (s.(partnerTyping))
    (s.(partnerRecording)) (s.(partnerProfile)) (s.(remoteVanishMode)) v
    (s.(onlineUsers)) (s.(myPeerId)) (s.(disconnectReason))
    (s.(incomingDirectMessage)) (s.(activeDirectConnections))
    (s.(userProfile)) (s.(peerRef)) (s.(mainConnRef)) (s.(directConnsRef))
    (s.(directPeerProfilesRef)) (s.(channelRef)) (s.(isMatchmakerRef))
    (s.(statusRef)) (s.(renderedOnlineUsers)) (s.(renderedPeerId))
    (s.(connectionTimeoutRef)) (s.(failedPeersRef)) (s.(conns)) (s.(timers))
    (s.(tracked)) (s.(dialed)).

Definition set_onlineUsers (v : list PresenceState) (s : State) : State :=
  mkState (s.(messages)) (s.(status)) (s.(partnerTyping))
    (s.(partnerRecording)) (s.(partnerProfile)) (s.(remoteVanishMode))
    (s.(partnerPeerId)) v (s.(myPeerId)) (s.(disconnectReason))
    (s.(incomingDirectMessage)) (s.(activeDirectConnections))
    (s.(userProfile)) (s.(peerRef)) (s.(mainConnRef)) (s.(directConnsRef))
    (s.(directPeerProfilesRef)) (s.(channelRef)) (s.(isMatchmakerRef))
    (s.(statusRef)) (s.(renderedOnlineUsers)) (s.(renderedPeerId))
    (s.(connectionTimeoutRef)) (s.(failedPeersRef)) (s.(conns)) (s.(timers))
    (s.(tracked)) (s.(dialed)).

Definition set_myPeerId (v : option string) (s : State) : State :=
  mkState (s.(messages)) (s.(status)) (s.(partnerTyping))
    (s.(partnerRecording)) (s.(partnerProfile)) (s.(remoteVanishMode))
    (s.(partnerPeerId)) (s.(onlineUsers)) v (s.(disconnectReason))
    (s.(incomingDirectMessage)) (s.(activeDirectConnections))
    (s.(userProfile)) (s.(peerRef)) (s.(mainConnRef)) (s.(directConnsRef))
    (s.(directPeerProfilesRef)) (s.(channelRef)) (s.(isMatchmakerRef))
    (s.(statusRef)) (s.(renderedOnlineUsers)) (s.(renderedPeerId))
    (s.(connectionTimeoutRef)) (s.(failedPeersRef)) (s.(conns)) (s.(timers))
    (s.(tracked)) (s.(dialed)).

Definition set_disconnectReason (v : option string) (s : State) : State :=
  mkState (s.(messages)) (s.(status)) (s.(partnerTyping))
    (s.(partnerRecording)) (s.(partnerProfile)) (s.(remoteVanishMode))
    (s.(partnerPeerId)) (s.(onlineUsers)) (s.(myPeerId)) v
    (s.(incomingDirectMessage)) (s.(activeDirectConnections))
    (s.(userProfile)) (s.(peerRef)) (s.(mainConnRef)) (s.(directConnsRef))
    (s.(directPeerProfilesRef)) (s.(channelRef)) (s.(isMatchmakerRef))
    (s.(statusRef)) (s.(renderedOnlineUsers)) (s.(renderedPeerId))
    (s.(connectionTimeoutRef)) (s.(failedPeersRef)) (s.(conns)) (s.(timers))
    (s.(tracked)) (s.(dialed)).

Definition set_incomingDirectMessage (v : option DirectMessageEvent) (s : State)
    : State :=
  mkState (s.(messages)) (s.(status)) (s.(partnerTyping))
    (s.(partnerRecording)) (s.(partnerProfile)) (s.(remoteVanishMode))
    (s.(partnerPeerId)) (s.(onlineUsers)) (s.(myPeerId))
    (s.(disconnectReason)) v (s.(activeDirectConnections)) (s.(userProfile))
    (s.(peerRef)) (s.(mainConnRef)) (s.(directConnsRef))
    (s.(directPeerProfilesRef)) (s.(channelRef)) (s.(isMatchmakerRef))
    (s.(statusRef)) (s.(renderedOnlineUsers)) (s.(renderedPeerId))
    (s.(connectionTimeoutRef)) (s.(failedPeersRef)) (s.(conns)) (s.(timers))
    (s.(tracked)) (s.(dialed)).

Definition set_activeDirectConnections (v : gset string) (s : State)
    : State :=
  mkState (s.(messages)) (s.(status)) (s.(partnerTyping))
    (s.(partnerRecording)) (s.(partnerProfile)) (s.(remoteVanishMode))
    (s.(partnerPeerId)) (s.(onlineUsers)) (s.(myPeerId))
    (s.(disconnectReason)) (s.(incomingDirectMessage)) v (s.(userProfile))
    (s.(peerRef)) (s.(mainConnRef)) (s.(directConnsRef))
    (s.(directPeerProfilesRef)) (s.(channelRef)) (s.(isMatchmakerRef))
    (s.(statusRef)) (s.(renderedOnlineUsers)) (s.(renderedPeerId))
    (s.(connectionTimeoutRef)) (s.(failedPeersRef)) (s.(conns)) (s.(timers))
    (s.(tracked)) (s.(dialed)).

Definition set_userProfile (v : option UserProfile) (s : State) : State :=
  mkState (s.(messages)) (s.(status)) (s.(partnerTyping))
    (s.(partnerRecording)) (s.(partnerProfile)) (s.(remoteVanishMode))
    (s.(partnerPeerId)) (s.(onlineUsers)) (s.(myPeerId))
    (s.(disconnectReason)) (s.(incomingDirectMessage))
    (s.(activeDirectConnections)) v (s.(peerRef)) (s.(mainConnRef))
    (s.(directConnsRef)) (s.(directPeerProfilesRef)) (s.(channelRef))
    (s.(isMatchmakerRef)) (s.(statusRef)) (s.(renderedOnlineUsers))
    (s.(renderedPeerId)) (s.(connectionTimeoutRef)) (s.(failedPeersRef))
    (s.(conns)) (s.(timers)) (s.(tracked)) (s.(dialed)).

Definition set_peerRef (v : bool) (s : State) : State :=
  mkState (s.(messages)) (s.(status)) (s.(partnerTyping))
    (s.(partnerRecording)) (s.(partnerProfile)) (s.(remoteVanishMode))
    (s.(partnerPeerId)) (s.(onlineUsers)) (s.(myPeerId))
    (s.(disconnectReason)) (s.(incomingDirectMessage))
    (s.(activeDirectConnections)) (s.(userProfile)) v (s.(mainConnRef))
    (s.(directConnsRef)) (s.(directPeerProfilesRef)) (s.(channelRef))
    (s.(isMatchmakerRef)) (s.(statusRef)) (s.(renderedOnlineUsers))
    (s.(renderedPeerId)) (s.(connectionTimeoutRef)) (s.(failedPeersRef))
    (s.(conns)) (s.(timers)) (s.(tracked)) (s.(dialed)).

Definition set_mainConnRef (v : option nat) (s : State) : State :=
  mkState (s.(messages)) (s.(status)) (s.(partnerTyping))
    (s.(partnerRecording)) (s.(partnerProfile)) (s.(remoteVanishMode))
    (s.(partnerPeerId)) (s.(onlineUsers)) (s.(myPeerId))
    (s.(disconnectReason)) (s.(incomingDirectMessage))
    (s.(activeDirectConnections)) (s.(userProfile)) (s.(peerRef)) v
    (s.(directConnsRef)) (s.(directPeerProfilesRef)) (s.(channelRef))
    (s.(isMatchmakerRef)) (s.(statusRef)) (s.(renderedOnlineUsers))
    (s.(renderedPeerId)) (s.(connectionTimeoutRef)) (s.(failedPeersRef))
    (s.(conns)) (s.(timers)) (s.(tracked)) (s.(dialed)).

Definition set_directConnsRef (v : gmap string nat) (s : State) : State :=
  mkState (s.(messages)) (s.(status)) (s.(partnerTyping))
    (s.(partnerRecording)) (s.(partnerProfile)) (s.(remoteVanishMode))
    (s.(partnerPeerId)) (s.(onlineUsers)) (s.(myPeerId))
    (s.(disconnectReason)) (s.(incomingDirectMessage))
    (s.(activeDirectConnections)) (s.(userProfile)) (s.(peerRef))
    (s.(mainConnRef)) v (s.(directPeerProfilesRef)) (s.(channelRef))
    (s.(isMatchmakerRef)) (s.(statusRef)) (s.(renderedOnlineUsers))
    (s.(renderedPeerId)) (s.(connectionTimeoutRef)) (s.(failedPeersRef))
    (s.(conns)) (s.(timers)) (s.(tracked)) (s.(dialed)).

Definition set_directPeerProfilesRef (v : gmap string UserProfile) (s : State)
    : State :=
  mkState (s.(messages)) (s.(status)) (s.(partnerTyping))
    (s.(partnerRecording)) (s.(partnerProfile)) (s.(remoteVanishMode))
    (s.(partnerPeerId)) (s.(onlineUsers)) (s.(myPeerId))
    (s.(disconnectReason)) (s.(incomingDirectMessage))
    (s.(activeDirectConnections)) (s.(userProfile)) (s.(peerRef))
    (s.(mainConnRef)) (s.(directConnsRef)) v (s.(channelRef))
    (s.(isMatchmakerRef)) (s.(statusRef)) (s.(renderedOnlineUsers))
    (s.(renderedPeerId)) (s.(connectionTimeoutRef)) (s.(failedPeersRef))
    (s.(conns)) (s.(timers)) (s.(tracked)) (s.(dialed)).

Definition set_channelRef (v : bool) (s : State) : State :=
  mkState (s.(messages)) (s.(status)) (s.(partnerTyping))
    (s.(partnerRecording)) (s.(partnerProfile)) (s.(remoteVanishMode))
    (s.(partnerPeerId)) (s.(onlineUsers)) (s.(myPeerId))
    (s.(disconnectReason)) (s.(incomingDirectMessage))
    (s.(activeDirectConnections)) (s.(userProfile)) (s.(peerRef))
    (s.(mainConnRef)) (s.(directConnsRef)) (s.(directPeerProfilesRef)) v
    (s.(isMatchmakerRef)) (s.(statusRef)) (s.(renderedOnlineUsers))
    (s.(renderedPeerId)) (s.(connectionTimeoutRef)) (s.(failedPeersRef))
    (s.(conns)) (s.(timers)) (s.(tracked)) (s.(dialed)).

Definition set_isMatchmakerRef (v : bool) (s : State) : State :=
  mkState (s.(messages)) (s.(status)) (s.(partnerTyping))
    (s.(partnerRecording)) (s.(partnerProfile)) (s.(remoteVanishMode))
    (s.(partnerPeerId)) (s.(onlineUsers)) (s.(myPeerId))
    (s.(disconnectReason)) (s.(incomingDirectMessage))
    (s.(activeDirectConnections)) (s.(userProfile)) (s.(peerRef))
    (s.(mainConnRef)) (s.(directConnsRef)) (s.(directPeerProfilesRef))
    (s.(channelRef)) v (s.(statusRef)) (s.(renderedOnlineUsers))
    (s.(renderedPeerId)) (s.(connectionTimeoutRef)) (s.(failedPeersRef))
    (s.(conns)) (s.(timers)) (s.(tracked)) (s.(dialed)).

Definition set_statusRef (v : ChatMode) (s : State) : State :=
  mkState (s.(messages)) (s.(status)) (s.(partnerTyping))
    (s.(partnerRecording)) (s.(partnerProfile)) (s.(remoteVanishMode))
    (s.(partnerPeerId)) (s.(onlineUsers)) (s.(myPeerId))
    (s.(disconnectReason)) (s.(incomingDirectMessage))
    (s.(activeDirectConnections)) (s.(userProfile)) (s.(peerRef))
    (s.(mainConnRef)) (s.(directConnsRef)) (s.(directPeerProfilesRef))
    (s.(channelRef)) (s.(isMatchmakerRef)) v (s.(renderedOnlineUsers))
    (s.(renderedPeerId)) (s.(connectionTimeoutRef)) (s.(failedPeersRef))
    (s.(conns)) (s.(timers)) (s.(tracked)) (s.(dialed)).

Definition set_renderedOnlineUsers (v : list PresenceState) (s : State)
    : State :=
  mkState (s.(messages)) (s.(status)) (s.(partnerTyping))
    (s.(partnerRecording)) (s.(partnerProfile)) (s.(remoteVanishMode))
    (s.(partnerPeerId)) (s.(onlineUsers)) (s.(myPeerId))
    (s.(disconnectReason)) (s.(incomingDirectMessage))
    (s.(activeDirectConnections)) (s.(userProfile)) (s.(peerRef))
    (s.(mainConnRef)) (s.(directConnsRef)) (s.(directPeerProfilesRef))
    (s.(channelRef)) (s.(isMatchmakerRef)) (s.(statusRef)) v
    (s.(renderedPeerId)) (s.(connectionTimeoutRef)) (s.(failedPeersRef))
    (s.(conns)) (s.(timers)) (s.(tracked)) (s.(dialed)).

Definition set_renderedPeerId (v : option string) (s : State) : State :=
  mkState (s.(messages)) (s.(status)) (s.(partnerTyping))
    (s.(partnerRecording)) (s.(partnerProfile)) (s.(remoteVanishMode))
    (s.(partnerPeerId)) (s.(onlineUsers)) (s.(myPeerId))
    (s.(disconnectReason)) (s.(incomingDirectMessage))
    (s.(activeDirectConnections)) (s.(userProfile)) (s.(peerRef))
    (s.(mainConnRef)) (s.(directConnsRef)) (s.(directPeerProfilesRef))
    (s.(channelRef)) (s.(isMatchmakerRef)) (s.(statusRef))
    (s.(renderedOnlineUsers)) v (s.(connectionTimeoutRef))
    (s.(failedPeersRef)) (s.(conns)) (s.(timers)) (s.(tracked)) (s.(dialed)).

Definition set_connectionTimeoutRef (v : option nat) (s : State) : State :=
  mkState (s.(messages)) (s.(status)) (s.(partnerTyping))
    (s.(partnerRecording)) (s.(partnerProfile)) (s.(remoteVanishMode))
    (s.(partnerPeerId)) (s.(onlineUsers)) (s.(myPeerId))
    (s.(disconnectReason)) (s.(incomingDirectMessage))
    (s.(activeDirectConnections)) (s.(userProfile)) (s.(peerRef))
    (s.(mainConnRef)) (s.(directConnsRef)) (s.(directPeerProfilesRef))
    (s.(channelRef)) (s.(isMatchmakerRef)) (s.(statusRef))
    (s.(renderedOnlineUsers)) (s.(renderedPeerId)) v (s.(failedPeersRef))
    (s.(conns)) (s.(timers)) (s.(tracked)) (s.(dialed)).

Definition set_failedPeersRef (v : gset string) (s : State) : State :=
  mkState (s.(messages)) (s.(status)) (s.(partnerTyping))
    (s.(partnerRecording)) (s.(partnerProfile)) (s.(remoteVanishMode))
    (s.(partnerPeerId)) (s.(onlineUsers)) (s.(myPeerId))
    (s.(disconnectReason)) (s.(incomingDirectMessage))
    (s.(activeDirectConnections)) (s.(userProfile)) (s.(peerRef))
    (s.(mainConnRef)) (s.(directConnsRef)) (s.(directPeerProfilesRef))
    (s.(channelRef)) (s.(isMatchmakerRef)) (s.(statusRef))
    (s.(renderedOnlineUsers)) (s.(renderedPeerId))
    (s.(connectionTimeoutRef)) v (s.(conns)) (s.(timers)) (s.(tracked))
    (s.(dialed)).

Definition set_conns (v : list DataConnection) (s : State) : State :=
  mkState (s.(messages)) (s.(status)) (s.(partnerTyping))
    (s.(partnerRecording)) (s.(partnerProfile)) (s.(remoteVanishMode))
    (s.(partnerPeerId)) (s.(onlineUsers)) (s.(myPeerId))
    (s.(disconnectReason)) (s.(incomingDirectMessage))
    (s.(activeDirectConnections)) (s.(userProfile)) (s.(peerRef))
    (s.(mainConnRef)) (s.(directConnsRef)) (s.(directPeerProfilesRef))
    (s.(channelRef)) (s.(isMatchmakerRef)) (s.(statusRef))
    (s.(renderedOnlineUsers)) (s.(renderedPeerId))
    (s.(connectionTimeoutRef)) (s.(failedPeersRef)) v (s.(timers))
    (s.(tracked)) (s.(dialed)).

Definition set_timers (v : list Timer) (s : State) : State :=
  mkState (s.(messages)) (s.(status)) (s.(partnerTyping))
    (s.(partnerRecording)) (s.(partnerProfile)) (s.(remoteVanishMode))
    (s.(partnerPeerId)) (s.(onlineUsers)) (s.(myPeerId))
    (s.(disconnectReason)) (s.(incomingDirectMessage))
    (s.(activeDirectConnections)) (s.(userProfile)) (s.(peerRef))
    (s.(mainConnRef)) (s.(directConnsRef)) (s.(directPeerProfilesRef))
    (s.(channelRef)) (s.(isMatchmakerRef)) (s.(statusRef))
    (s.(renderedOnlineUsers)) (s.(renderedPeerId))
    (s.(connectionTimeoutRef)) (s.(failedPeersRef)) (s.(conns)) v
    (s.(tracked)) (s.(dialed)).

Definition set_tracked (v : list PresenceStatus) (s : State) : State :=
  mkState (s.(messages)) (s.(status)) (s.(partnerTyping))
    (s.(partnerRecording)) (s.(partnerProfile)) (s.(remoteVanishMode))
    (s.(partnerPeerId)) (s.(onlineUsers)) (s.(myPeerId))
    (s.(disconnectReason)) (s.(incomingDirectMessage))
    (s.(activeDirectConnections)) (s.(userProfile)) (s.(peerRef))
    (s.(mainConnRef)) (s.(directConnsRef)) (s.(directPeerProfilesRef))
    (s.(channelRef)) (s.(isMatchmakerRef)) (s.(statusRef))
    (s.(renderedOnlineUsers)) (s.(renderedPeerId))
    (s.(connectionTimeoutRef)) (s.(failedPeersRef)) (s.(conns)) (s.(timers))
    v (s.(dialed)).

Definition set_dialed (v : list string) (s : State) : State :=
  mkState (s.(messages)) (s.(status)) (s.(partnerTyping))
    (s.(partnerRecording)) (s.(partnerProfile)) (s.(remoteVanishMode))
    (s.(partnerPeerId)) (s.(onlineUsers)) (s.(myPeerId))
    (s.(disconnectReason)) (s.(incomingDirectMessage))
    (s.(activeDirectConnections)) (s.(userProfile)) (s.(peerRef))
    (s.(mainConnRef)) (s.(directConnsRef)) (s.(directPeerProfilesRef))
    (s.(channelRef)) (s.(isMatchmakerRef)) (s.(statusRef))
    (s.(renderedOnlineUsers)) (s.(renderedPeerId))
    (s.(connectionTimeoutRef)) (s.(failedPeersRef)) (s.(conns)) (s.(timers))
    (s.(tracked)) v.

(** ** JavaScript helpers *)

(** Truthiness of an optional string: [undefined], [null] and the empty
    string are falsy. *)
Definition truthy (o : option string) : bool :=
  match o with
  | Some s => bool_decide (s ≠ "")
  | None => false
  end.

(** Truthiness of a payload: [undefined], [false] and the empty string
    are falsy. *)
Definition payload_truthy (v : Payload) : bool :=
  match v with
  | PUndefined => false
  | PStr s => bool_decide (s ≠ "")
  | PBool b => b
  | PProfile _ => true
  end.

(** [Date.now().toString()] on a clock reading. *)
Definition toString (now : Z) : string := pretty now.

(** [Math.floor(Math.random() * n)] for a draw [r] of [Math.random()],
    taken as the exact rational it denotes. *)
Definition random_index (r : Q) (n : nat) : nat :=
  Z.to_nat (Qfloor (r * inject_Z (Z.of_nat n))).

Definition is_random (md : SessionType) : bool := bool_decide (md = Random).

(** ** Transport and timer primitives *)

(** [conn.peer]. *)
Definition peer_of (c : nat) (s : State) : string :=
  from_option conn_peer "" (s.(conns) !! c).

Definition push_frame (frame : PeerData) (cn : DataConnection)
    : DataConnection :=
  mkConn cn.(conn_peer) cn.(conn_open) cn.(conn_closed) cn.(conn_role)
         (cn.(conn_sent) ++ [frame]).

(** [conn.send(frame)] on an open connection: the frame is handed to the
    connection.  The ['open'] and ['data'] listeners send on their own
    connection, which is open while they run, and the guarded sends test
    [open] first; [disconnect], which does not, is [signal_and_close]. *)
Definition conn_send (c : nat) (frame : PeerData) (s : State) : State :=
  set_conns (alter (push_frame frame) c s.(conns)) s.

Definition with_listeners (md : SessionType) (cn : DataConnection)
    : DataConnection :=
  mkConn cn.(conn_peer) cn.(conn_open) cn.(conn_closed) (Some md)
         cn.(conn_sent).

Definition closed_conn (cn : DataConnection) : DataConnection :=
  mkConn cn.(conn_peer) false true cn.(conn_role) cn.(conn_sent).

(** The frames handed to connection [c] so far. *)
Definition frames_to (c : nat) (s : State) : list PeerData :=
  from_option conn_sent [] (s.(conns) !! c).

(** [mainConnRef.current?.open]. *)
Definition main_open (s : State) : bool :=
  match s.(mainConnRef) with
  | Some c => from_option conn_open false (s.(conns) !! c)
  | None => false
  end.

(** [clearTimeout(id)]: the callback will not run any more. *)
Definition clearTimeout (t : option nat) (s : State) : State :=
  match t with
  | Some i =>
      set_timers (alter (λ tm, mkTimer tm.(timer_body) false) i s.(timers)) s
  | None => s
  end.

(** [setTimeout(body, _)]: a new pending timer; its id is its position. *)
Definition setTimeout (body : TimerBody) (s : State) : State * nat :=
  (set_timers (s.(timers) ++ [mkTimer body true]) s, length s.(timers)).

(** [channelRef.current?.track({..., status, ...})]. *)
Definition track (st : PresenceStatus) (s : State) : State :=
  if s.(channelRef) then set_tracked (s.(tracked) ++ [st]) s else s.

Definition mk_frame (t : FrameType) : PeerData :=
  mkFrame t PUndefined None None None None None None.

Definition frame_disconnect : PeerData := mk_frame F_disconnect.

Definition frame_profile (p : UserProfile) : PeerData :=
  mkFrame F_profile (PProfile p) None None None None None None.

Definition frame_seen (messageId : string) : PeerData :=
  mkFrame F_seen PUndefined None (Some messageId) None None None None.

Definition frame_message (payload : string) (dataType : MessageType)
    (id : option string) (replyTo : option ReplyInfo)
    (expiryDuration : option Z) (isVanish : option bool) : PeerData :=
  mkFrame F_message (PStr payload) (Some dataType) None id replyTo
          expiryDuration isVanish.

(** [d ? now + d : undefined] for an optional duration: [undefined] and
    [0] are falsy. *)
Definition expires (d : option Z) (now : Z) : option Z :=
  match d with
  | Some d => if bool_decide (d = 0) then None else Some (now + d)
  | None => None
  end.

Section Hook.

(** PeerJS emits ['close'] from inside [close()] when the connection was
    open; a transport that defers the event to a later turn is the case
    [close_emits_sync = false].  Everything below holds for both. *)
Variable close_emits_sync : bool.

(** ** Connection lifecycle *)

Definition handleMainDisconnect (reason : string) (s : State) : State :=
  let s := set_disconnectReason (Some reason) s in
  let s := set_status DISCONNECTED s in
  let s := set_partnerProfile None s in
  let s := set_partnerPeerId None s in
  let s := set_remoteVanishMode None s in
  let s := set_messages [] s in
  let s := set_mainConnRef None s in
  let s := set_isMatchmakerRef false s in
  track P_idle s.

(** The ['close'] listener of [setupConnection]. *)
Definition conn_on_close (isMain : bool) (c : nat) (s : State) : State :=
  if isMain then
    if bool_decide (s.(statusRef) = CONNECTED) then
      handleMainDisconnect "network" s
    else if bool_decide (s.(statusRef) = SEARCHING) then
      set_mainConnRef None (set_isMatchmakerRef false s)
    else s
  else
    let p := peer_of c s in
    let s := set_directConnsRef (delete p s.(directConnsRef)) s in
    let s := set_directPeerProfilesRef (delete p s.(directPeerProfilesRef)) s in
    set_activeDirectConnections (s.(activeDirectConnections) ∖ {[p]}) s.

(** The ['error'] listener of [setupConnection]. *)
Definition conn_on_error (isMain : bool) (c : nat) (s : State) : State :=
  if isMain then
    if bool_decide (s.(statusRef) = CONNECTED) then
      handleMainDisconnect "network" s
    else set_mainConnRef None (set_isMatchmakerRef false s)
  else s.

(** [conn.close()]: the connection is closed; its ['close'] listener, if
    one is installed and the connection was open, runs at once when the
    transport emits synchronously. *)
Definition conn_close (c : nat) (s : State) : State :=
  match s.(conns) !! c with
  | Some cn =>
      let s1 := set_conns (<[c := closed_conn cn]> s.(conns)) s in
      if close_emits_sync && cn.(conn_open) then
        match cn.(conn_role) with
        | Some md => conn_on_close (is_random md) c s1
        | None => s1
        end
      else s1
  | None => s
  end.

(** [setupConnection(conn, metadata)] up to the installation of the
    listeners, which [conn_role] records. *)
Definition setupConnection (c : nat) (metadata : SessionType) (s : State)
    : State :=
  let isMain := is_random metadata in
  let install (s : State) :=
    set_conns (alter (with_listeners metadata) c s.(conns)) s in
  if isMain then
    match s.(mainConnRef) with
    | Some _ => conn_close c s
    | None => install (set_mainConnRef (Some c) s)
    end
  else
    let p := peer_of c s in
    let s := set_directConnsRef (<[p := c]> s.(directConnsRef)) s in
    let s := set_activeDirectConnections ({[p]} ∪ s.(activeDirectConnections)) s in
    install s.

(** The ['open'] listener of [setupConnection]. *)
Definition conn_on_open (isMain : bool) (c : nat) (s : State) : State :=
  let s :=
    if isMain then
      let s := clearTimeout s.(connectionTimeoutRef) s in
      let s := set_status CONNECTED s in
      let s := set_partnerPeerId (Some (peer_of c s)) s in
      let s := set_isMatchmakerRef false s in
      let s := set_failedPeersRef ∅ s in
      track P_paired s
    else s in
  match s.(userProfile) with
  | Some p => conn_send c (frame_profile p) s
  | None => s
  end.

(** ** Message protocol: the ['data'] listener of [setupConnection]

    [now_ts] and [now_id] are the readings of [Date.now()] for the message
    timestamp and for the id.  The branches for friend requests and
    accepts, and the direct-connection sides of typing, recording and
    reaction, write only state that is not part of [State]; so do the
    notification of ['vanish_mode'] and the recent-peers log of
    ['profile'].  ['typing'], ['recording'], ['vanish_mode'] and
    ['reaction'] store the payload as it came.  The model stops at a
    ['profile'] frame whose payload is not a profile: [UserProfile] has no
    room for what the code would store there, and the state is returned
    as it was. *)

Definition received_message (isMain : bool) (c : nat) (payload : PeerData)
    (now_ts now_id : Z) (s : State) : Message :=
  let senderProfile :=
    if isMain then None else s.(directPeerProfilesRef) !! peer_of c s in
  let msgTimestamp := now_ts in
  let expiresAt := expires payload.(f_expiryDuration) msgTimestamp in
  {| m_id := if truthy payload.(f_id)
             then default "" payload.(f_id) else toString now_id;
     m_text := if bool_decide (payload.(f_dataType) = Some MsgText)
               then payload.(f_payload) else PUndefined;
     m_fileData := if bool_decide (payload.(f_dataType) = Some MsgText)
                   then PUndefined else payload.(f_payload);
     m_sender := Stranger;
     m_timestamp := msgTimestamp;
     m_type := default MsgText payload.(f_dataType);
     m_reactions := [];
     m_replyTo := payload.(f_replyTo);
     m_senderProfile := senderProfile;
     m_senderPeerId := Some (peer_of c s);
     m_expiryDuration := payload.(f_expiryDuration);
     m_expiresAt := expiresAt;
     m_isVanish := payload.(f_isVanish);
     m_isEdited := None;
     m_status := None |}.

Definition add_reaction (r : Reaction) (m : Message) : Message :=
  mkMessage m.(m_id) m.(m_text) m.(m_fileData) m.(m_type) m.(m_sender)
    m.(m_senderPeerId) m.(m_senderProfile) m.(m_timestamp) m.(m_isVanish)
    (m.(m_reactions) ++ [r]) m.(m_isEdited) m.(m_status) m.(m_replyTo)
    m.(m_expiryDuration) m.(m_expiresAt).

Definition edit_text (t : Payload) (m : Message) : Message :=
  mkMessage m.(m_id) t m.(m_fileData) m.(m_type) m.(m_sender)
    m.(m_senderPeerId) m.(m_senderProfile) m.(m_timestamp) m.(m_isVanish)
    m.(m_reactions) (Some true) m.(m_status) m.(m_replyTo)
    m.(m_expiryDuration) m.(m_expiresAt).

Definition mark_seen (m : Message) : Message :=
  mkMessage m.(m_id) m.(m_text) m.(m_fileData) m.(m_type) m.(m_sender)
    m.(m_senderPeerId) m.(m_senderProfile) m.(m_timestamp) m.(m_isVanish)
    m.(m_reactions) m.(m_isEdited) (Some Seen) m.(m_replyTo)
    m.(m_expiryDuration) m.(m_expiresAt).

(** [prev.map(m => m.id === messageId ? f(m) : m)]. *)
Definition map_addressed (messageId : option string) (f : Message → Message)
    (ms : list Message) : list Message :=
  (λ m, if bool_decide (Some m.(m_id) = messageId) then f m else m) <$> ms.

(** The notice of the ['profile'] branch; [now_id] and [now_ts] are its two
    readings of [Date.now()], in program order. *)
Definition system_message (p : UserProfile) (now_id now_ts : Z) : Message :=
  {| m_id := "sys-conn-" +:+ toString now_id;
     m_text := PStr ("Connected with " +:+ p.(username) +:+ ".");
     m_fileData := PUndefined;
     m_sender := System;
     m_timestamp := now_ts;
     m_type := MsgText;
     m_reactions := [];
     m_replyTo := None;
     m_senderProfile := None;
     m_senderPeerId := None;
     m_expiryDuration := None;
     m_expiresAt := None;
     m_isVanish := None;
     m_isEdited := None;
     m_status := None |}.

Definition conn_on_data (isMain : bool) (c : nat) (payload : PeerData)
    (now_ts now_id : Z) (s : State) : State :=
  match payload.(f_type) with
  | F_message =>
      let newMsg := received_message isMain c payload now_ts now_id s in
      if isMain then
        let s := set_messages (s.(messages) ++ [newMsg]) s in
        if truthy payload.(f_id)
        then conn_send c (frame_seen (default "" payload.(f_id))) s
        else s
      else
        set_incomingDirectMessage (Some (mkDirectMsg (peer_of c s) newMsg)) s
  | F_profile =>
      match payload.(f_payload) with
      | PProfile profile =>
          if isMain then
            let s := set_partnerProfile (Some profile) s in
            set_messages
              (s.(messages) ++ [system_message profile now_id now_ts]) s
          else
            set_directPeerProfilesRef
              (<[peer_of c s := profile]> s.(directPeerProfilesRef)) s
      | _ => s
      end
  | F_typing =>
      if isMain then set_partnerTyping payload.(f_payload) s else s
  | F_recording =>
      if isMain then set_partnerRecording payload.(f_payload) s else s
  | F_disconnect =>
      if isMain then handleMainDisconnect "explicit" (conn_close c s) else s
  | F_vanish_mode =>
      if isMain then set_remoteVanishMode (Some payload.(f_payload)) s else s
  | F_reaction =>
      if isMain then
        set_messages
          (map_addressed payload.(f_messageId)
             (add_reaction (mkReaction payload.(f_payload) Stranger))
             s.(messages)) s
      else s
  | F_edit_message =>
      if isMain then
        set_messages
          (map_addressed payload.(f_messageId)
             (edit_text payload.(f_payload)) s.(messages)) s
      else s
  | F_seen =>
      if isMain then
        set_messages
          (map_addressed payload.(f_messageId) mark_seen s.(messages)) s
      else s
  | F_friend_request | F_friend_accept | F_profile_update => s
  end.

(** ** The Peer's listeners *)

(** [peer.on('connection')]: PeerJS hands over a new connection object,
    not open yet, with the dialler's metadata. *)
Definition peer_on_connection (remote : string) (meta : option SessionType)
    (s : State) : State :=
  let c := length s.(conns) in
  let s := set_conns (s.(conns) ++ [mkConn remote false false None []]) s in
  match meta with
  | Some Random =>
      let currentStatus := s.(statusRef) in
      if bool_decide (currentStatus ≠ SEARCHING)
         && bool_decide (currentStatus ≠ WAITING)
      then conn_close c s
      else if bool_decide (is_Some s.(mainConnRef))
      then conn_close c s
      else setupConnection c Random s
  | Some Direct => setupConnection c Direct s
  | None => s
  end.

(** [peer.on('error')]; [unavailable] is [err.type === 'peer-unavailable']. *)
Definition peer_on_error (unavailable : bool) (s : State) : State :=
  if unavailable && s.(isMatchmakerRef) then
    let s := set_isMatchmakerRef false s in
    if bool_decide (s.(statusRef) = SEARCHING)
    then set_mainConnRef None s else s
  else s.

(** ** Matchmaker *)

(** The matchmaking effect runs after a commit that rendered Searching
    and starts the poll; [attemptMatch] is a closure of that commit, so
    its [onlineUsers] and [myPeerId] are the rendered ones. *)
Definition is_waiter (s : State) (u : PresenceState) : bool :=
  bool_decide (u.(ps_status) = P_waiting)
  && bool_decide (Some u.(ps_peerId) ≠ s.(renderedPeerId))
  && negb (bool_decide (u.(ps_peerId) ∈ s.(failedPeersRef))).

Definition waiters (s : State) : list PresenceState :=
  List.filter (is_waiter s) s.(renderedOnlineUsers).

(** [attemptMatch], run by the poll; [r] is the draw of [Math.random()]
    that picks the target. *)
Definition attemptMatch (r : Q) (s : State) : State :=
  if negb (truthy s.(renderedPeerId)) || s.(isMatchmakerRef)
     || bool_decide (is_Some s.(mainConnRef))
     || bool_decide (s.(statusRef) ≠ SEARCHING)
  then s
  else
    let ws := waiters s in
    if bool_decide (0 < length ws)%nat then
      let target := ws !! random_index r (length ws) in
      let s := set_isMatchmakerRef true s in
      fst (setTimeout (JitterDial target) s)
    else s.

(** What [peerRef.current?.connect] did: returned a connection, returned
    [undefined], or threw. *)
Inductive DialOutcome := DialConn | DialUndefined | DialThrows.

(** The 5 s callback armed after a dial. *)
Definition timeout_callback (conn : nat) (target_peerId : string) (s : State)
    : State :=
  if bool_decide (s.(statusRef) = SEARCHING) && negb (main_open s) then
    let s := conn_close conn s in
    let s := set_mainConnRef None s in
    let s := set_failedPeersRef ({[target_peerId]} ∪ s.(failedPeersRef)) s in
    set_isMatchmakerRef false s
  else s.

(** The jitter callback of [attemptMatch], which dials. *)
Definition jitter_callback (target : option PresenceState)
    (outcome : DialOutcome) (s : State) : State :=
  if bool_decide (s.(statusRef) ≠ SEARCHING)
     || bool_decide (is_Some s.(mainConnRef))
  then set_isMatchmakerRef false s
  else
    match target with
    | None => set_isMatchmakerRef false s
    | Some target =>
        if s.(peerRef) then
          let s := set_dialed (s.(dialed) ++ [target.(ps_peerId)]) s in
          match outcome with
          | DialConn =>
              let c := length s.(conns) in
              let s :=
                set_conns
                  (s.(conns) ++ [mkConn target.(ps_peerId) false false None []])
                  s in
              let s := setupConnection c Random s in
              let s := clearTimeout s.(connectionTimeoutRef) s in
              let '(s, t) := setTimeout (DialTimeout c target.(ps_peerId)) s in
              set_connectionTimeoutRef (Some t) s
          | DialUndefined | DialThrows => set_isMatchmakerRef false s
          end
        else set_isMatchmakerRef false s
    end.

(** ** Actions returned by the hook *)

Definition connect (s : State) : State :=
  if negb (truthy s.(renderedPeerId)) then s
  else
    let s := set_status SEARCHING s in
    let s := set_messages [] s in
    let s := set_disconnectReason None s in
    let s := set_partnerProfile None s in
    track P_waiting s.

(** How a piece of code ended: it ran to its end, or an exception left
    it; either way with the state it had made by then. *)
Inductive Ran := Done (s : State) | Threw (s : State).

Definition state_of (r : Ran) : State :=
  match r with Done s | Threw s => s end.

(** [send] of [disconnect], which does not test [open]: on a connection
    that is not open PeerJS sends nothing and emits ['error'] at once, so
    the ['error'] listener, if [setupConnection] installed one, runs
    inside the call. *)
Definition send_unguarded (c : nat) (frame : PeerData) (s : State) : State :=
  match s.(conns) !! c with
  | Some cn =>
      if cn.(conn_open) then conn_send c frame s
      else
        match cn.(conn_role) with
        | Some md => conn_on_error (is_random md) c s
        | None => s
        end
  | None => s
  end.

(** The first statement of [disconnect]:
    [if (mainConnRef.current) { send({type: 'disconnect'}); close() }].
    [close()] is called on what [mainConnRef.current] holds after the
    send; when the ['error'] listener has emptied the reference that is a
    [TypeError], which leaves [disconnect]. *)
Definition signal_and_close (s : State) : Ran :=
  match s.(mainConnRef) with
  | Some c =>
      let s := send_unguarded c frame_disconnect s in
      match s.(mainConnRef) with
      | Some c' => Done (conn_close c' s)
      | None => Threw s
      end
  | None => Done s
  end.

Definition disconnect (s : State) : State :=
  match signal_and_close s with
  | Done s =>
      let s := handleMainDisconnect "local_network" s in
      set_status IDLE s
  | Threw s => s
  end.

Definition local_message (id : string) (tx file : Payload) (ty : MessageType)
    (ts : Z) (replyTo : option ReplyInfo) (expiryDuration expiresAt : option Z)
    (isVanish : option bool) : Message :=
  {| m_id := id;
     m_text := tx;
     m_fileData := file;
     m_sender := Me;
     m_timestamp := ts;
     m_type := ty;
     m_reactions := [];
     m_status := Some Sent;
     m_replyTo := replyTo;
     m_senderProfile := None;
     m_senderPeerId := None;
     m_expiryDuration := expiryDuration;
     m_expiresAt := expiresAt;
     m_isVanish := isVanish;
     m_isEdited := None |}.

(** [if (mainConnRef.current?.open) mainConnRef.current.send(frame)]. *)
Definition send_if_open (frame : PeerData) (s : State) : State :=
  if main_open s then
    match s.(mainConnRef) with
    | Some c => conn_send c frame s
    | None => s
    end
  else s.

(** The clock readings are those of [Date.now()] in program order. *)
Definition sendMessage (tx : string) (replyTo : option ReplyInfo)
    (isVanish : option bool) (now_id now_ts : Z) (s : State) : State :=
  let id := toString now_id in
  let msg :=
    local_message id (PStr tx) PUndefined MsgText now_ts replyTo None None
                  isVanish in
  let s := set_messages (s.(messages) ++ [msg]) s in
  send_if_open (frame_message tx MsgText (Some id) replyTo None isVanish) s.

Definition sendImage (base64 : string) (expiryDuration : option Z)
    (isVanish : option bool) (now_id now_exp now_ts : Z) (s : State) : State :=
  let id := toString now_id in
  let expiresAt := expires expiryDuration now_exp in
  let msg :=
    local_message id PUndefined (PStr base64) MsgImage now_ts None
                  expiryDuration expiresAt isVanish in
  let s := set_messages (s.(messages) ++ [msg]) s in
  send_if_open
    (frame_message base64 MsgImage (Some id) None expiryDuration isVanish) s.

Definition sendAudio (base64 : string) (isVanish : option bool)
    (now_id now_ts : Z) (s : State) : State :=
  let id := toString now_id in
  let msg :=
    local_message id PUndefined (PStr base64) MsgAudio now_ts None None None
                  isVanish in
  let s := set_messages (s.(messages) ++ [msg]) s in
  send_if_open (frame_message base64 MsgAudio (Some id) None None isVanish) s.

(** [callPeer]; when [connect] gives no connection, [setupConnection]
    throws on [conn.peer] before it changes anything. *)
Definition callPeer (peerId : string) (outcome : DialOutcome) (s : State)
    : State :=
  let connected :=
    match s.(directConnsRef) !! peerId with
    | Some c => from_option conn_open false (s.(conns) !! c)
    | None => false
    end in
  if connected then s
  else if s.(peerRef) then
    match outcome with
    | DialConn =>
        let c := length s.(conns) in
        let s :=
          set_conns (s.(conns) ++ [mkConn peerId false false None []]) s in
        setupConnection c Direct s
    | DialUndefined | DialThrows => s
    end
  else s.

(** [isPeerConnected]. *)
Definition isPeerConnected (peerId : string) (s : State) : bool :=
  match s.(directConnsRef) !! peerId with
  | Some c => from_option conn_open false (s.(conns) !! c)
  | None => false
  end.

(** The offline poll, on the events built from the fetched rows:
    [msgs.forEach(... setIncomingDirectMessage ...)]. *)
Definition checkOffline (msgs : list DirectMessageEvent) (s : State) : State :=
  match last msgs with
  | Some e => set_incomingDirectMessage (Some e) s
  | None => s
  end.

(** ** The event loop

    One event per turn of the single-threaded loop.  [step] gives [None]
    for an event that cannot occur in the state: a timer that is not
    pending, a listener of a connection that has none, an ['open'] on a
    connection that is open or closed, a Peer that opens under an empty
    id. *)

Inductive Event :=
  | Render
  | PeerOpen (id : string)
  | PeerConnection (remote : string) (meta : option SessionType)
  | PeerError (unavailable : bool)
  | Subscribed
  | PresenceSync (users : list PresenceState)
  | PollTick (r : Q)
  | OfflinePoll (msgs : list DirectMessageEvent)
  | TimerFires (t : nat) (outcome : DialOutcome)
  | ConnOpen (c : nat)
  | ConnData (c : nat) (payload : PeerData) (now_ts now_id : Z)
  | ConnClose (c : nat)
  | ConnError (c : nat)
  | Connect
  | Disconnect
  | SendMessage (tx : string) (replyTo : option ReplyInfo)
      (isVanish : option bool) (now_id now_ts : Z)
  | SendImage (base64 : string) (expiryDuration : option Z)
      (isVanish : option bool) (now_id now_exp now_ts : Z)
  | SendAudio (base64 : string) (isVanish : option bool) (now_id now_ts : Z)
  | CallPeer (peerId : string) (outcome : DialOutcome).

(** A commit of React followed by its effects: the callbacks made from
    now on see the state as it is, [statusRef] takes the rendered status,
    the Peer is created once a profile exists, and the lobby channel
    exists exactly while profile and peer id do. *)
Definition render (s : State) : State :=
  let s := set_renderedOnlineUsers s.(onlineUsers) s in
  let s := set_renderedPeerId s.(myPeerId) s in
  let s := set_statusRef s.(status) s in
  let s := set_peerRef (s.(peerRef) || bool_decide (is_Some s.(userProfile))) s in
  set_channelRef (bool_decide (is_Some s.(userProfile)) && truthy s.(myPeerId)) s.

Definition set_open (c : nat) (b : bool) (s : State) : State :=
  set_conns
    (alter (λ cn, mkConn cn.(conn_peer) b cn.(conn_closed) cn.(conn_role)
                         cn.(conn_sent))
           c s.(conns)) s.

Definition unit_draw (r : Q) : bool :=
  Qle_bool 0 r && negb (Qle_bool 1 r).

Definition step (e : Event) (s : State) : option State :=
  match e with
  | Render => Some (render s)
  | PeerOpen id =>
      if s.(peerRef) && truthy (Some id)
      then Some (set_myPeerId (Some id) s) else None
  | PeerConnection remote meta =>
      if s.(peerRef) then Some (peer_on_connection remote meta s) else None
  | PeerError unavailable =>
      if s.(peerRef) then Some (peer_on_error unavailable s) else None
  | Subscribed =>
      if s.(channelRef) then Some (track P_idle s) else None
  | PresenceSync users =>
      if s.(channelRef) then Some (set_onlineUsers users s) else None
  | PollTick r =>
      if unit_draw r && bool_decide (s.(statusRef) = SEARCHING)
      then Some (attemptMatch r s) else None
  | OfflinePoll msgs =>
      if truthy s.(renderedPeerId)
      then Some (checkOffline msgs s) else None
  | TimerFires t outcome =>
      match s.(timers) !! t with
      | Some (mkTimer body true) =>
          let s := clearTimeout (Some t) s in
          match body with
          | JitterDial target => Some (jitter_callback target outcome s)
          | DialTimeout c p => Some (timeout_callback c p s)
          end
      | _ => None
      end
  | ConnOpen c =>
      match s.(conns) !! c with
      | Some (mkConn _ false false (Some md) _) =>
          Some (conn_on_open (is_random md) c (set_open c true s))
      | _ => None
      end
  | ConnData c payload now_ts now_id =>
      match s.(conns) !! c with
      | Some (mkConn _ true _ (Some md) _) =>
          Some (conn_on_data (is_random md) c payload now_ts now_id s)
      | _ => None
      end
  | ConnClose c =>
      match s.(conns) !! c with
      | Some (mkConn _ true _ (Some md) _) =>
          Some (conn_on_close (is_random md) c (set_open c false s))
      | _ => None
      end
  | ConnError c =>
      match s.(conns) !! c with
      | Some (mkConn _ _ _ (Some md) _) =>
          Some (conn_on_error (is_random md) c s)
      | _ => None
      end
  | Connect => Some (connect s)
  | Disconnect => Some (disconnect s)
  | SendMessage tx replyTo isVanish now_id now_ts =>
      Some (sendMessage tx replyTo isVanish now_id now_ts s)
  | SendImage base64 expiryDuration isVanish now_id now_exp now_ts =>
      Some (sendImage base64 expiryDuration isVanish now_id now_exp now_ts s)
  | SendAudio base64 isVanish now_id now_ts =>
      Some (sendAudio base64 isVanish now_id now_ts s)
  | CallPeer peerId outcome => Some (callPeer peerId outcome s)
  end.

Fixpoint run (es : list Event) (s : State) : option State :=
  match es with
  | [] => Some s
  | e :: es =>
      match step e s with
      | Some s' => run es s'
      | None => None
      end
  end.

End Hook.

(** The hook as mounted with a profile, before its first commit. *)
Definition initial (profile : option UserProfile) : State :=
  {| messages := [];
     status := IDLE;
     partnerTyping := PBool false;
     partnerRecording := PBool false;
     partnerProfile := None;
     remoteVanishMode := None;
     partnerPeerId := None;
     onlineUsers := [];
     myPeerId := None;
     disconnectReason := None;
     incomingDirectMessage := None;
     activeDirectConnections := ∅;
     userProfile := profile;
     peerRef := false;
     mainConnRef := None;
     directConnsRef := ∅;
     directPeerProfilesRef := ∅;
     channelRef := false;
     isMatchmakerRef := false;
     statusRef := IDLE;
     renderedOnlineUsers := [];
     renderedPeerId := None;
     connectionTimeoutRef := None;
     failedPeersRef := ∅;
     conns := [];
     timers := [];
     tracked := [];
     dialed := [] |}.

(** * Statements

    The predicates the theorems are stated with, and the statements of
    the specification that the code does not bear out, kept as
    definitions so that they can be refuted at concrete states. *)

(** A property of the hook under both behaviours of the transport's
    [close()]. *)
Definition both (P : bool → Prop) : Prop := P true ∧ P false.

(** The test [peer.on('connection')] makes before it lets a connection
    tagged ['random'] through. *)
Definition primary_gate (s : State) : Prop :=
  (s.(statusRef) = SEARCHING ∨ s.(statusRef) = WAITING)
  ∧ s.(mainConnRef) = None.

Global Instance primary_gate_dec s : Decision (primary_gate s).
Proof. unfold primary_gate. apply _. Defined.

(** A Connected session: the rendered status is Connected and the
    primary reference holds an open connection with the primary
    listeners. *)
Definition connected_session (s : State) (c : nat) : Prop :=
  s.(status) = CONNECTED
  ∧ s.(statusRef) = CONNECTED
  ∧ s.(mainConnRef) = Some c
  ∧ ∃ cn, s.(conns) !! c = Some cn
          ∧ cn.(conn_open) = true ∧ cn.(conn_role) = Some Random.

(** What a guarded send on the primary connection does to the connections:
    with an open primary connection its frame list grows by [frame] and no
    other connection changes; otherwise no connection changes at all. *)
Definition transmits_iff_open (frame : PeerData) (s s' : State) : Prop :=
  (main_open s = true →
     ∃ c, s.(mainConnRef) = Some c
          ∧ frames_to c s' = frames_to c s ++ [frame]
          ∧ ∀ c', c' ≠ c → s'.(conns) !! c' = s.(conns) !! c')
  ∧ (main_open s = false → s'.(conns) = s.(conns)).

(** The callbacks that run on an interval: the matchmaking poll and the
    offline poll. *)
Definition periodic (e : Event) : bool :=
  match e with
  | PollTick _ | OfflinePoll _ => true
  | _ => false
  end.

(** The claim C2 as the specification words it. *)
Definition C2_as_stated (b : bool) (s : State) : Prop :=
  let s' := disconnect b s in
  s'.(status) = DISCONNECTED
  ∧ s'.(disconnectReason) = Some "local_network"
  ∧ s'.(messages) = []
  ∧ s'.(partnerProfile) = None
  ∧ s'.(partnerPeerId) = None
  ∧ last s'.(tracked) = Some P_idle.

(** The claim C4 as the specification words it: whatever id the frame
    carries, the delivered message has that id and a ['seen'] frame for it
    goes back on the connection. *)
Definition C4_as_stated (b : bool) (s : State) (c : nat) (payload : PeerData)
    (now_ts now_id : Z) : Prop :=
  ∀ i, payload.(f_type) = F_message → payload.(f_id) = Some i →
    ∃ s', step b (ConnData c payload now_ts now_id) s = Some s'
      ∧ (∃ m, s'.(messages) = s.(messages) ++ [m] ∧ m.(m_id) = i)
      ∧ frames_to c s' = frames_to c s ++ [frame_seen i].

(** The part of claim C5 that the code does not bear out, as the
    specification words it: the cooldown set is emptied periodically, that
    is, some run of the interval callbacks empties it. *)
Definition C5_periodic_as_stated (b : bool) (s : State) : Prop :=
  ∃ es s', forallb periodic es = true
           ∧ run b es s = Some s' ∧ s'.(failedPeersRef) = ∅.

(** The claim C7 as the specification words it, for an operation that
    takes the conversation from [before] to [after]: ids stay unique. *)
Definition C7_as_stated (before after : list Message) : Prop :=
  NoDup (m_id <$> before) → NoDup (m_id <$> after).

(** The claim C8 as the specification words it: every entry of the map
    holds a connection whose transport is open. *)
Definition C8_as_stated (s : State) : Prop :=
  ∀ k c, s.(directConnsRef) !! k = Some c →
    conn_open <$> s.(conns) !! c = Some true.


(** The listeners installed on the connections, in store order. *)
Definition roles (s : State) : list (option SessionType) :=
  conn_role <$> s.(conns).

(** Some connection carries the primary listeners. *)
Definition has_primary (s : State) : Prop := Some Random ∈ roles s.

(** The hook has been started: it has its peer id, or shows any trace of
    a search. *)
Definition started (s : State) : Prop :=
  s.(status) ≠ IDLE ∨ truthy s.(myPeerId) = true ∨ has_primary s
  ∨ s.(statusRef) ≠ IDLE ∨ truthy s.(renderedPeerId) = true.

(** What only a commit or the opening of the Peer changes. *)
Definition same_env (s s' : State) : Prop :=
  s'.(userProfile) = s.(userProfile)
  ∧ s'.(peerRef) = s.(peerRef)
  ∧ s'.(myPeerId) = s.(myPeerId)
  ∧ s'.(statusRef) = s.(statusRef)
  ∧ s'.(channelRef) = s.(channelRef)
  ∧ s'.(renderedPeerId) = s.(renderedPeerId).

(** A turn that leaves the environment alone and that shows a status
    other than Idle, or primary listeners, only if the hook was started. *)
Definition benign (s s' : State) : Prop :=
  same_env s s' ∧ (s'.(status) ≠ IDLE ∨ has_primary s' → started s).

(** The lobby channel exists whenever the rendered status is not Idle. *)
Definition lobby_inv (s : State) : Prop :=
  (s.(peerRef) = true → is_Some s.(userProfile))
  ∧ (truthy s.(myPeerId) = true → s.(peerRef) = true)
  ∧ (started s → truthy s.(myPeerId) = true)
  ∧ (truthy s.(renderedPeerId) = true → truthy s.(myPeerId) = true)
  ∧ (s.(statusRef) ≠ IDLE → s.(channelRef) = true).

(** The states the hook reaches from its mount. *)
Definition reachable (b : bool) (s : State) : Prop :=
  ∃ profile es, run b es (initial profile) = Some s.

(** * Scenarios

    Concrete runs of the event loop from the mounted hook.  They are the
    states at which the theorems below are instantiated and at which the
    statements above are refuted. *)

Definition alice : UserProfile := mkProfile None "alice" "20" "f" [] "".

Definition waiter (p : string) : PresenceState := mkPresence p P_waiting 0 None.

Definition inbound (id : option string) : PeerData :=
  mkFrame F_message (PStr "hi") (Some MsgText) None id None None None.

(** Mount, open the Peer, join the lobby, start searching. *)
Definition to_searching : list Event :=
  [Render; PeerOpen "me"; Render; Subscribed; Connect; Render].

(** ... then bob dials in, the connection opens, React commits. *)
Definition to_connected : list Event :=
  to_searching ++ [PeerConnection "bob" (Some Random); ConnOpen 0; Render].

Definition st_searching : State :=
  default (initial None) (run true to_searching (initial (Some alice))).

Definition st_connected : State :=
  default (initial None) (run true to_connected (initial (Some alice))).

(** A matchmaking attempt under way: the poll picked T, the jitter
    callback dialled it on connection 0, the 5 s callback is pending. *)
Definition to_dialing : list Event :=
  to_searching
  ++ [PresenceSync [waiter "T"]; Render; PollTick 0; TimerFires 0 DialConn].

Definition st_dialing : State :=
  default (initial None) (run true to_dialing (initial (Some alice))).

(** The same attempt timing out: 5 s later the timeout callback runs. *)
Definition to_cooldown : list Event :=
  to_searching
  ++ [PresenceSync [waiter "T"]; Render; PollTick 0; TimerFires 0 DialConn;
      TimerFires 1 DialConn].

Definition st_cooldown : State :=
  default (initial None) (run true to_cooldown (initial (Some alice))).

(** The first dial to T fails as unreachable, which leaves its 5 s timer
    armed; T leaves the snapshot and comes back just before the timer is
    due; the poll picks T again and schedules the jitter callback; the
    timer fires first and puts T into the cooldown set. *)
Definition to_race : list Event :=
  to_searching
  ++ [PresenceSync [waiter "T"]; Render; PollTick 0; TimerFires 0 DialConn;
      PeerError true; PresenceSync []; Render;
      PresenceSync [waiter "T"]; Render; PollTick 0;
      TimerFires 1 DialConn].



(** * The rest of the hook's interface

    The actions of [useHumanChat] besides the session and direct-call
    ones above, the friend and recent-peer lists the hook keeps beside
    the session, and the callbacks of [App.tsx] that write the
    conversation through the [setMessages] the hook returns. *)

(** ** Reactions, edits and indicators on the primary connection *)

Definition frame_reaction (messageId emoji : string) : PeerData :=
  mkFrame F_reaction (PStr emoji) None (Some messageId) None None None None.

Definition frame_edit (messageId text : string) : PeerData :=
  mkFrame F_edit_message (PStr text) None (Some messageId) None None None None.

Definition frame_flag (t : FrameType) (v : bool) : PeerData :=
  mkFrame t (PBool v) None None None None None None.

Definition frame_friend_request (p : UserProfile) : PeerData :=
  mkFrame F_friend_request (PProfile p) None None None None None None.

Definition frame_friend_accept (p : UserProfile) : PeerData :=
  mkFrame F_friend_accept (PProfile p) None None None None None None.

Definition sendReaction (messageId emoji : string) (s : State) : State :=
  let s :=
    set_messages
      (map_addressed (Some messageId)
         (add_reaction (mkReaction (PStr emoji) Me))
         s.(messages)) s in
  send_if_open (frame_reaction messageId emoji) s.

Definition editMessage (id text : string) (s : State) : State :=
  let s :=
    set_messages
      (map_addressed (Some id) (edit_text (PStr text)) s.(messages)) s in
  send_if_open (frame_edit id text) s.

Definition sendTyping (isTyping : bool) (s : State) : State :=
  send_if_open (frame_flag F_typing isTyping) s.

Definition sendRecording (isRec : bool) (s : State) : State :=
  send_if_open (frame_flag F_recording isRec) s.

Definition sendVanishMode (enabled : bool) (s : State) : State :=
  send_if_open (frame_flag F_vanish_mode enabled) s.

(** [updateMyProfile]; the [status] its closure reads is the one of the
    last commit, which is what [statusRef] holds. *)
Definition updateMyProfile (newProfile : UserProfile) (s : State) : State :=
  track (if bool_decide (s.(statusRef) = SEARCHING) then P_waiting else P_idle)
        s.

(** ** Sends on a direct connection *)

(** [const conn = directConnsRef.current.get(peerId);
     if (conn?.open) conn.send(frame)]. *)
Definition send_direct (peerId : string) (frame : PeerData) (s : State)
    : State :=
  match s.(directConnsRef) !! peerId with
  | Some c =>
      if from_option conn_open false (s.(conns) !! c)
      then conn_send c frame s else s
  | None => s
  end.

Definition sendDirectMessage (peerId text : string) (id : option string)
    (replyTo : option ReplyInfo) (s : State) : State :=
  send_direct peerId (frame_message text MsgText id replyTo None None) s.

Definition sendDirectImage (peerId base64 : string) (id : option string)
    (expiryDuration : option Z) (s : State) : State :=
  send_direct peerId
    (frame_message base64 MsgImage id None expiryDuration None) s.

Definition sendDirectAudio (peerId base64 : string) (id : option string)
    (s : State) : State :=
  send_direct peerId (frame_message base64 MsgAudio id None None None) s.

Definition sendDirectReaction (peerId messageId emoji : string) (s : State)
    : State :=
  send_direct peerId (frame_reaction messageId emoji) s.

Definition sendDirectTyping (peerId : string) (isTyping : bool) (s : State)
    : State :=
  send_direct peerId (frame_flag F_typing isTyping) s.

(** ** The conversation as [App.tsx] writes it *)

Global Instance Sender_eq_dec : EqDecision Sender.
Proof. solve_decision. Defined.

(** Truthiness of an optional flag. *)
Definition flagged (o : option bool) : bool := default false o.

Definition set_isVanish (v : option bool) (m : Message) : Message :=
  mkMessage m.(m_id) m.(m_text) m.(m_fileData) m.(m_type) m.(m_sender)
    m.(m_senderPeerId) m.(m_senderProfile) m.(m_timestamp) v
    m.(m_reactions) m.(m_isEdited) m.(m_status) m.(m_replyTo)
    m.(m_expiryDuration) m.(m_expiresAt).

(** The filter of the one-second interval of [App]: a vanish message
    stays for ten seconds. *)
Definition vanish_keeps (now : Z) (msg : Message) : bool :=
  if negb (flagged msg.(m_isVanish)) then true
  else bool_decide (now - msg.(m_timestamp) < 10000).

Definition vanish_tick (now : Z) (s : State) : State :=
  if existsb (λ m, flagged m.(m_isVanish)) s.(messages)
  then set_messages (List.filter (vanish_keeps now) s.(messages)) s
  else s.

(** The updater [handleSendMessage] applies in vanish mode. *)
Definition mark_last_vanish (prev : list Message) : list Message :=
  match last prev with
  | Some l =>
      if bool_decide (l.(m_sender) = Me)
      then <[pred (length prev) := set_isVanish (Some true) l]> prev
      else prev
  | None => prev
  end.

(** The characters [String.prototype.trim] strips, among those a string
    of the embedding holds: TAB, LF, VT, FF, CR, SP and NBSP. *)
Definition is_space (a : Ascii.ascii) : bool :=
  bool_decide (Ascii.nat_of_ascii a ∈ [9; 10; 11; 12; 13; 32; 160]%nat).

(** [!inputText.trim()]. *)
Definition blank (inputText : string) : bool :=
  forallb is_space (String.list_ascii_of_string inputText).

Definition handleSendMessage (inputText : string)
    (replyingTo : option ReplyInfo) (vanishMode : bool) (now_id now_ts : Z)
    (s : State) : State :=
  if blank inputText then s
  else
    let s := sendMessage inputText replyingTo None now_id now_ts s in
    let s :=
      if vanishMode then set_messages (mark_last_vanish s.(messages)) s
      else s in
    sendTyping false s.

(** The text under "Chat Ended". *)
Definition getDisconnectMessage (s : State) : string :=
  if bool_decide (s.(disconnectReason) = Some "local_network")
  then "You disconnected due to an internet issue."
  else if bool_decide (s.(status) = IDLE) then "You ended the chat."
  else if bool_decide (s.(disconnectReason) = Some "explicit")
  then "The user ended the chat."
  else if bool_decide (s.(disconnectReason) = Some "network")
  then "The user disconnected due to an internet issue."
  else if bool_decide (s.(disconnectReason) = Some "inactive")
  then "The user went offline."
  else "The user ended the chat.".

(** ** Friends, friend requests and recent peers

    The lists the hook keeps beside the session, with the two keys of
    [localStorage] it writes them to ([None]: the key is absent).  What
    is stored is what [JSON.stringify] wrote, which [JSON.parse] gives
    back unchanged for these records. *)

Record RecentPeer := mkRecent {
  rp_id : string;
  rp_peerId : string;
  rp_profile : UserProfile;
  rp_metAt : Z
}.

Record Friend := mkFriend {
  fr_id : string;
  fr_profile : UserProfile;
  fr_addedAt : Z;
  fr_lastSeen : option Z
}.

Record FriendRequest := mkRequest {
  rq_peerId : string;
  rq_profile : UserProfile
}.

Record Social := mkSocial {
  friends : list Friend;
  friendRequests : list FriendRequest;
  notification : option string;
  chat_friends : option (list Friend);
  recent_peers : option (list RecentPeer)
}.

Definition set_friends (v : list Friend) (x : Social) : Social :=
  mkSocial v x.(friendRequests) x.(notification) x.(chat_friends)
           x.(recent_peers).

Definition set_friendRequests (v : list FriendRequest) (x : Social) : Social :=
  mkSocial x.(friends) v x.(notification) x.(chat_friends) x.(recent_peers).

Definition set_notification (v : option string) (x : Social) : Social :=
  mkSocial x.(friends) x.(friendRequests) v x.(chat_friends) x.(recent_peers).

Definition set_chat_friends (v : option (list Friend)) (x : Social) : Social :=
  mkSocial x.(friends) x.(friendRequests) x.(notification) v x.(recent_peers).

Definition set_recent_peers (v : option (list RecentPeer)) (x : Social)
    : Social :=
  mkSocial x.(friends) x.(friendRequests) x.(notification) x.(chat_friends) v.

(** [a && b && a === b] on two optional ids. *)
Definition same_uid (a b : option string) : bool :=
  truthy a && truthy b && bool_decide (a = b).

(** [a || b] on an optional id and a string. *)
Definition or_else (a : option string) (b : string) : string :=
  if truthy a then default "" a else b.

(** The filter of [addToRecentPeers]. *)
Definition other_peer (profile : UserProfile) (peerId : string)
    (r : RecentPeer) : bool :=
  if truthy r.(rp_profile).(uid) && truthy profile.(uid)
  then bool_decide (r.(rp_profile).(uid) ≠ profile.(uid))
  else bool_decide (r.(rp_peerId) ≠ peerId).

Definition addToRecentPeers (profile : UserProfile) (peerId : string)
    (now : Z) (x : Social) : Social :=
  let recents := default [] x.(recent_peers) in
  let recents := List.filter (other_peer profile peerId) recents in
  let recents :=
    mkRecent (or_else profile.(uid) peerId) peerId profile now :: recents in
  set_recent_peers (Some (take 50 recents)) x.

(** The test of the ['friend_request'] branch for a request already
    stored. *)
Definition request_from (u : option string) (peer : string)
    (r : FriendRequest) : bool :=
  same_uid r.(rq_profile).(uid) u || bool_decide (r.(rq_peerId) = peer).

(** The test for a friend already in the list; [peer] is null where the
    caller passes [partnerPeerId]. *)
Definition friend_is (u : option string) (peer : option string) (f : Friend)
    : bool :=
  same_uid f.(fr_profile).(uid) u || bool_decide (Some f.(fr_id) = peer).

(** The friend and notification side of the ['data'] listener:
    [payload.payload?.username] is truthy only for a profile with a
    non-empty name.  As in [conn_on_data], a ['profile'] frame whose
    payload is not a profile is where the model stops. *)
Definition social_on_data (isMain : bool) (peer : string) (payload : PeerData)
    (now1 now2 : Z) (x : Social) : Social :=
  match payload.(f_type), payload.(f_payload) with
  | F_profile, PProfile profile =>
      if isMain then addToRecentPeers profile peer now1 x else x
  | F_vanish_mode, v =>
      if isMain then
        set_notification
          (Some (if payload_truthy v then "Stranger turned on Vanish Mode"
                 else "Stranger turned off Vanish Mode")) x
      else x
  | F_friend_request, PProfile p =>
      if truthy (Some p.(username)) then
        if existsb (request_from p.(uid) peer) x.(friendRequests) then x
        else set_friendRequests (x.(friendRequests) ++ [mkRequest peer p]) x
      else x
  | F_friend_accept, PProfile p =>
      if truthy (Some p.(username)) then
        let x :=
          if existsb (friend_is p.(uid) (Some peer)) x.(friends) then x
          else
            set_friends (x.(friends) ++ [mkFriend peer p now1 (Some now2)]) x in
        set_notification
          (Some (p.(username) +:+ " accepted your friend request")) x
      else x
  | _, _ => x
  end.

(** [acceptFriendRequest], as far as the lists go; the notice to the
    other side travels on a connection of its own. *)
Definition acceptFriendRequest (request : FriendRequest) (now1 now2 : Z)
    (x : Social) : Social :=
  let x :=
    if existsb (friend_is request.(rq_profile).(uid)
                  (Some request.(rq_peerId))) x.(friends)
    then x
    else
      set_friends
        (x.(friends)
         ++ [mkFriend request.(rq_peerId) request.(rq_profile) now1
               (Some now2)]) x in
  let x :=
    set_friendRequests
      (List.filter (λ r, bool_decide (r.(rq_peerId) ≠ request.(rq_peerId)))
         x.(friendRequests)) x in
  set_notification
    (Some ("You are now friends with " +:+ request.(rq_profile).(username))) x.

(** The callback [acceptFriendRequest] defers with [setTimeout(..., 0)]. *)
Definition accept_store (request : FriendRequest) (now1 now2 : Z)
    (x : Social) : Social :=
  let current := default [] x.(chat_friends) in
  set_chat_friends
    (Some (current
           ++ [mkFriend request.(rq_peerId) request.(rq_profile) now1
                 (Some now2)])) x.

Definition rejectFriendRequest (peerId : string) (x : Social) : Social :=
  set_friendRequests
    (List.filter (λ r, bool_decide (r.(rq_peerId) ≠ peerId))
       x.(friendRequests)) x.

Definition removeFriend (peerId : string) (x : Social) : Social :=
  let x :=
    set_friends
      (List.filter (λ f, bool_decide (f.(fr_id) ≠ peerId)) x.(friends)) x in
  let current := default [] x.(chat_friends) in
  set_chat_friends
    (Some (List.filter (λ f, bool_decide (f.(fr_id) ≠ peerId)) current)) x.

(** [u.profile?.uid]. *)
Definition presence_uid (u : PresenceState) : option string :=
  match u.(ps_profile) with
  | Some p => p.(uid)
  | None => None
  end.

(** The test of the last-seen effect for a friend in the snapshot. *)
Definition is_online (online : list PresenceState) (friend : Friend) : bool :=
  existsb
    (λ u, same_uid (presence_uid u) friend.(fr_profile).(uid)
          || bool_decide (u.(ps_peerId) = friend.(fr_id)))
    online.

(** Truthiness of an optional timestamp: [undefined] and [0] are falsy. *)
Definition stamped (o : option Z) : bool :=
  match o with
  | Some z => negb (bool_decide (z = 0))
  | None => false
  end.

Definition set_lastSeen (v : Z) (f : Friend) : Friend :=
  mkFriend f.(fr_id) f.(fr_profile) f.(fr_addedAt) (Some v).

(** The [prev.map] of the last-seen effect.  [clock k] is the [k]-th
    reading of [Date.now()] inside the updater and [n] the number of
    readings taken so far; the result carries the [changed] flag and the
    number of readings after the pass. *)
Fixpoint sync_map (online : list PresenceState) (clock : nat → Z) (n : nat)
    (prev : list Friend) : list Friend * bool * nat :=
  match prev with
  | [] => ([], false, n)
  | friend :: rest =>
      let '(friend', changed, n) :=
        if is_online online friend then
          if negb (stamped friend.(fr_lastSeen))
          then (set_lastSeen (clock n) friend, true, S n)
          else if bool_decide
                    (clock n - default 0 friend.(fr_lastSeen) > 10000)
          then (set_lastSeen (clock (S n)) friend, true, S (S n))
          else (friend, false, S n)
        else (friend, false, n) in
      let '(rest', changed', n) := sync_map online clock n rest in
      (friend' :: rest', changed || changed', n)
  end.

(** The effect on [onlineUsers]: friends in the snapshot get a new
    [lastSeen], at most every ten seconds, and a change is stored.  The
    updater runs on the list of the render that started the effect. *)
Definition sync_friends (online : list PresenceState) (clock : nat → Z)
    (x : Social) : Social :=
  if bool_decide (0 < length online)%nat
     && bool_decide (0 < length x.(friends))%nat
  then
    let '(updated, changed, _) := sync_map online clock 0 x.(friends) in
    if changed then set_chat_friends (Some updated) (set_friends updated x)
    else x
  else x.

(** [sendFriendRequest]: the session and the lists together. *)
Definition sendFriendRequest (s : State) (x : Social) : State * Social :=
  let isFriend :=
    match s.(partnerProfile) with
    | Some partner =>
        existsb (friend_is partner.(uid) s.(partnerPeerId)) x.(friends)
    | None => false
    end in
  if isFriend then (s, set_notification (Some "Already friends") x)
  else
    match s.(userProfile) with
    | Some me =>
        if main_open s
        then (send_if_open (frame_friend_request me) s,
              set_notification (Some "Friend request sent") x)
        else (s, x)
    | None => (s, x)
    end.

(** ** Every call into the hook

    The events of the loop together with the remaining actions and the
    two writes of [App]. *)
Inductive Call :=
  | Loop (e : Event)
  | SendReaction (messageId emoji : string)
  | EditMessage (id text : string)
  | SendTyping (isTyping : bool)
  | SendRecording (isRec : bool)
  | SendVanishMode (enabled : bool)
  | UpdateMyProfile (newProfile : UserProfile)
  | SendDirectMessage (peerId text : string) (id : option string)
      (replyTo : option ReplyInfo)
  | SendDirectImage (peerId base64 : string) (id : option string)
      (expiryDuration : option Z)
  | SendDirectAudio (peerId base64 : string) (id : option string)
  | SendDirectReaction (peerId messageId emoji : string)
  | SendDirectTyping (peerId : string) (isTyping : bool)
  | VanishTick (now : Z)
  | HandleSendMessage (inputText : string) (replyingTo : option ReplyInfo)
      (vanishMode : bool) (now_id now_ts : Z).

Definition call (b : bool) (k : Call) (s : State) : option State :=
  match k with
  | Loop e => step b e s
  | SendReaction messageId emoji => Some (sendReaction messageId emoji s)
  | EditMessage id text => Some (editMessage id text s)
  | SendTyping isTyping => Some (sendTyping isTyping s)
  | SendRecording isRec => Some (sendRecording isRec s)
  | SendVanishMode enabled => Some (sendVanishMode enabled s)
  | UpdateMyProfile newProfile => Some (updateMyProfile newProfile s)
  | SendDirectMessage peerId text id replyTo =>
      Some (sendDirectMessage peerId text id replyTo s)
  | SendDirectImage peerId base64 id expiryDuration =>
      Some (sendDirectImage peerId base64 id expiryDuration s)
  | SendDirectAudio peerId base64 id => Some (sendDirectAudio peerId base64 id s)
  | SendDirectReaction peerId messageId emoji =>
      Some (sendDirectReaction peerId messageId emoji s)
  | SendDirectTyping peerId isTyping =>
      Some (sendDirectTyping peerId isTyping s)
  | VanishTick now => Some (vanish_tick now s)
  | HandleSendMessage inputText replyingTo vanishMode now_id now_ts =>
      Some (handleSendMessage inputText replyingTo vanishMode now_id now_ts s)
  end.

Fixpoint calls (b : bool) (ks : list Call) (s : State) : option State :=
  match ks with
  | [] => Some s
  | k :: ks =>
      match call b k s with
      | Some s' => calls b ks s'
      | None => None
      end
  end.

(** The states the hook reaches from its mount through any of its
    calls. *)
Definition reached (b : bool) (s : State) : Prop :=
  ∃ profile ks, calls b ks (initial profile) = Some s.

(** ** The two ends of a conversation

    What the ends of a session show of the same message: everything but
    the receipt, the clock readings and the sender's peer id, with "me"
    and "stranger" exchanged. *)
Definition mirror (x : Sender) : Sender :=
  match x with
  | Me => Stranger
  | Stranger => Me
  | System => System
  end.

Definition mirror_reaction (r : Reaction) : Reaction :=
  mkReaction r.(emoji) (mirror r.(r_sender)).

Definition alike (a b : Message) : Prop :=
  a.(m_id) = b.(m_id)
  ∧ a.(m_text) = b.(m_text)
  ∧ a.(m_fileData) = b.(m_fileData)
  ∧ a.(m_type) = b.(m_type)
  ∧ b.(m_sender) = mirror a.(m_sender)
  ∧ a.(m_replyTo) = b.(m_replyTo)
  ∧ b.(m_reactions) = mirror_reaction <$> a.(m_reactions)
  ∧ a.(m_isEdited) = b.(m_isEdited)
  ∧ a.(m_expiryDuration) = b.(m_expiryDuration)
  ∧ a.(m_isVanish) = b.(m_isVanish).

(** A conversation without the notices each end writes for itself. *)
Definition chat (ms : list Message) : list Message :=
  List.filter (λ m, negb (bool_decide (m.(m_sender) = System))) ms.

Definition in_step (here there : list Message) : Prop :=
  Forall2 alike (chat here) (chat there).

(** The calls that send a message or change one. *)
Definition chat_call (k : Call) : bool :=
  match k with
  | Loop (SendMessage _ _ _ _ _) | Loop (SendImage _ _ _ _ _ _)
  | Loop (SendAudio _ _ _ _) | SendReaction _ _ | EditMessage _ _ => true
  | _ => false
  end.

(** ** What a call does to the session

    The part of the state the screen is chosen by: the status, the
    reason of the last disconnect and the partner's peer id. *)
Definition session (s : State) : ChatMode * option string * option string :=
  (s.(status), s.(disconnectReason), s.(partnerPeerId)).

(** Connection [c] carries the primary listeners and is to peer [p]. *)
Definition primary_to (s : State) (c : nat) (p : string) : Prop :=
  ∃ cn, s.(conns) !! c = Some cn ∧ cn.(conn_role) = Some Random
        ∧ cn.(conn_peer) = p.

(** The primary reference holds a connection that is not open and has
    the primary listeners, as between a dial and its ['open']: the [send]
    of [disconnect] fails on it, its ['error'] listener runs and
    [disconnect] ends there. *)
Definition unopened_primary (s : State) (c : nat) : Prop :=
  s.(mainConnRef) = Some c
  ∧ ∃ cn, s.(conns) !! c = Some cn
          ∧ cn.(conn_open) = false ∧ cn.(conn_role) = Some Random.

(** The ways a call can change the session. *)
Definition explains (k : Call) (s s' : State) : Prop :=
  session s' = session s
  ∨ (∃ c p, k = Loop (ConnOpen c) ∧ primary_to s c p
            ∧ session s' = (CONNECTED, s.(disconnectReason), Some p))
  ∨ (∃ c p, (k = Loop (ConnClose c) ∨ k = Loop (ConnError c))
            ∧ primary_to s c p ∧ s.(statusRef) = CONNECTED
            ∧ session s' = (DISCONNECTED, Some "network", None))
  ∨ (∃ c p payload now_ts now_id,
       k = Loop (ConnData c payload now_ts now_id)
       ∧ payload.(f_type) = F_disconnect ∧ primary_to s c p
       ∧ session s' = (DISCONNECTED, Some "explicit", None))
  ∨ (k = Loop Connect ∧ truthy s.(renderedPeerId) = true
     ∧ session s' = (SEARCHING, None, s.(partnerPeerId)))
  ∨ (k = Loop Disconnect ∧ (∀ c, ¬ unopened_primary s c)
     ∧ session s' = (IDLE, Some "local_network", None))
  ∨ (∃ c, k = Loop Disconnect ∧ unopened_primary s c
          ∧ s.(statusRef) = CONNECTED
          ∧ session s' = (DISCONNECTED, Some "network", None)).

(** The sessions that occur. *)
Definition session_inv (s : State) : Prop :=
  s.(disconnectReason) ∈ [None; Some "network"; Some "explicit";
                          Some "local_network"]
  ∧ match s.(status) with
    | IDLE =>
        s.(disconnectReason) = None
        ∨ s.(disconnectReason) = Some "local_network"
    | SEARCHING => s.(disconnectReason) = None
    | CONNECTED => is_Some s.(partnerPeerId)
    | DISCONNECTED =>
        (s.(disconnectReason) = Some "network"
         ∨ s.(disconnectReason) = Some "explicit")
        ∧ s.(partnerPeerId) = None
    | WAITING | ERROR => False
    end.

(** ** What the references hold *)

(** Connection [c] carries the direct listeners and is to peer [p]. *)
Definition direct_to (s : State) (c : nat) (p : string) : Prop :=
  ∃ cn, s.(conns) !! c = Some cn ∧ cn.(conn_role) = Some Direct
        ∧ cn.(conn_peer) = p.

(** The primary reference holds a connection with the primary listeners,
    every entry of the direct-connection map holds a connection to its
    key with the direct listeners, and the set of active direct
    connections React keeps is the key set of the map. *)
Definition wiring_inv (s : State) : Prop :=
  (∀ c, s.(mainConnRef) = Some c → ∃ p, primary_to s c p)
  ∧ (∀ p c, s.(directConnsRef) !! p = Some c → direct_to s c p)
  ∧ s.(activeDirectConnections) = dom s.(directConnsRef).

(** Remote peer and listeners of the connections, in store order. *)
Definition shapes (s : State) : list (string * option SessionType) :=
  (λ cn, (cn.(conn_peer), cn.(conn_role))) <$> s.(conns).

(** The store with a connection object PeerJS has just made: no
    listeners yet. *)
Definition with_new_conn (remote : string) (s : State) : State :=
  set_conns (s.(conns) ++ [mkConn remote false false None []]) s.

(** What the jitter callback does when it dials: the dial with the set-up
    of the connection, and the arming of the timeout. *)
Definition dial_made (b : bool) (t : PresenceState) (s : State) : State :=
  setupConnection b (length s.(conns)) Random
    (with_new_conn t.(ps_peerId)
       (set_dialed (s.(dialed) ++ [t.(ps_peerId)]) s)).

Definition timeout_armed (c : nat) (p : string) (s : State) : State :=
  set_connectionTimeoutRef (Some (length s.(timers)))
    (set_timers (s.(timers) ++ [mkTimer (DialTimeout c p) true]) s).

(** A turn that installs nothing: no connection changes peer or
    listeners, and the references keep what they hold or let go of it. *)
Definition lets_go (s s' : State) : Prop :=
  shapes s' = shapes s
  ∧ (s'.(mainConnRef) = s.(mainConnRef) ∨ s'.(mainConnRef) = None)
  ∧ s'.(directConnsRef) ⊆ s.(directConnsRef)
  ∧ (s.(activeDirectConnections) = dom s.(directConnsRef) →
     s'.(activeDirectConnections) = dom s'.(directConnsRef)).

(** ** The two kinds of connection

    What belongs to the random session and what to the direct
    connections, and the connection a transport event is about. *)
Definition session_side (s : State) :=
  (s.(messages), s.(status), s.(partnerTyping), s.(partnerRecording),
   s.(partnerProfile), s.(remoteVanishMode), s.(partnerPeerId),
   s.(disconnectReason), s.(mainConnRef), s.(isMatchmakerRef),
   s.(failedPeersRef), s.(timers), s.(connectionTimeoutRef), s.(tracked),
   s.(dialed)).

Definition direct_side (s : State) :=
  (s.(incomingDirectMessage), s.(activeDirectConnections),
   s.(directConnsRef), s.(directPeerProfilesRef)).

Definition on_conn (e : Event) : option nat :=
  match e with
  | ConnOpen c | ConnData c _ _ _ | ConnClose c | ConnError c => Some c
  | _ => None
  end.

(** ** Timers and dials *)

(** A turn that arms, clears or fires no timer and dials nobody. *)
Definition calm (s s' : State) : Prop :=
  s'.(timers) = s.(timers)
  ∧ s'.(connectionTimeoutRef) = s.(connectionTimeoutRef)
  ∧ s'.(dialed) = s.(dialed).

(** Every armed dial timeout is the one [connectionTimeoutRef] holds. *)
Definition armed_inv (s : State) : Prop :=
  ∀ t c p, s.(timers) !! t = Some (mkTimer (DialTimeout c p) true) →
    s.(connectionTimeoutRef) = Some t.

(** What the timers were made to do, in store order. *)
Definition bodies (s : State) : list TimerBody := timer_body <$> s.(timers).

(** Timer [t] is a jitter callback, pending or not, that was given
    [target] to dial. *)
Definition picked (s : State) (t : nat) (target : PresenceState) : Prop :=
  ∃ pending,
    s.(timers) !! t = Some (mkTimer (JitterDial (Some target)) pending).

(** Every target given to a jitter callback was listed as waiting, and
    every peer dialled was the target of a jitter callback. *)
Definition dial_inv (s : State) : Prop :=
  (∀ t target, picked s t target → target.(ps_status) = P_waiting)
  ∧ (∀ p, p ∈ s.(dialed) →
          ∃ t target, picked s t target ∧ target.(ps_peerId) = p).

(** ** More scenarios *)

Definition bob : UserProfile := mkProfile (Some "u-bob") "bob" "21" "m" [] "".

(** A session with one message each way. *)
Definition to_chatting : list Event :=
  to_connected
  ++ [SendMessage "hello" None None 5 6; ConnData 0 (inbound (Some "77")) 8 9;
      Render].

Definition st_chatting : State :=
  default (initial None) (run true to_chatting (initial (Some alice))).

(** The other end of that session. *)
Definition to_chatting_there : list Event :=
  to_connected
  ++ [ConnData 0 (frame_message "hello" MsgText (Some "5") None None None) 7 7;
      SendMessage "hi" None None 77 8; Render].

Definition st_chatting_there : State :=
  default (initial None) (run true to_chatting_there (initial (Some bob))).

(** A dial to T is under way when a direct call to a friend fails as
    unreachable: the primary reference lets go of the connection to T. *)
Definition to_adrift : list Event :=
  to_dialing ++ [CallPeer "friend" DialConn; PeerError true].

Definition st_adrift : State :=
  default (initial None) (run true to_adrift (initial (Some alice))).

(** Bob opens two direct connections to us, one after the other. *)
Definition to_twice : list Event :=
  [Render; PeerOpen "me"; Render;
   PeerConnection "bob" (Some Direct); ConnOpen 0;
   PeerConnection "bob" (Some Direct); ConnOpen 1].

Definition st_twice : State :=
  default (initial None) (run true to_twice (initial (Some alice))).

(** No friends, no requests, nothing stored. *)
Definition no_social : Social := mkSocial [] [] None None None.

(** * Properties *)

(** ** Facts about the stores *)

Lemma lookup_snoc_length {A} (l : list A) (x : A) :
  (l ++ [x]) !! length l = Some x.
Proof. by apply list_lookup_middle. Qed.

Lemma insert_snoc_length {A} (l : list A) (x y : A) :
  <[length l := y]> (l ++ [x]) = l ++ [y].
Proof.
  rewrite insert_app_r_alt by lia. by rewrite Nat.sub_diag.
Qed.

Lemma alter_snoc_length {A} (f : A → A) (l : list A) (x : A) :
  alter f (length l) (l ++ [x]) = l ++ [f x].
Proof.
  rewrite alter_app_r_alt by lia. by rewrite Nat.sub_diag.
Qed.

Lemma frames_to_conn_send c frame s cn :
  s.(conns) !! c = Some cn →
  frames_to c (conn_send c frame s) = frames_to c s ++ [frame].
Proof.
  intros Hc. unfold frames_to, conn_send. simpl.
  rewrite list_lookup_alter_eq, Hc. reflexivity.
Qed.

Lemma frames_to_conn_send_ne c c' frame s :
  c ≠ c' → frames_to c' (conn_send c frame s) = frames_to c' s.
Proof.
  intros Hne. unfold frames_to, conn_send. simpl.
  by rewrite list_lookup_alter_ne.
Qed.

Lemma main_open_Some s :
  main_open s = true →
  ∃ c cn, s.(mainConnRef) = Some c ∧ s.(conns) !! c = Some cn
          ∧ cn.(conn_open) = true.
Proof.
  unfold main_open. destruct (mainConnRef s) as [c|]; [|done].
  destruct (conns s !! c) as [cn|] eqn:Hc; simpl; [|done].
  intros Ho. by exists c, cn.
Qed.

Lemma send_if_open_closed frame s :
  main_open s = false → send_if_open frame s = s.
Proof. unfold send_if_open. by intros ->. Qed.

Lemma send_if_open_open frame s c :
  main_open s = true → s.(mainConnRef) = Some c →
  send_if_open frame s = conn_send c frame s.
Proof. unfold send_if_open. by intros -> ->. Qed.

Lemma send_if_open_transmits frame s0 s :
  s.(conns) = s0.(conns) → s.(mainConnRef) = s0.(mainConnRef) →
  transmits_iff_open frame s0 (send_if_open frame s).
Proof.
  intros Hconns Hmain.
  assert (Hmo : main_open s = main_open s0)
    by (unfold main_open; by rewrite Hconns, Hmain).
  split; intros Ho.
  - destruct (main_open_Some s0 Ho) as (c & cn & Hc & Hcn & _).
    exists c. split; [done|].
    rewrite (send_if_open_open frame s c) by congruence.
    split.
    + rewrite (frames_to_conn_send c frame s cn) by congruence.
      unfold frames_to. by rewrite Hconns.
    + intros c' Hne. unfold conn_send. simpl.
      rewrite list_lookup_alter_ne by done. by rewrite Hconns.
  - rewrite send_if_open_closed by congruence. done.
Qed.

(** ** Facts about the listeners *)

Lemma handleMainDisconnect_spec reason s :
  let s' := handleMainDisconnect reason s in
  s'.(status) = DISCONNECTED
  ∧ s'.(disconnectReason) = Some reason
  ∧ s'.(messages) = []
  ∧ s'.(partnerProfile) = None
  ∧ s'.(partnerPeerId) = None
  ∧ s'.(remoteVanishMode) = None
  ∧ s'.(mainConnRef) = None
  ∧ s'.(isMatchmakerRef) = false
  ∧ s'.(tracked) = (if s.(channelRef) then s.(tracked) ++ [P_idle]
                    else s.(tracked))
  ∧ s'.(conns) = s.(conns)
  ∧ s'.(channelRef) = s.(channelRef)
  ∧ s'.(statusRef) = s.(statusRef)
  ∧ s'.(failedPeersRef) = s.(failedPeersRef).
Proof.
  unfold handleMainDisconnect, track. simpl.
  destruct (channelRef s) eqn:Hch; simpl; rewrite ?Hch;
    repeat split; reflexivity.
Qed.

Lemma clearTimeout_fields (t : option nat) (s : State) :
  (clearTimeout t s).(dialed) = s.(dialed)
  ∧ (clearTimeout t s).(failedPeersRef) = s.(failedPeersRef)
  ∧ (clearTimeout t s).(conns) = s.(conns).
Proof. by destruct t. Qed.

(** Closing a connection that is not open, or has no listeners, only marks
    it closed. *)
Lemma conn_close_quiet b c cn s :
  s.(conns) !! c = Some cn →
  cn.(conn_open) = false ∨ cn.(conn_role) = None →
  conn_close b c s = set_conns (<[c := closed_conn cn]> s.(conns)) s.
Proof.
  intros Hc Hq. unfold conn_close. rewrite Hc.
  destruct Hq as [-> | ->]; [by rewrite andb_false_r|].
  by destruct (b && conn_open cn).
Qed.

Lemma conn_close_conns b c cn s :
  s.(conns) !! c = Some cn →
  (conn_close b c s).(conns) = <[c := closed_conn cn]> s.(conns).
Proof.
  intros Hc. unfold conn_close. rewrite Hc.
  destruct (b && conn_open cn); [|reflexivity].
  destruct (conn_role cn) as [md|]; [|reflexivity].
  unfold conn_on_close.
  destruct (is_random md); [|reflexivity].
  repeat case_bool_decide; try reflexivity.
  by destruct (handleMainDisconnect_spec "network"
    (set_conns (<[c:=closed_conn cn]> (conns s)) s))
    as (_&_&_&_&_&_&_&_&_&->&_).
Qed.

Lemma conn_on_close_channelRef isMain c s :
  (conn_on_close isMain c s).(channelRef) = s.(channelRef).
Proof.
  unfold conn_on_close. destruct isMain; [|reflexivity].
  repeat case_bool_decide; try reflexivity.
  by destruct (handleMainDisconnect_spec "network" s)
    as (_&_&_&_&_&_&_&_&_&_&->&_).
Qed.

Lemma conn_close_channelRef b c s :
  (conn_close b c s).(channelRef) = s.(channelRef).
Proof.
  unfold conn_close. destruct (conns s !! c) as [cn|]; [|reflexivity].
  destruct (b && conn_open cn); [|reflexivity].
  destruct (conn_role cn) as [md|]; [|reflexivity].
  by rewrite conn_on_close_channelRef.
Qed.

Lemma conn_on_close_failedPeersRef isMain c s :
  (conn_on_close isMain c s).(failedPeersRef) = s.(failedPeersRef).
Proof.
  unfold conn_on_close. destruct isMain; [|reflexivity].
  repeat case_bool_decide; try reflexivity.
  by destruct (handleMainDisconnect_spec "network" s)
    as (_&_&_&_&_&_&_&_&_&_&_&_&->).
Qed.

Lemma conn_close_failedPeersRef b c s :
  (conn_close b c s).(failedPeersRef) = s.(failedPeersRef).
Proof.
  unfold conn_close. destruct (conns s !! c) as [cn|]; [|reflexivity].
  destruct (b && conn_open cn); [|reflexivity].
  destruct (conn_role cn) as [md|]; [|reflexivity].
  by rewrite conn_on_close_failedPeersRef.
Qed.

Lemma setupConnection_primary_free b c s :
  s.(mainConnRef) = None →
  setupConnection b c Random s
  = set_conns (alter (with_listeners Random) c s.(conns))
              (set_mainConnRef (Some c) s).
Proof. intros Hm. unfold setupConnection. simpl. by rewrite Hm. Qed.

Lemma setupConnection_primary_taken b c c0 s :
  s.(mainConnRef) = Some c0 → setupConnection b c Random s = conn_close b c s.
Proof. intros Hm. unfold setupConnection. simpl. by rewrite Hm. Qed.

Lemma conn_on_data_message_main b c payload now_ts now_id s :
  payload.(f_type) = F_message →
  conn_on_data b true c payload now_ts now_id s
  = let s1 :=
      set_messages
        (s.(messages) ++ [received_message true c payload now_ts now_id s]) s in
    if truthy payload.(f_id)
    then conn_send c (frame_seen (default "" payload.(f_id))) s1 else s1.
Proof. intros Ht. unfold conn_on_data. by rewrite Ht. Qed.

Lemma step_ConnData b c cn md payload now_ts now_id s :
  s.(conns) !! c = Some cn → cn.(conn_open) = true →
  cn.(conn_role) = Some md →
  step b (ConnData c payload now_ts now_id) s
  = Some (conn_on_data b (is_random md) c payload now_ts now_id s).
Proof.
  intros Hc Ho Hr. simpl. rewrite Hc. destruct cn as [p o cl r fs].
  simpl in *. by subst.
Qed.

Lemma attemptMatch_failedPeersRef r s :
  (attemptMatch r s).(failedPeersRef) = s.(failedPeersRef).
Proof. unfold attemptMatch. repeat case_match; reflexivity. Qed.

Lemma checkOffline_failedPeersRef msgs s :
  (checkOffline msgs s).(failedPeersRef) = s.(failedPeersRef).
Proof. unfold checkOffline. by destruct (last msgs). Qed.

Lemma periodic_keeps_cooldown b es :
  ∀ s s', forallb periodic es = true → run b es s = Some s' →
    s'.(failedPeersRef) = s.(failedPeersRef).
Proof.
  induction es as [|e es IH]; intros s s' Hp Hrun; simpl in *.
  - by injection Hrun as <-.
  - apply andb_prop in Hp as [He Hes].
    destruct (step b e s) as [s1|] eqn:Hstep; [|done].
    rewrite (IH s1 s' Hes Hrun).
    destruct e; try done; simpl in Hstep.
    + destruct (unit_draw r && bool_decide (statusRef s = SEARCHING));
        [|done].
      injection Hstep as <-. apply attemptMatch_failedPeersRef.
    + destruct (truthy (renderedPeerId s)); [|done].
      injection Hstep as <-. apply checkOffline_failedPeersRef.
Qed.

Lemma NoDup_ids_snoc (ms : list Message) (m : Message) :
  NoDup (m_id <$> (ms ++ [m]))
  ↔ NoDup (m_id <$> ms) ∧ m.(m_id) ∉ (m_id <$> ms).
Proof.
  rewrite fmap_app, NoDup_app. simpl. split.
  - intros (Hnd & Hdisj & _). split; [done|].
    intros Hin. apply (Hdisj _ Hin). by left.
  - intros (Hnd & Hnin). split; [done|]. split.
    + intros x Hx Hx'. apply list_elem_of_singleton in Hx'. by subst.
    + apply NoDup_singleton.
Qed.

(** ** The scenarios run *)

Example to_connected_runs :
  both (λ b, run b to_connected (initial (Some alice)) = Some st_connected).
Proof. split; vm_compute; reflexivity. Qed.

Example st_connected_is_connected : connected_session st_connected 0.
Proof.
  split; [vm_compute; reflexivity|]. split; [vm_compute; reflexivity|].
  split; [vm_compute; reflexivity|].
  eexists. split; [vm_compute; reflexivity|]. split; reflexivity.
Qed.

Example st_connected_reachable : reachable true st_connected.
Proof. exists (Some alice), to_connected. vm_compute. reflexivity. Qed.

Example st_searching_gate : primary_gate st_searching.
Proof. split; [left|]; vm_compute; reflexivity. Qed.

Example st_connected_no_gate : ¬ primary_gate st_connected.
Proof. intros [_ Hmain]. vm_compute in Hmain. discriminate. Qed.

Example st_dialing_pending :
  st_dialing.(statusRef) = SEARCHING
  ∧ main_open st_dialing = false
  ∧ st_dialing.(mainConnRef) = Some 0%nat
  ∧ st_dialing.(isMatchmakerRef) = true
  ∧ st_dialing.(timers) !! 1%nat = Some (mkTimer (DialTimeout 0 "T") true).
Proof. vm_compute. repeat split; reflexivity. Qed.

Example to_cooldown_runs :
  both (λ b, run b to_cooldown (initial (Some alice)) = Some st_cooldown).
Proof. split; vm_compute; reflexivity. Qed.

Example st_cooldown_holds_T :
  "T" ∈ st_cooldown.(failedPeersRef)
  ∧ st_cooldown.(mainConnRef) = None
  ∧ st_cooldown.(isMatchmakerRef) = false
  ∧ st_cooldown.(conns) !! 0%nat = Some (mkConn "T" false true (Some Random) []).
Proof.
  split; [apply (bool_decide_unpack _); vm_compute; exact I|].
  vm_compute. repeat split; reflexivity.
Qed.

(** ** C1: the gate on inbound primary connections *)

(** C1. An inbound connection tagged ['random'] gets the primary listeners
    exactly when the status the listener reads ([statusRef]) is Searching
    or Waiting and no primary connection reference exists; it is then the
    primary connection.  In
    every other case it is closed at once, gets no listeners, and the
    state is otherwise as before: status, primary connection reference,
    partner profile and peer id, remote vanish flag, conversation and
    matchmaker guard do not change, and neither does any other
    connection. *)
Theorem C1_inbound_primary_gate :
  ∀ (b : bool) (s : State) (remote : string),
    let s' := peer_on_connection b remote (Some Random) s in
    let c := length s.(conns) in
    (primary_gate s ↔
       conn_role <$> s'.(conns) !! c = Some (Some Random))
    ∧ (primary_gate s →
         s'.(mainConnRef) = Some c
         ∧ s'.(conns) = s.(conns) ++ [mkConn remote false false (Some Random) []])
    ∧ (¬ primary_gate s →
         s' = set_conns (s.(conns) ++ [mkConn remote false true None []]) s
         ∧ s'.(status) = s.(status)
         ∧ s'.(statusRef) = s.(statusRef)
         ∧ s'.(mainConnRef) = s.(mainConnRef)
         ∧ s'.(partnerProfile) = s.(partnerProfile)
         ∧ s'.(partnerPeerId) = s.(partnerPeerId)
         ∧ s'.(remoteVanishMode) = s.(remoteVanishMode)
         ∧ s'.(messages) = s.(messages)
         ∧ s'.(isMatchmakerRef) = s.(isMatchmakerRef)).
Proof.
  intros b s remote s' c.
  set (s0 := set_conns (s.(conns) ++ [mkConn remote false false None []]) s).
  assert (Hlook : s0.(conns) !! c = Some (mkConn remote false false None []))
    by apply lookup_snoc_length.
  assert (Hrej : conn_close b c s0
                 = set_conns (s.(conns) ++ [mkConn remote false true None []]) s).
  { rewrite (conn_close_quiet b c _ s0 Hlook) by (by left).
    unfold s0, c. simpl conns. rewrite insert_snoc_length. reflexivity. }
  assert (Hacc : primary_gate s →
            s' = set_conns (s.(conns) ++ [mkConn remote false false (Some Random) []])
                   (set_mainConnRef (Some c) s)).
  { intros [Hst Hmain]. unfold s', peer_on_connection. fold c. fold s0.
    assert (Hg : bool_decide (statusRef s0 ≠ SEARCHING)
                 && bool_decide (statusRef s0 ≠ WAITING) = false).
    { unfold s0. simpl. destruct Hst as [-> | ->]; reflexivity. }
    rewrite Hg.
    assert (Hm : mainConnRef s0 = None) by (unfold s0; by simpl).
    rewrite Hm. simpl. rewrite setupConnection_primary_free by done.
    unfold s0, c. simpl conns. rewrite alter_snoc_length. reflexivity. }
  assert (Hnacc : ¬ primary_gate s →
            s' = set_conns (s.(conns) ++ [mkConn remote false true None []]) s).
  { intros Hng. unfold s', peer_on_connection. fold c. fold s0.
    destruct (bool_decide (statusRef s0 ≠ SEARCHING)
              && bool_decide (statusRef s0 ≠ WAITING)) eqn:Hg; [done|].
    destruct (bool_decide (is_Some (mainConnRef s0))) eqn:Hm; [done|].
    exfalso. apply Hng. split.
    - apply andb_false_iff in Hg.
      destruct Hg as [Hg | Hg]; apply bool_decide_eq_false in Hg;
        unfold s0 in Hg; simpl in Hg;
        destruct (statusRef s); auto; by destruct Hg.
    - apply bool_decide_eq_false in Hm. unfold s0 in Hm. simpl in Hm.
      destruct (mainConnRef s); [|done]. destruct Hm. by eexists. }
  split; [|split].
  - split.
    + intros Hg. rewrite (Hacc Hg). simpl. unfold c.
      by rewrite lookup_snoc_length.
    + intros Hrole. destruct (decide (primary_gate s)) as [|Hng]; [done|].
      rewrite (Hnacc Hng) in Hrole. simpl in Hrole. unfold c in Hrole.
      by rewrite lookup_snoc_length in Hrole.
  - intros Hg. rewrite (Hacc Hg). done.
  - intros Hng. rewrite (Hnacc Hng). done.
Qed.

Lemma C1_witness :
  (peer_on_connection true "bob" (Some Random) st_searching).(mainConnRef)
  = Some (length st_searching.(conns))
  ∧ (peer_on_connection true "carol" (Some Random) st_connected).(mainConnRef)
    = st_connected.(mainConnRef)
  ∧ (peer_on_connection true "carol" (Some Random) st_connected).(status)
    = st_connected.(status).
Proof.
  pose proof (C1_inbound_primary_gate true st_searching "bob") as Hs.
  pose proof (C1_inbound_primary_gate true st_connected "carol") as Hc.
  cbv zeta in Hs, Hc.
  destruct Hs as (_ & Hacc & _). destruct Hc as (_ & _ & Hrej).
  destruct (Hacc st_searching_gate) as (Hmain & _).
  destruct (Hrej st_connected_no_gate) as (_ & Hst & _ & Hm & _).
  exact (conj Hmain (conj Hm Hst)).
Defined.

Example C1_accepts_while_searching :
  (peer_on_connection true "bob" (Some Random) st_searching).(mainConnRef)
  = Some 0%nat.
Proof. vm_compute. reflexivity. Qed.

(** Scenario C of the specification: a second primary-intent connection
    arriving while Connected is closed and the session is as before. *)
Example C1_rejects_while_connected :
  let s' := peer_on_connection true "carol" (Some Random) st_connected in
  s'.(mainConnRef) = Some 0%nat
  ∧ s'.(status) = CONNECTED
  ∧ s'.(partnerPeerId) = Some "bob"
  ∧ s'.(conns) !! 1%nat = Some (mkConn "carol" false true None []).
Proof. vm_compute. repeat split; reflexivity. Qed.

(** ** The lobby channel exists while a session is shown *)

Lemma same_env_refl s : same_env s s.
Proof. by repeat split. Qed.

Lemma same_env_trans s1 s2 s3 :
  same_env s1 s2 → same_env s2 s3 → same_env s1 s3.
Proof.
  intros (H1 & H2 & H3 & H4 & H5 & H6) (G1 & G2 & G3 & G4 & G5 & G6).
  repeat split; congruence.
Qed.

Lemma benign_refl s : benign s s.
Proof.
  split; [apply same_env_refl|]. intros [H | H]; [by left|].
  right. right. by left.
Qed.

Lemma started_env s s' :
  same_env s s' → (s'.(status) ≠ IDLE ∨ has_primary s' → started s) →
  started s' → started s.
Proof.
  intros (_ & _ & Hid & Hsr & _ & Hrd) Hst [H | [H | [H | [H | H]]]].
  - apply Hst. by left.
  - right. left. by rewrite <- Hid.
  - apply Hst. by right.
  - right. right. right. left. by rewrite <- Hsr.
  - right. right. right. right. by rewrite <- Hrd.
Qed.

Lemma benign_trans s1 s2 s3 : benign s1 s2 → benign s2 s3 → benign s1 s3.
Proof.
  intros [He1 Hs1] [He2 Hs2]. split; [by eapply same_env_trans|].
  intros H. apply (started_env s1 s2 He1 Hs1). by apply Hs2.
Qed.

(** A turn that keeps the environment, keeps or resets the status, and
    keeps the installed listeners is benign. *)
Lemma benign_quiet s s' :
  same_env s s' →
  s'.(status) = s.(status) ∨ s'.(status) = IDLE →
  roles s' = roles s →
  benign s s'.
Proof.
  intros He Hst Hr. split; [done|].
  intros [H | H].
  - destruct Hst as [Hst | Hst]; [|congruence]. left. by rewrite <- Hst.
  - right. right. left. unfold has_primary in *. by rewrite <- Hr.
Qed.

(** So is any turn that keeps the environment, once the hook is
    started. *)
Lemma benign_started s s' : same_env s s' → started s → benign s s'.
Proof. intros He Hs. by split. Qed.

Lemma roles_alter (f : DataConnection → DataConnection) c
    (l : list DataConnection) :
  (∀ cn, conn_role (f cn) = conn_role cn) →
  conn_role <$> alter f c l = conn_role <$> l.
Proof.
  intros Hf. rewrite (list_fmap_alter conn_role f id).
  - by apply list_alter_id.
  - apply Forall_forall. intros cn _. apply Hf.
Qed.

Lemma roles_insert_closed c cn (l : list DataConnection) :
  l !! c = Some cn →
  conn_role <$> <[c := closed_conn cn]> l = conn_role <$> l.
Proof.
  intros Hc. rewrite list_fmap_insert. apply list_insert_id.
  by rewrite list_lookup_fmap, Hc.
Qed.

Lemma roles_conn_send c frame s : roles (conn_send c frame s) = roles s.
Proof. unfold roles, conn_send. simpl. by apply roles_alter. Qed.

Lemma roles_set_open c o s : roles (set_open c o s) = roles s.
Proof. unfold roles, set_open. simpl. by apply roles_alter. Qed.

Lemma roles_track st s : roles (track st s) = roles s.
Proof. unfold track. by destruct (channelRef s). Qed.

Lemma roles_handleMainDisconnect reason s :
  roles (handleMainDisconnect reason s) = roles s.
Proof.
  unfold roles.
  by destruct (handleMainDisconnect_spec reason s)
    as (_&_&_&_&_&_&_&_&_&->&_).
Qed.

Lemma same_env_track st s : same_env s (track st s).
Proof. unfold track. destruct (channelRef s) eqn:H; by repeat split. Qed.

Lemma same_env_handleMainDisconnect reason s :
  same_env s (handleMainDisconnect reason s).
Proof.
  unfold handleMainDisconnect, track. simpl.
  destruct (channelRef s) eqn:H; repeat split; simpl; by rewrite ?H.
Qed.

Lemma same_env_conn_on_close isMain c s : same_env s (conn_on_close isMain c s).
Proof.
  unfold conn_on_close. destruct isMain; [|by repeat split].
  repeat case_bool_decide; try by repeat split.
  apply same_env_handleMainDisconnect.
Qed.

Lemma roles_conn_on_close isMain c s :
  roles (conn_on_close isMain c s) = roles s.
Proof.
  unfold conn_on_close. destruct isMain; [|reflexivity].
  repeat case_bool_decide; try reflexivity.
  apply roles_handleMainDisconnect.
Qed.

Lemma same_env_conn_close b c s : same_env s (conn_close b c s).
Proof.
  unfold conn_close. destruct (conns s !! c) as [cn|]; [|apply same_env_refl].
  destruct (b && conn_open cn); [|by repeat split].
  destruct (conn_role cn) as [md|]; [|by repeat split].
  eapply same_env_trans; [|apply same_env_conn_on_close]. by repeat split.
Qed.

Lemma roles_conn_close b c s : roles (conn_close b c s) = roles s.
Proof.
  unfold conn_close. destruct (conns s !! c) as [cn|] eqn:Hc; [|reflexivity].
  assert (Hr : roles (set_conns (<[c:=closed_conn cn]> (conns s)) s) = roles s)
    by (unfold roles; simpl; by apply roles_insert_closed).
  destruct (b && conn_open cn); [|done].
  destruct (conn_role cn) as [md|]; [|done].
  by rewrite roles_conn_on_close.
Qed.

(** Closing a connection is benign when the hook was started or the
    connection has no primary listeners to run. *)
Lemma status_conn_close b c s :
  (conn_close b c s).(status) = s.(status)
  ∨ (has_primary s ∧ same_env s (conn_close b c s)).
Proof.
  unfold conn_close. destruct (conns s !! c) as [cn|] eqn:Hc; [|by left].
  destruct (b && conn_open cn); [|by left].
  destruct (conn_role cn) as [[|]|] eqn:Hr; [|by left|by left].
  right. split.
  - unfold has_primary, roles. rewrite <- Hr.
    apply list_elem_of_fmap. exists cn. split; [done|].
    by eapply list_elem_of_lookup_2.
  - eapply same_env_trans; [|apply same_env_conn_on_close]. by repeat split.
Qed.

Lemma benign_conn_close b c s : benign s (conn_close b c s).
Proof.
  destruct (status_conn_close b c s) as [Hst | [Hp He]].
  - apply benign_quiet; [apply same_env_conn_close|by left|].
    apply roles_conn_close.
  - apply benign_started; [done|]. right. right. by left.
Qed.

Lemma has_primary_with_listeners md c (l : list DataConnection) :
  Some Random ∈ (conn_role <$> alter (with_listeners md) c l) →
  md = Random ∨ Some Random ∈ (conn_role <$> l).
Proof.
  intros Hin. apply list_elem_of_fmap in Hin as (cn & Hr & Hin).
  apply list_elem_of_lookup in Hin as (i & Hi).
  destruct (decide (c = i)) as [<- | Hne].
  - rewrite list_lookup_alter_eq in Hi.
    destruct (l !! c) as [cn0|]; [|done]. injection Hi as <-.
    left. simpl in Hr. by injection Hr.
  - rewrite list_lookup_alter_ne in Hi by done.
    right. rewrite Hr. apply list_elem_of_fmap. exists cn.
    split; [done|]. by eapply list_elem_of_lookup_2.
Qed.

Lemma has_primary_new_conn remote s :
  has_primary (set_conns (conns s ++ [mkConn remote false false None []]) s) →
  has_primary s.
Proof.
  unfold has_primary, roles. simpl. rewrite fmap_app.
  intros [Hin | Hin]%elem_of_app; [done|].
  apply list_elem_of_singleton in Hin. discriminate.
Qed.

Lemma benign_new_conn remote s :
  benign s (set_conns (conns s ++ [mkConn remote false false None []]) s).
Proof.
  split; [by repeat split|]. intros [H | H]; [by left|].
  right. right. left. by eapply has_primary_new_conn.
Qed.

Lemma benign_setupConnection b c md s :
  (md = Random → started s) → benign s (setupConnection b c md s).
Proof.
  intros Hst. unfold setupConnection.
  destruct md; simpl.
  - destruct (mainConnRef s); [apply benign_conn_close|].
    apply benign_started; [by repeat split|by apply Hst].
  - split; [by repeat split|]. intros [H | H]; [by left|].
    unfold has_primary, roles in H. simpl in H.
    apply has_primary_with_listeners in H as [? | H]; [done|].
    right. right. by left.
Qed.

Lemma same_env_setup b c md s : same_env s (setupConnection b c md s).
Proof.
  unfold setupConnection. destruct (is_random md); [|by repeat split].
  destruct (mainConnRef s); [apply same_env_conn_close|by repeat split].
Qed.

Lemma benign_peer_on_connection b remote meta s :
  benign s (peer_on_connection b remote meta s).
Proof.
  unfold peer_on_connection.
  pose proof (benign_new_conn remote s) as H0.
  remember (set_conns (conns s ++ [mkConn remote false false None []]) s)
    as s0 eqn:Hs0.
  eapply benign_trans; [exact H0|].
  destruct meta as [[|]|]; [| |apply benign_refl].
  - destruct (bool_decide (statusRef s0 ≠ SEARCHING)
              && bool_decide (statusRef s0 ≠ WAITING)) eqn:Hg;
      [apply benign_conn_close|].
    destruct (bool_decide (is_Some (mainConnRef s0)));
      [apply benign_conn_close|].
    apply benign_setupConnection. intros _.
    right. right. right. left. intros Hidle. rewrite Hidle in Hg. done.
  - by apply benign_setupConnection.
Qed.

Lemma benign_peer_on_error unavailable s :
  benign s (peer_on_error unavailable s).
Proof.
  unfold peer_on_error.
  repeat case_match; apply benign_quiet; by repeat split || left.
Qed.

Lemma benign_attemptMatch r s : benign s (attemptMatch r s).
Proof.
  unfold attemptMatch.
  repeat case_match; apply benign_quiet; by repeat split || left.
Qed.

Lemma benign_clearTimeout t s : benign s (clearTimeout t s).
Proof. destruct t; apply benign_quiet; by repeat split || left. Qed.

Lemma benign_jitter_callback b target outcome s :
  benign s (jitter_callback b target outcome s).
Proof.
  unfold jitter_callback.
  destruct (bool_decide (statusRef s ≠ SEARCHING)
            || bool_decide (is_Some (mainConnRef s))) eqn:Hg.
  { apply benign_quiet; by repeat split || left. }
  destruct target as [t|]; [|apply benign_quiet; by repeat split || left].
  destruct (peerRef s); [|apply benign_quiet; by repeat split || left].
  destruct outcome; [|apply benign_quiet; by repeat split || left ..].
  assert (Hstarted : started s).
  { right. right. right. left. intros Hidle. rewrite Hidle in Hg. done. }
  apply benign_started; [|done].
  remember (set_conns _ (set_dialed _ s)) as s1 eqn:Hs1.
  assert (He1 : same_env s s1) by (rewrite Hs1; by repeat split).
  pose proof (same_env_setup b (length (conns (set_dialed
      (dialed s ++ [ps_peerId t]) s))) Random s1) as He2.
  remember (setupConnection b _ Random s1) as s2 eqn:Hs2.
  pose proof (proj1 (benign_clearTimeout (connectionTimeoutRef s2) s2)) as He3.
  remember (clearTimeout (connectionTimeoutRef s2) s2) as s3 eqn:Hs3.
  simpl. eapply same_env_trans; [exact He1|].
  eapply same_env_trans; [exact He2|].
  eapply same_env_trans; [exact He3|]. by repeat split.
Qed.

Lemma benign_timeout_callback b conn target s :
  benign s (timeout_callback b conn target s).
Proof.
  unfold timeout_callback.
  destruct (bool_decide (statusRef s = SEARCHING) && negb (main_open s));
    [|apply benign_refl].
  pose proof (benign_conn_close b conn s) as H1.
  remember (conn_close b conn s) as s1 eqn:Hs1.
  eapply benign_trans; [exact H1|].
  apply benign_quiet; by repeat split || left.
Qed.

Lemma benign_handleMainDisconnect reason s :
  started s → benign s (handleMainDisconnect reason s).
Proof.
  intros Hs. apply benign_started; [|done].
  apply same_env_handleMainDisconnect.
Qed.

Lemma benign_conn_on_close isMain c s :
  (isMain = true → started s) → benign s (conn_on_close isMain c s).
Proof.
  intros Hs. unfold conn_on_close.
  destruct isMain; [|apply benign_quiet; by repeat split || left].
  repeat case_bool_decide;
    [by apply benign_handleMainDisconnect, Hs| |apply benign_refl].
  apply benign_quiet; by repeat split || left.
Qed.

Lemma benign_conn_on_error isMain c s :
  (isMain = true → started s) → benign s (conn_on_error isMain c s).
Proof.
  intros Hs. unfold conn_on_error.
  destruct isMain; [|apply benign_refl].
  case_bool_decide; [by apply benign_handleMainDisconnect, Hs|].
  apply benign_quiet; by repeat split || left.
Qed.

Lemma same_env_conn_send c frame s : same_env s (conn_send c frame s).
Proof. by repeat split. Qed.

Lemma benign_conn_send c frame s : benign s (conn_send c frame s).
Proof.
  apply benign_quiet; [by repeat split|by left|apply roles_conn_send].
Qed.

Lemma benign_conn_on_open isMain c s :
  (isMain = true → started s) → benign s (conn_on_open isMain c s).
Proof.
  intros Hs. unfold conn_on_open.
  destruct isMain.
  - apply benign_started; [|by apply Hs].
    pose proof (proj1 (benign_clearTimeout (connectionTimeoutRef s) s)) as He.
    remember (clearTimeout (connectionTimeoutRef s) s) as s1 eqn:Hs1.
    remember (track P_paired _) as s2 eqn:Hs2.
    assert (He2 : same_env s s2).
    { rewrite Hs2. eapply same_env_trans; [|apply same_env_track].
      eapply same_env_trans; [exact He|]. by repeat split. }
    destruct (userProfile s2); [|done].
    eapply same_env_trans; [exact He2|]. apply same_env_conn_send.
  - destruct (userProfile s); [apply benign_conn_send|apply benign_refl].
Qed.

Lemma benign_conn_on_data b isMain c payload now_ts now_id s :
  (isMain = true → started s) →
  benign s (conn_on_data b isMain c payload now_ts now_id s).
Proof.
  intros Hs. unfold conn_on_data.
  destruct (f_type payload).
  - destruct isMain; [|apply benign_quiet; by repeat split || left].
    remember (set_messages _ s) as s1 eqn:Hs1.
    assert (H1 : benign s s1)
      by (rewrite Hs1; apply benign_quiet; by repeat split || left).
    destruct (truthy (f_id payload)); [|done].
    eapply benign_trans; [exact H1|]. apply benign_conn_send.
  - repeat case_match; apply benign_quiet; by repeat split || left.
  - repeat case_match; apply benign_quiet; by repeat split || left.
  - destruct isMain; [|apply benign_refl].
    apply benign_started; [|by apply Hs].
    eapply same_env_trans; [apply (same_env_conn_close b c)|].
    apply same_env_handleMainDisconnect.
  - repeat case_match; apply benign_quiet; by repeat split || left.
  - apply benign_refl.
  - repeat case_match; apply benign_quiet; by repeat split || left.
  - repeat case_match; apply benign_quiet; by repeat split || left.
  - repeat case_match; apply benign_quiet; by repeat split || left.
  - apply benign_refl.
  - apply benign_refl.
  - repeat case_match; apply benign_quiet; by repeat split || left.
Qed.

Lemma benign_connect s : benign s (connect s).
Proof.
  unfold connect. destruct (truthy (renderedPeerId s)) eqn:Hid; simpl;
    [|apply benign_refl].
  apply benign_started; [|by do 4 right].
  remember (set_partnerProfile _ _) as s1 eqn:Hs1.
  eapply same_env_trans; [|apply same_env_track].
  rewrite Hs1. by repeat split.
Qed.

Lemma same_env_set_status v s : same_env s (set_status v s).
Proof. by repeat split. Qed.

Lemma roles_set_status v s : roles (set_status v s) = roles s.
Proof. reflexivity. Qed.

Lemma benign_send_if_open frame s : benign s (send_if_open frame s).
Proof.
  unfold send_if_open. destruct (main_open s); [|apply benign_refl].
  destruct (mainConnRef s); [apply benign_conn_send|apply benign_refl].
Qed.

Lemma benign_set_messages ms s : benign s (set_messages ms s).
Proof. apply benign_quiet; by repeat split || left. Qed.

Lemma benign_callPeer b peerId outcome s : benign s (callPeer b peerId outcome s).
Proof.
  unfold callPeer.
  destruct (match directConnsRef s !! peerId with
            | Some c => from_option conn_open false (conns s !! c)
            | None => false
            end); [apply benign_refl|].
  destruct (peerRef s); [|apply benign_refl].
  destruct outcome; [|apply benign_refl ..].
  pose proof (benign_new_conn peerId s) as H0.
  remember (set_conns (conns s ++ [mkConn peerId false false None []]) s)
    as s0 eqn:Hs0.
  eapply benign_trans; [exact H0|]. by apply benign_setupConnection.
Qed.

Lemma benign_checkOffline msgs s : benign s (checkOffline msgs s).
Proof.
  unfold checkOffline. destruct (last msgs); [|apply benign_refl].
  apply benign_quiet; by repeat split || left.
Qed.

Lemma has_primary_lookup s c cn :
  s.(conns) !! c = Some cn → cn.(conn_role) = Some Random → has_primary s.
Proof.
  intros Hc Hr. unfold has_primary, roles. rewrite <- Hr.
  apply list_elem_of_fmap. exists cn. split; [done|].
  by eapply list_elem_of_lookup_2.
Qed.

Lemma benign_send_unguarded c frame s : benign s (send_unguarded c frame s).
Proof.
  unfold send_unguarded.
  destruct (conns s !! c) as [cn|] eqn:Hc; [|apply benign_refl].
  destruct (conn_open cn); [apply benign_conn_send|].
  destruct (conn_role cn) as [md|] eqn:Hr; [|apply benign_refl].
  apply benign_conn_on_error. intros Hm. destruct md; [|done].
  right. right. left. by eapply has_primary_lookup.
Qed.

Lemma benign_signal_and_close b s :
  benign s (state_of (signal_and_close b s)).
Proof.
  unfold signal_and_close.
  destruct (mainConnRef s) as [c|]; [|apply benign_refl].
  pose proof (benign_send_unguarded c frame_disconnect s) as H.
  remember (send_unguarded c frame_disconnect s) as s1 eqn:Hs1. clear Hs1.
  destruct (mainConnRef s1) as [c'|]; simpl; [|exact H].
  eapply benign_trans; [exact H|]. apply benign_conn_close.
Qed.

Lemma disconnect_eq b s :
  disconnect b s
  = match signal_and_close b s with
    | Done s1 => set_status IDLE (handleMainDisconnect "local_network" s1)
    | Threw s1 => s1
    end.
Proof. reflexivity. Qed.

Lemma benign_disconnect b s : benign s (disconnect b s).
Proof.
  rewrite disconnect_eq.
  pose proof (benign_signal_and_close b s) as H.
  destruct (signal_and_close b s) as [s1|s1]; simpl in H; [|exact H].
  eapply benign_trans; [exact H|].
  pose proof (same_env_handleMainDisconnect "local_network" s1) as He2.
  pose proof (roles_handleMainDisconnect "local_network" s1) as Hr2.
  remember (handleMainDisconnect "local_network" s1) as s2 eqn:Hs2.
  clear Hs2.
  apply benign_quiet.
  - eapply same_env_trans; [exact He2|]. apply same_env_set_status.
  - right. reflexivity.
  - by rewrite roles_set_status, Hr2.
Qed.

Lemma lobby_inv_benign s s' : lobby_inv s → benign s s' → lobby_inv s'.
Proof.
  intros (I1 & I2 & I3 & I4 & I5) [He Hst].
  pose proof He as (E1 & E2 & E3 & E4 & E5 & E6).
  split; [|split; [|split; [|split]]].
  - rewrite E1, E2. exact I1.
  - rewrite E2, E3. exact I2.
  - intros Hs'. rewrite E3. apply I3. by eapply started_env.
  - rewrite E3, E6. exact I4.
  - rewrite E4, E5. exact I5.
Qed.

Lemma lobby_inv_render s : lobby_inv s → lobby_inv (render s).
Proof.
  intros (I1 & I2 & I3 & I4 & I5). unfold render. cbv zeta.
  assert (Hst : started (set_channelRef
                  (bool_decide (is_Some (userProfile s)) && truthy (myPeerId s))
                  (set_peerRef (peerRef s || bool_decide (is_Some (userProfile s)))
                     (set_statusRef (status s)
                        (set_renderedPeerId (myPeerId s)
                           (set_renderedOnlineUsers (onlineUsers s) s)))))
                → started s).
  { intros [H | [H | [H | [H | H]]]];
      [by left|right; by left|right; right; by left|by left|right; by left]. }
  split; [|split; [|split; [|split]]]; simpl.
  - intros [H | H]%orb_true_iff; [by apply I1|].
    by apply bool_decide_eq_true in H.
  - intros H. by rewrite (I2 H).
  - intros H. apply I3, Hst, H.
  - done.
  - intros H. assert (Hid : truthy (myPeerId s) = true)
      by (apply I3; by left).
    rewrite Hid, andb_true_r. apply bool_decide_eq_true.
    apply I1, I2, Hid.
Qed.

Lemma lobby_inv_peer_open id s :
  lobby_inv s → s.(peerRef) = true → truthy (Some id) = true →
  lobby_inv (set_myPeerId (Some id) s).
Proof.
  intros (I1 & I2 & I3 & I4 & I5) Hp Hid.
  split; [|split; [|split; [|split]]]; simpl; auto.
Qed.

Lemma lobby_inv_initial profile : lobby_inv (initial profile).
Proof.
  split; [|split; [|split; [|split]]]; simpl; try done.
  intros [H | [H | [H | [H | H]]]]; try done.
  unfold has_primary, roles in H. simpl in H.
  by apply not_elem_of_nil in H.
Qed.

Lemma lobby_inv_step b e s s' :
  lobby_inv s → step b e s = Some s' → lobby_inv s'.
Proof.
  intros Hinv Hstep.
  assert (Hb : ∀ s1 : State, Some s1 = Some s' → benign s s1 → lobby_inv s').
  { intros s1 [= <-] Hb. by eapply lobby_inv_benign. }
  destruct e; cbv beta iota zeta delta [step] in Hstep.
  - injection Hstep as <-. by apply lobby_inv_render.
  - destruct (peerRef s) eqn:Hp; [|done].
    destruct (truthy (Some id)) eqn:Hid; [|done].
    injection Hstep as <-. by apply lobby_inv_peer_open.
  - destruct (peerRef s); [|done]. eapply Hb; [done|].
    apply benign_peer_on_connection.
  - destruct (peerRef s); [|done]. eapply Hb; [done|].
    apply benign_peer_on_error.
  - destruct (channelRef s); [|done]. eapply Hb; [done|].
    apply benign_quiet; [apply same_env_track|by left; unfold track;
      destruct (channelRef s)|apply roles_track].
  - destruct (channelRef s); [|done]. eapply Hb; [done|].
    apply benign_quiet; by repeat split || left.
  - destruct (unit_draw r && bool_decide (statusRef s = SEARCHING)); [|done].
    eapply Hb; [done|]. apply benign_attemptMatch.
  - destruct (truthy (renderedPeerId s)); [|done]. eapply Hb; [done|].
    apply benign_checkOffline.
  - destruct (timers s !! t) as [[body [|]]|]; [|done|done].
    pose proof (benign_clearTimeout (Some t) s) as H1.
    remember (clearTimeout (Some t) s) as s1 eqn:Hs1.
    destruct body as [target|c p]; injection Hstep as <-;
      (eapply lobby_inv_benign; [exact Hinv|]);
      (eapply benign_trans; [exact H1|]).
    + apply benign_jitter_callback.
    + apply benign_timeout_callback.
  - destruct (conns s !! c) as [[p [|] [|] [md|] fs]|] eqn:Hc; try done.
    pose proof (has_primary_lookup s c _ Hc) as Hprim.
    assert (H1 : benign s (set_open c true s)).
    { apply benign_quiet; [by repeat split|by left|apply roles_set_open]. }
    remember (set_open c true s) as s1 eqn:Hs1.
    eapply Hb; [done|]. eapply benign_trans; [exact H1|].
    apply benign_conn_on_open. intros Hm.
    destruct md; [|done]. right. right. left.
    unfold has_primary. rewrite Hs1, roles_set_open. by apply Hprim.
  - destruct (conns s !! c) as [[p [|] cl [md|] fs]|] eqn:Hc; try done.
    pose proof (has_primary_lookup s c _ Hc) as Hprim.
    eapply Hb; [done|]. apply benign_conn_on_data. intros Hm.
    destruct md; [|done]. right. right. left. by apply Hprim.
  - destruct (conns s !! c) as [[p [|] cl [md|] fs]|] eqn:Hc; try done.
    pose proof (has_primary_lookup s c _ Hc) as Hprim.
    assert (H1 : benign s (set_open c false s)).
    { apply benign_quiet; [by repeat split|by left|apply roles_set_open]. }
    remember (set_open c false s) as s1 eqn:Hs1.
    eapply Hb; [done|]. eapply benign_trans; [exact H1|].
    apply benign_conn_on_close. intros Hm.
    destruct md; [|done]. right. right. left.
    unfold has_primary. rewrite Hs1, roles_set_open. by apply Hprim.
  - destruct (conns s !! c) as [[p o cl [md|] fs]|] eqn:Hc; try done.
    pose proof (has_primary_lookup s c _ Hc) as Hprim.
    eapply Hb; [done|]. apply benign_conn_on_error. intros Hm.
    destruct md; [|done]. right. right. left. by apply Hprim.
  - eapply Hb; [done|]. apply benign_connect.
  - eapply Hb; [done|]. apply benign_disconnect.
  - eapply Hb; [done|]. unfold sendMessage.
    eapply benign_trans; [apply benign_set_messages|apply benign_send_if_open].
  - eapply Hb; [done|]. unfold sendImage.
    eapply benign_trans; [apply benign_set_messages|apply benign_send_if_open].
  - eapply Hb; [done|]. unfold sendAudio.
    eapply benign_trans; [apply benign_set_messages|apply benign_send_if_open].
  - eapply Hb; [done|]. apply benign_callPeer.
Qed.

Lemma lobby_inv_run b es :
  ∀ s s', lobby_inv s → run b es s = Some s' → lobby_inv s'.
Proof.
  induction es as [|e es IH]; intros s s' Hinv Hrun; simpl in Hrun.
  - by injection Hrun as <-.
  - destruct (step b e s) as [s1|] eqn:Hstep; [|done].
    apply (IH s1 s'); [|done]. by eapply lobby_inv_step.
Qed.

(** In every state the hook reaches, the lobby channel exists whenever
    the rendered status is not Idle. *)
Lemma reachable_channel b s :
  reachable b s → s.(statusRef) ≠ IDLE → s.(channelRef) = true.
Proof.
  intros (profile & es & Hrun) Hsr.
  destruct (lobby_inv_run b es _ _ (lobby_inv_initial profile) Hrun)
    as (_ & _ & _ & I4).
  by apply I4.
Qed.

(** ** C2: the local hangup *)

(** C2 (amended). In every state the hook reaches, [disconnect()] on a
    Connected session leaves the status Idle: the shared teardown sets
    Disconnected and the last statement of [disconnect] overwrites it, so
    after the next commit the session is Idle.  The disconnect reason is
    ['local_network'], the conversation and the partner state are cleared,
    the primary reference is cleared, a ['disconnect'] frame is handed to
    the primary connection, which is then closed, and the last status
    published is ['idle']. *)
Theorem C2_disconnect_goes_idle :
  ∀ (b : bool) (s : State) (c : nat),
    reachable b s →
    connected_session s c →
    let s' := disconnect b s in
    s'.(status) = IDLE
    ∧ (render s').(statusRef) = IDLE
    ∧ s'.(disconnectReason) = Some "local_network"
    ∧ s'.(messages) = []
    ∧ s'.(partnerProfile) = None
    ∧ s'.(partnerPeerId) = None
    ∧ s'.(remoteVanishMode) = None
    ∧ s'.(mainConnRef) = None
    ∧ last s'.(tracked) = Some P_idle
    ∧ frames_to c s' = frames_to c s ++ [frame_disconnect]
    ∧ conn_closed <$> s'.(conns) !! c = Some true.
Proof.
  intros b s c Hreach (Hst & Hsr & Hmain & cn & Hc & Ho & Hr) s'.
  assert (Hch : s.(channelRef) = true).
  { apply (reachable_channel b); [done|]. by rewrite Hsr. }
  clear Hreach.
  remember (conn_send c frame_disconnect s) as s1 eqn:Hs1.
  assert (Hc1 : s1.(conns) !! c = Some (push_frame frame_disconnect cn)).
  { rewrite Hs1. unfold conn_send. simpl.
    by rewrite list_lookup_alter_eq, Hc. }
  assert (Hm1 : s1.(mainConnRef) = Some c) by (by rewrite Hs1).
  assert (Hch1 : s1.(channelRef) = true) by (by rewrite Hs1).
  remember (conn_close b c s1) as s2 eqn:Hs2.
  assert (Hconns2 : s2.(conns)
                    = <[c := closed_conn (push_frame frame_disconnect cn)]>
                        s1.(conns))
    by (rewrite Hs2; by apply conn_close_conns).
  assert (Hch2 : s2.(channelRef) = true)
    by (rewrite Hs2; by rewrite conn_close_channelRef).
  remember (handleMainDisconnect "local_network" s2) as s3 eqn:Hs3.
  assert (Hs' : s' = set_status IDLE s3).
  { assert (Hsu : send_unguarded c frame_disconnect s = s1).
    { unfold send_unguarded. by rewrite Hc, Ho, Hs1. }
    unfold s', disconnect, signal_and_close.
    rewrite Hmain, Hsu, Hm1, <- Hs2, <- Hs3. reflexivity. }
  destruct (handleMainDisconnect_spec "local_network" s2)
    as (H1&H2&H3&H4&H5&H6&H7&H8&H9&H10&H11&H12&H13).
  rewrite <- Hs3 in *. clearbody s'. subst s'. simpl.
  rewrite H2, H3, H4, H5, H6, H7, H9, Hch2, last_snoc.
  assert (Hlook : s3.(conns) !! c
                  = Some (closed_conn (push_frame frame_disconnect cn))).
  { rewrite H10, Hconns2.
    apply list_lookup_insert_eq. by eapply lookup_lt_Some. }
  unfold frames_to. simpl. rewrite Hlook, Hc.
  repeat split; reflexivity.
Qed.

Lemma C2_witness :
  (disconnect true st_connected).(status) = IDLE
  ∧ (disconnect true st_connected).(disconnectReason) = Some "local_network"
  ∧ (disconnect true st_connected).(messages) = [].
Proof.
  pose proof (C2_disconnect_goes_idle true st_connected 0
                st_connected_reachable st_connected_is_connected) as H.
  cbv zeta in H. destruct H as (H1 & _ & H3 & H4 & _).
  exact (conj H1 (conj H3 H4)).
Defined.

Lemma C2_counterexample :
  both (λ b, ¬ C2_as_stated b st_connected).
Proof.
  split; intros (Hstatus & _); vm_compute in Hstatus; discriminate.
Qed.

(** ** C3: the matchmaker and its cooldown set *)

(** A draw of [Math.random()] lies in [0, 1), so the index it gives is
    within the array. *)
Lemma random_index_in_range (r : Q) (n : nat) :
  (0 <= r)%Q → (r < 1)%Q → (0 < n)%nat → (random_index r n < n)%nat.
Proof.
  intros H0 H1 Hn. unfold random_index.
  set (N := Z.of_nat n).
  assert (HN : (0 < inject_Z N)%Q).
  { change 0%Q with (inject_Z 0). rewrite <- Zlt_Qlt. unfold N. lia. }
  assert (Hlo : (0 <= Qfloor (r * inject_Z N))%Z).
  { change 0%Z with (Qfloor 0). apply Qfloor_resp_le.
    apply Qmult_le_0_compat; [done|]. by apply Qlt_le_weak. }
  assert (Hhi : (Qfloor (r * inject_Z N) < N)%Z).
  { rewrite Zlt_Qlt.
    apply Qle_lt_trans with (r * inject_Z N)%Q; [apply Qfloor_le|].
    apply Qlt_le_trans with (1 * inject_Z N)%Q;
      [by apply Qmult_lt_compat_r|].
    rewrite Qmult_1_l. apply Qle_refl. }
  unfold N in *. lia.
Qed.

Lemma waiters_spec (s : State) (u : PresenceState) :
  u ∈ waiters s ↔
    u ∈ s.(renderedOnlineUsers)
    ∧ u.(ps_status) = P_waiting
    ∧ Some u.(ps_peerId) ≠ s.(renderedPeerId)
    ∧ u.(ps_peerId) ∉ s.(failedPeersRef).
Proof.
  unfold waiters, is_waiter.
  rewrite !list_elem_of_In, filter_In, !andb_true_iff, negb_true_iff.
  rewrite !bool_decide_eq_true, bool_decide_eq_false. tauto.
Qed.

(** Whenever [attemptMatch] schedules the jitter callback for a target,
    that target is a record of the rendered snapshot with status
    ['waiting'] whose peer id is neither the rendered local one nor in the
    cooldown set, and the in-flight guard is set. *)
Lemma attemptMatch_picks_waiter (r : Q) (s : State) (t : PresenceState) :
  (attemptMatch r s).(timers)
    = s.(timers) ++ [mkTimer (JitterDial (Some t)) true] →
  t ∈ s.(renderedOnlineUsers)
  ∧ t.(ps_status) = P_waiting
  ∧ Some t.(ps_peerId) ≠ s.(renderedPeerId)
  ∧ (t.(ps_peerId) ∉ s.(failedPeersRef))
  ∧ (attemptMatch r s).(isMatchmakerRef) = true.
Proof.
  unfold attemptMatch.
  assert (Hself : ∀ x : Timer, s.(timers) ≠ s.(timers) ++ [x]).
  { intros x Hx. apply (f_equal length) in Hx.
    rewrite length_app in Hx. simpl in Hx. lia. }
  destruct (negb (truthy (renderedPeerId s)) || isMatchmakerRef s
            || bool_decide (is_Some (mainConnRef s))
            || bool_decide (statusRef s ≠ SEARCHING)).
  { intros Hx. by apply Hself in Hx. }
  destruct (bool_decide (0 < length (waiters s))%nat).
  2:{ intros Hx. by apply Hself in Hx. }
  simpl. intros Hx. apply app_inj_tail in Hx as [_ Hx].
  injection Hx as Hx. apply list_elem_of_lookup_2 in Hx.
  apply waiters_spec in Hx. tauto.
Qed.

(** With a draw in [0, 1) and a non-empty filtered set a target is
    chosen. *)
Lemma attemptMatch_picks_some (r : Q) (s : State) :
  (0 <= r)%Q → (r < 1)%Q → waiters s ≠ [] →
  is_Some (waiters s !! random_index r (length (waiters s))).
Proof.
  intros H0 H1 Hne. apply lookup_lt_is_Some.
  apply random_index_in_range; [done|done|].
  destruct (waiters s); [done|simpl; lia].
Qed.

(** The jitter callback dials its captured target whenever the status is
    still Searching, no primary connection reference exists and the Peer
    is there; it does not look at the cooldown set. *)
Lemma jitter_callback_dials (b : bool) (t : PresenceState)
    (outcome : DialOutcome) (s : State) :
  s.(statusRef) = SEARCHING → s.(mainConnRef) = None → s.(peerRef) = true →
  (jitter_callback b (Some t) outcome s).(dialed)
  = s.(dialed) ++ [t.(ps_peerId)]
  ∧ (jitter_callback b (Some t) outcome s).(failedPeersRef)
    = s.(failedPeersRef).
Proof.
  intros Hsr Hmain Hpeer. unfold jitter_callback.
  rewrite Hsr, Hmain, Hpeer. simpl.
  destruct outcome; [|by simpl|by simpl].
  rewrite setupConnection_primary_free by done.
  match goal with
  | |- context [clearTimeout ?t ?s1] =>
      destruct (clearTimeout_fields t s1) as (Hd & Hf & _);
      remember (clearTimeout t s1) as s2 eqn:Hs2
  end.
  simpl in *. by rewrite Hd, Hf.
Qed.

(** C3 (the code at the failing input). After [to_race] the peer T is in
    the cooldown set and the jitter callback scheduled before is still
    pending; when it runs it dials T, and T is still in the cooldown
    set. *)
Theorem C3_dials_peer_in_cooldown :
  both (λ b,
    ∃ s s',
      run b to_race (initial (Some alice)) = Some s
      ∧ "T" ∈ s.(failedPeersRef)
      ∧ step b (TimerFires 2 DialConn) s = Some s'
      ∧ s'.(dialed) = s.(dialed) ++ ["T"]
      ∧ "T" ∈ s'.(failedPeersRef)).
Proof.
  split; eexists; eexists;
    (split; [vm_compute; reflexivity|]);
    (split; [apply (bool_decide_unpack _); vm_compute; exact I|]);
    (split; [vm_compute; reflexivity|]);
    (split; [vm_compute; reflexivity|]);
    apply (bool_decide_unpack _); vm_compute; exact I.
Qed.

(** ** C4, C10: inbound message frames on the primary connection *)

(** C4 (amended). An inbound ['message'] frame with a non-empty id,
    received on an open connection set up as primary, is delivered: a
    message with exactly that id is appended to the conversation, and a
    ['seen'] frame whose [messageId] is that id is handed to the same
    connection in the same turn; no other connection is touched. *)
Theorem C4_id_round_trip_nonempty :
  ∀ (b : bool) (s : State) (c : nat) (cn : DataConnection)
    (payload : PeerData) (i : string) (now_ts now_id : Z),
    s.(conns) !! c = Some cn →
    cn.(conn_open) = true →
    cn.(conn_role) = Some Random →
    payload.(f_type) = F_message →
    payload.(f_id) = Some i →
    i ≠ "" →
    ∃ s', step b (ConnData c payload now_ts now_id) s = Some s'
      ∧ (∃ m, s'.(messages) = s.(messages) ++ [m]
              ∧ m.(m_id) = i ∧ m.(m_sender) = Stranger)
      ∧ frames_to c s' = frames_to c s ++ [frame_seen i]
      ∧ ∀ c', c' ≠ c → s'.(conns) !! c' = s.(conns) !! c'.
Proof.
  intros b s c cn payload i now_ts now_id Hc Ho Hr Ht Hid Hne.
  eexists. split; [by apply (step_ConnData b c cn Random)|].
  change (is_random Random) with true.
  rewrite conn_on_data_message_main by done.
  assert (Htr : truthy payload.(f_id) = true).
  { rewrite Hid. simpl. by apply bool_decide_eq_true. }
  cbv zeta. rewrite Htr, Hid. simpl default.
  split; [|split].
  - eexists. split; [reflexivity|]. split; [|reflexivity].
    unfold received_message. simpl. by rewrite Htr, Hid.
  - by rewrite (frames_to_conn_send c _ _ cn).
  - intros c' Hne'. unfold conn_send. simpl.
    by rewrite list_lookup_alter_ne.
Qed.

Lemma C4_witness :
  ∃ s', step true (ConnData 0 (inbound (Some "17")) 7 8) st_connected = Some s'
    ∧ (m_id <$> last s'.(messages)) = Some "17"
    ∧ last (frames_to 0 s') = Some (frame_seen "17").
Proof.
  assert (Hc : st_connected.(conns) !! 0%nat
               = Some (mkConn "bob" true false (Some Random)
                              [frame_profile alice]))
    by (vm_compute; reflexivity).
  assert (Hne : "17" ≠ "") by discriminate.
  destruct (C4_id_round_trip_nonempty true st_connected 0 _
              (inbound (Some "17")) "17" 7 8 Hc eq_refl eq_refl eq_refl
              eq_refl Hne)
    as (s' & Hstep & (m & Hm & Hid & _) & Hseen & _).
  exists s'. split; [exact Hstep|]. split.
  - rewrite Hm, last_snoc. simpl. by rewrite Hid.
  - rewrite Hseen. apply last_snoc.
Defined.

(** A frame whose id is the empty string: the id is falsy, so the message
    gets the receive-time id and nothing is acknowledged. *)
Lemma C4_counterexample :
  both (λ b, ¬ C4_as_stated b st_connected 0 (inbound (Some "")) 7 8).
Proof.
  split; intros H;
    destruct (H "" eq_refl eq_refl) as (s' & Hstep & (m & Hm & Hid) & _);
    vm_compute in Hstep; injection Hstep as <-;
    vm_compute in Hm; injection Hm as <-; discriminate.
Qed.

(** C10. An inbound ['message'] frame without an id (absent, or empty and
    therefore falsy) received on an open connection set up as primary is
    still delivered: one message is appended to the conversation, with the
    id made from the clock at receive time, from ['stranger'], stamped
    with the receive time, and carrying what the frame carried: its
    payload as text for a text frame and as file data otherwise, its data
    type (text when it names none), reply, expiry and vanish flag.
    Nothing else of the state changes; in particular no frame, so no
    ['seen'] acknowledgment, is handed to any connection. *)
Theorem C10_message_without_id :
  ∀ (b : bool) (s : State) (c : nat) (cn : DataConnection)
    (payload : PeerData) (now_ts now_id : Z),
    s.(conns) !! c = Some cn →
    cn.(conn_open) = true →
    cn.(conn_role) = Some Random →
    payload.(f_type) = F_message →
    truthy payload.(f_id) = false →
    ∃ s', step b (ConnData c payload now_ts now_id) s = Some s'
      ∧ (∃ m, s'.(messages) = s.(messages) ++ [m]
              ∧ m.(m_id) = toString now_id
              ∧ m.(m_sender) = Stranger
              ∧ m.(m_timestamp) = now_ts
              ∧ (payload.(f_dataType) = Some MsgText →
                 m.(m_text) = payload.(f_payload)
                 ∧ m.(m_fileData) = PUndefined)
              ∧ (payload.(f_dataType) ≠ Some MsgText →
                 m.(m_text) = PUndefined
                 ∧ m.(m_fileData) = payload.(f_payload))
              ∧ m.(m_type) = default MsgText payload.(f_dataType)
              ∧ m.(m_replyTo) = payload.(f_replyTo)
              ∧ m.(m_isVanish) = payload.(f_isVanish)
              ∧ m.(m_expiryDuration) = payload.(f_expiryDuration)
              ∧ (∀ d, payload.(f_expiryDuration) = Some d → d ≠ 0 →
                      m.(m_expiresAt) = Some (now_ts + d))
              ∧ (payload.(f_expiryDuration) = None
                 ∨ payload.(f_expiryDuration) = Some 0 →
                 m.(m_expiresAt) = None)
              ∧ m.(m_senderPeerId) = Some cn.(conn_peer)
              ∧ m.(m_senderProfile) = None
              ∧ m.(m_reactions) = []
              ∧ m.(m_isEdited) = None
              ∧ m.(m_status) = None
              ∧ s' = set_messages (s.(messages) ++ [m]) s)
      ∧ s'.(conns) = s.(conns).
Proof.
  intros b s c cn payload now_ts now_id Hc Ho Hr Ht Hid.
  eexists. split; [by apply (step_ConnData b c cn Random)|].
  change (is_random Random) with true.
  rewrite conn_on_data_message_main by done.
  cbv zeta. rewrite Hid. split; [|reflexivity].
  eexists. split; [reflexivity|].
  unfold received_message. cbn -[toString]. rewrite Hid.
  unfold peer_of. rewrite Hc. cbn [from_option].
  repeat split; try reflexivity.
  - by rewrite bool_decide_eq_true_2.
  - by rewrite bool_decide_eq_true_2.
  - by rewrite bool_decide_eq_false_2.
  - by rewrite bool_decide_eq_false_2.
  - intros d -> Hd. unfold expires. by rewrite bool_decide_eq_false_2.
  - intros [-> | ->]; reflexivity.
Qed.

Lemma C10_witness :
  ∃ s', step true (ConnData 0 (inbound None) 7 8) st_connected = Some s'
    ∧ (m_id <$> last s'.(messages)) = Some "8"
    ∧ (m_text <$> last s'.(messages)) = Some (PStr "hi")
    ∧ s'.(conns) = st_connected.(conns).
Proof.
  assert (Hc : st_connected.(conns) !! 0%nat
               = Some (mkConn "bob" true false (Some Random)
                              [frame_profile alice]))
    by (vm_compute; reflexivity).
  destruct (C10_message_without_id true st_connected 0 _ (inbound None) 7 8
              Hc eq_refl eq_refl eq_refl eq_refl)
    as (s' & Hstep & (m & Hm & Hid & _ & _ & Htx & _) & Hconns).
  exists s'. split; [exact Hstep|].
  destruct (Htx eq_refl) as [Htext _].
  split; [|split; [|exact Hconns]]; rewrite Hm, last_snoc; simpl.
  - by rewrite Hid.
  - by rewrite Htext.
Defined.

(** ** C5: the dial timeout and the cooldown set *)

Lemma track_failedPeersRef st s :
  (track st s).(failedPeersRef) = s.(failedPeersRef).
Proof. unfold track. by destruct (channelRef s). Qed.

Lemma handleMainDisconnect_failedPeersRef reason s :
  (handleMainDisconnect reason s).(failedPeersRef) = s.(failedPeersRef).
Proof. apply handleMainDisconnect_spec. Qed.

Lemma conn_on_error_failedPeersRef isMain c s :
  (conn_on_error isMain c s).(failedPeersRef) = s.(failedPeersRef).
Proof.
  unfold conn_on_error. destruct isMain; [|reflexivity].
  case_bool_decide; [|reflexivity].
  apply handleMainDisconnect_failedPeersRef.
Qed.

Lemma setupConnection_failedPeersRef b c md s :
  (setupConnection b c md s).(failedPeersRef) = s.(failedPeersRef).
Proof.
  unfold setupConnection. destruct (is_random md); [|reflexivity].
  destruct (mainConnRef s); [|reflexivity].
  apply conn_close_failedPeersRef.
Qed.

Lemma peer_on_connection_failedPeersRef b remote meta s :
  (peer_on_connection b remote meta s).(failedPeersRef) = s.(failedPeersRef).
Proof.
  unfold peer_on_connection.
  remember (set_conns (conns s ++ [mkConn remote false false None []]) s)
    as s0 eqn:Hs0.
  assert (H0 : s0.(failedPeersRef) = s.(failedPeersRef)) by (by rewrite Hs0).
  destruct meta as [[|]|]; [| |done].
  - repeat case_match;
      by rewrite ?conn_close_failedPeersRef, ?setupConnection_failedPeersRef.
  - by rewrite setupConnection_failedPeersRef.
Qed.

Lemma peer_on_error_failedPeersRef unavailable s :
  (peer_on_error unavailable s).(failedPeersRef) = s.(failedPeersRef).
Proof. unfold peer_on_error. repeat case_match; reflexivity. Qed.

Lemma conn_on_open_direct_failedPeersRef c s :
  (conn_on_open false c s).(failedPeersRef) = s.(failedPeersRef).
Proof. unfold conn_on_open. by destruct (userProfile s). Qed.

Lemma conn_on_open_primary_failedPeersRef c s :
  (conn_on_open true c s).(failedPeersRef) = ∅.
Proof.
  unfold conn_on_open, track, conn_send. repeat case_match; reflexivity.
Qed.

Lemma conn_on_data_failedPeersRef b isMain c payload now_ts now_id s :
  (conn_on_data b isMain c payload now_ts now_id s).(failedPeersRef)
  = s.(failedPeersRef).
Proof.
  unfold conn_on_data.
  destruct (f_type payload); try (repeat case_match; reflexivity).
  destruct isMain; [|reflexivity].
  by rewrite handleMainDisconnect_failedPeersRef, conn_close_failedPeersRef.
Qed.

Lemma jitter_callback_failedPeersRef b target outcome s :
  (jitter_callback b target outcome s).(failedPeersRef) = s.(failedPeersRef).
Proof.
  unfold jitter_callback.
  destruct (bool_decide (statusRef s ≠ SEARCHING)
            || bool_decide (is_Some (mainConnRef s))); [reflexivity|].
  destruct target as [t|]; [|reflexivity].
  destruct (peerRef s); [|reflexivity].
  destruct outcome; [|reflexivity|reflexivity].
  remember (setupConnection b _ Random _) as s1 eqn:Hs1.
  assert (H1 : s1.(failedPeersRef) = s.(failedPeersRef))
    by (by rewrite Hs1, setupConnection_failedPeersRef).
  destruct (clearTimeout_fields (connectionTimeoutRef s1) s1) as (_ & Hf & _).
  remember (clearTimeout (connectionTimeoutRef s1) s1) as s2 eqn:Hs2.
  simpl. by rewrite Hf.
Qed.

Lemma timeout_callback_failedPeersRef b conn target s :
  s.(failedPeersRef) ⊆ (timeout_callback b conn target s).(failedPeersRef).
Proof.
  unfold timeout_callback.
  destruct (bool_decide (statusRef s = SEARCHING) && negb (main_open s));
    [|done].
  simpl. rewrite conn_close_failedPeersRef. apply union_subseteq_r.
Qed.

Lemma connect_failedPeersRef s :
  (connect s).(failedPeersRef) = s.(failedPeersRef).
Proof.
  unfold connect. destruct (negb (truthy (renderedPeerId s))); [reflexivity|].
  by rewrite track_failedPeersRef.
Qed.

Lemma set_status_failedPeersRef v s :
  (set_status v s).(failedPeersRef) = s.(failedPeersRef).
Proof. reflexivity. Qed.

Lemma send_unguarded_failedPeersRef c frame s :
  (send_unguarded c frame s).(failedPeersRef) = s.(failedPeersRef).
Proof.
  unfold send_unguarded.
  destruct (conns s !! c) as [cn|]; [|reflexivity].
  destruct (conn_open cn); [reflexivity|].
  destruct (conn_role cn); [|reflexivity].
  apply conn_on_error_failedPeersRef.
Qed.

Lemma disconnect_failedPeersRef b s :
  (disconnect b s).(failedPeersRef) = s.(failedPeersRef).
Proof.
  unfold disconnect, signal_and_close.
  destruct (mainConnRef s) as [c|].
  - pose proof (send_unguarded_failedPeersRef c frame_disconnect s) as H.
    remember (send_unguarded c frame_disconnect s) as s1 eqn:Hs1. clear Hs1.
    destruct (mainConnRef s1); [|exact H]. cbv zeta.
    by rewrite set_status_failedPeersRef, handleMainDisconnect_failedPeersRef,
      conn_close_failedPeersRef.
  - cbv zeta.
    by rewrite set_status_failedPeersRef, handleMainDisconnect_failedPeersRef.
Qed.

Lemma send_if_open_failedPeersRef frame s :
  (send_if_open frame s).(failedPeersRef) = s.(failedPeersRef).
Proof. unfold send_if_open. repeat case_match; reflexivity. Qed.

Lemma callPeer_failedPeersRef b peerId outcome s :
  (callPeer b peerId outcome s).(failedPeersRef) = s.(failedPeersRef).
Proof.
  unfold callPeer. repeat case_match; try reflexivity;
    by rewrite setupConnection_failedPeersRef.
Qed.

(** No turn of the event loop removes a peer from the cooldown set, except
    the opening of a connection set up as primary, which empties it. *)
Lemma step_cooldown (b : bool) (e : Event) (s s' : State) :
  step b e s = Some s' →
  s.(failedPeersRef) ⊆ s'.(failedPeersRef)
  ∨ (∃ c cn, e = ConnOpen c ∧ s.(conns) !! c = Some cn
             ∧ cn.(conn_role) = Some Random ∧ s'.(failedPeersRef) = ∅).
Proof.
  intros Hstep.
  assert (Heq : ∀ s1 : State, Some s1 = Some s' →
            s1.(failedPeersRef) = s.(failedPeersRef) →
            s.(failedPeersRef) ⊆ s'.(failedPeersRef)).
  { intros s1 [= <-] ->. done. }
  destruct e; cbv beta iota zeta delta [step] in Hstep.
  - left. by eapply Heq.
  - left. destruct (peerRef s && truthy (Some id)); [|done]. by eapply Heq.
  - left. destruct (peerRef s); [|done]. eapply Heq; [done|].
    apply peer_on_connection_failedPeersRef.
  - left. destruct (peerRef s); [|done]. eapply Heq; [done|].
    apply peer_on_error_failedPeersRef.
  - left. destruct (channelRef s); [|done]. eapply Heq; [done|].
    apply track_failedPeersRef.
  - left. destruct (channelRef s); [|done]. by eapply Heq.
  - left. destruct (unit_draw r && bool_decide (statusRef s = SEARCHING));
      [|done].
    eapply Heq; [done|]. apply attemptMatch_failedPeersRef.
  - left. destruct (truthy (renderedPeerId s)); [|done]. eapply Heq; [done|].
    apply checkOffline_failedPeersRef.
  - left. destruct (timers s !! t) as [[body [|]]|]; [|done|done].
    remember (clearTimeout (Some t) s) as s1 eqn:Hs1.
    assert (Hf : s1.(failedPeersRef) = s.(failedPeersRef))
      by (rewrite Hs1; apply clearTimeout_fields).
    destruct body as [target|c p]; injection Hstep as <-.
    + by rewrite jitter_callback_failedPeersRef, Hf.
    + rewrite <- Hf. apply timeout_callback_failedPeersRef.
  - destruct (conns s !! c) as [[p [|] [|] [md|] fs]|] eqn:Hc; try done.
    injection Hstep as <-. destruct md.
    + right. exists c, (mkConn p false false (Some Random) fs).
      repeat split; [done|].
      apply conn_on_open_primary_failedPeersRef.
    + left. by rewrite conn_on_open_direct_failedPeersRef.
  - left. destruct (conns s !! c) as [[p [|] cl [md|] fs]|]; try done.
    eapply Heq; [done|]. by rewrite conn_on_data_failedPeersRef.
  - left. destruct (conns s !! c) as [[p [|] cl [md|] fs]|]; try done.
    eapply Heq; [done|]. by rewrite conn_on_close_failedPeersRef.
  - left. destruct (conns s !! c) as [[p o cl [md|] fs]|]; try done.
    eapply Heq; [done|]. by rewrite conn_on_error_failedPeersRef.
  - left. eapply Heq; [done|]. apply connect_failedPeersRef.
  - left. eapply Heq; [done|]. apply disconnect_failedPeersRef.
  - left. eapply Heq; [done|]. unfold sendMessage.
    by rewrite send_if_open_failedPeersRef.
  - left. eapply Heq; [done|]. unfold sendImage.
    by rewrite send_if_open_failedPeersRef.
  - left. eapply Heq; [done|]. unfold sendAudio.
    by rewrite send_if_open_failedPeersRef.
  - left. eapply Heq; [done|]. apply callPeer_failedPeersRef.
Qed.

Lemma run_cooldown (b : bool) (es : list Event) :
  ∀ s s', run b es s = Some s' → (∀ c, ConnOpen c ∉ es) →
    s.(failedPeersRef) ⊆ s'.(failedPeersRef).
Proof.
  induction es as [|e es IH]; intros s s' Hrun Hno; simpl in Hrun.
  - by injection Hrun as <-.
  - destruct (step b e s) as [s1|] eqn:Hstep; [|done].
    assert (Hes : ∀ c, ConnOpen c ∉ es).
    { intros c Hin. apply (Hno c). by right. }
    etrans; [|by apply (IH s1 s')].
    destruct (step_cooldown b e s s1 Hstep)
      as [Hsub | (c & _ & -> & _)]; [done|].
    exfalso. apply (Hno c). by left.
Qed.

(** C5 (amended). When the 5 s callback of a dial runs while the status is
    still Searching and no open primary connection exists, the dialled
    connection is closed, the dialled candidate is added to the cooldown
    set, the primary connection reference is cleared and the in-flight
    guard is cleared; in any other state the callback changes nothing.
    The cooldown set is emptied whenever a primary connection opens.  It
    is not emptied periodically: the interval callbacks (matchmaking poll,
    offline poll) never change it, and no other turn of the event loop
    removes a peer from it. *)
Theorem C5_timeout_and_cooldown :
  ∀ (b : bool) (s : State) (conn : nat) (target : string) (c : nat) (r : Q)
    (msgs : list DirectMessageEvent),
    (s.(statusRef) = SEARCHING → main_open s = false →
       let s' := timeout_callback b conn target s in
       (∀ cn, s.(conns) !! conn = Some cn →
              s'.(conns) !! conn = Some (closed_conn cn))
       ∧ target ∈ s'.(failedPeersRef)
       ∧ s'.(mainConnRef) = None
       ∧ s'.(isMatchmakerRef) = false)
    ∧ (s.(statusRef) ≠ SEARCHING ∨ main_open s = true →
         timeout_callback b conn target s = s)
    ∧ (conn_on_open true c s).(failedPeersRef) = ∅
    ∧ (attemptMatch r s).(failedPeersRef) = s.(failedPeersRef)
    ∧ (checkOffline msgs s).(failedPeersRef) = s.(failedPeersRef)
    ∧ (∀ e s', step b e s = Some s' →
         s.(failedPeersRef) ⊆ s'.(failedPeersRef)
         ∨ (∃ c' cn, e = ConnOpen c' ∧ s.(conns) !! c' = Some cn
                     ∧ cn.(conn_role) = Some Random
                     ∧ s'.(failedPeersRef) = ∅)).
Proof.
  intros b s conn target c r msgs.
  split; [|split; [|split; [|split; [|split]]]].
  - intros Hsr Hmo s'. subst s'. unfold timeout_callback.
    rewrite Hsr, Hmo. simpl.
    split; [|split; [|done]].
    + intros cn Hcn. rewrite (conn_close_conns b conn cn s Hcn).
      apply list_lookup_insert_eq. by eapply lookup_lt_Some.
    + by apply elem_of_union_l, elem_of_singleton.
  - intros Hg. unfold timeout_callback.
    destruct Hg as [Hne | ->].
    + by rewrite bool_decide_eq_false_2.
    + by rewrite andb_false_r.
  - apply conn_on_open_primary_failedPeersRef.
  - apply attemptMatch_failedPeersRef.
  - apply checkOffline_failedPeersRef.
  - intros e s'. apply step_cooldown.
Qed.

Lemma C5_witness :
  "T" ∈ (timeout_callback true 0 "T" st_dialing).(failedPeersRef)
  ∧ (timeout_callback true 0 "T" st_dialing).(mainConnRef) = None
  ∧ (timeout_callback true 0 "T" st_dialing).(isMatchmakerRef) = false.
Proof.
  pose proof (C5_timeout_and_cooldown true st_dialing 0 "T" 0 0 []) as H.
  destruct H as (Hfire & _).
  destruct st_dialing_pending as (Hsr & Hmo & _).
  destruct (Hfire Hsr Hmo) as (_ & Hin & Hmain & Hguard).
  exact (conj Hin (conj Hmain Hguard)).
Defined.

(** No run of the interval callbacks empties the cooldown set. *)
Lemma C5_counterexample :
  both (λ b, ¬ C5_periodic_as_stated b st_cooldown).
Proof.
  split; intros (es & s' & Hp & Hrun & Hempty);
    rewrite (periodic_keeps_cooldown _ es _ _ Hp Hrun) in Hempty;
    pose proof (proj1 st_cooldown_holds_T) as Hin;
    rewrite Hempty in Hin; by apply not_elem_of_empty in Hin.
Qed.

(** ** C6: the random pick *)









(** ** C7: message ids in a conversation *)

(** C7 (amended). Neither a local send nor the delivery of an inbound
    ['message'] frame on the primary connection looks at the ids already
    in the conversation: each appends its message after the unchanged
    earlier ones, so the ids are unique afterwards exactly when they were
    unique before and the new id is not among them. *)
Theorem C7_append_without_id_check :
  ∀ (b : bool) (s : State) (c : nat) (payload : PeerData) (tx : string)
    (replyTo : option ReplyInfo) (expiryDuration : option Z)
    (isVanish : option bool) (now_id now_exp now_ts : Z),
    let appends (s' : State) :=
      ∃ m, s'.(messages) = s.(messages) ++ [m]
           ∧ (NoDup (m_id <$> s'.(messages))
              ↔ NoDup (m_id <$> s.(messages))
                ∧ m.(m_id) ∉ (m_id <$> s.(messages))) in
    appends (sendMessage tx replyTo isVanish now_id now_ts s)
    ∧ appends (sendImage tx expiryDuration isVanish now_id now_exp now_ts s)
    ∧ appends (sendAudio tx isVanish now_id now_ts s)
    ∧ (payload.(f_type) = F_message →
       appends (conn_on_data b true c payload now_ts now_id s)).
Proof.
  intros. subst appends. cbv beta.
  assert (Hmsgs : ∀ frame s1, (send_if_open frame s1).(messages) = s1.(messages)).
  { intros frame s1. unfold send_if_open, conn_send.
    repeat case_match; reflexivity. }
  assert (Hsnoc : ∀ (s' : State) m, s'.(messages) = s.(messages) ++ [m] →
            ∃ m, s'.(messages) = s.(messages) ++ [m]
                 ∧ (NoDup (m_id <$> s'.(messages))
                    ↔ NoDup (m_id <$> s.(messages))
                      ∧ m.(m_id) ∉ (m_id <$> s.(messages)))).
  { intros s' m Hm. exists m. split; [done|]. rewrite Hm.
    apply NoDup_ids_snoc. }
  split; [|split; [|split]].
  - eapply Hsnoc. unfold sendMessage. rewrite Hmsgs. reflexivity.
  - eapply Hsnoc. unfold sendImage. rewrite Hmsgs. reflexivity.
  - eapply Hsnoc. unfold sendAudio. rewrite Hmsgs. reflexivity.
  - intros Ht. eapply Hsnoc.
    rewrite conn_on_data_message_main by done. cbv zeta.
    destruct (truthy (f_id payload)); reflexivity.
Qed.

Lemma C7_witness :
  ∃ m, (conn_on_data true true 0 (inbound (Some "5")) 6 6
          st_connected).(messages)
       = st_connected.(messages) ++ [m].
Proof.
  pose proof (C7_append_without_id_check true st_connected 0
                (inbound (Some "5")) "" None None None 6 0 6) as H.
  cbv zeta beta in H. destruct H as (_ & _ & _ & Hin).
  destruct (Hin eq_refl) as (m & Hm & _).
  exists m. exact Hm.
Defined.

(** A local send at clock reading 5 followed by the delivery of a frame
    whose sender made its id from the same reading of its own clock. *)
Lemma C7_counterexample :
  both (λ b,
    ∃ s1 s2,
      run b [SendMessage "hello" None None 5 5] st_connected = Some s1
      ∧ step b (ConnData 0 (inbound (Some "5")) 6 6) s1 = Some s2
      ∧ ¬ C7_as_stated s1.(messages) s2.(messages)).
Proof.
  split; eexists; eexists;
    (split; [vm_compute; reflexivity|]);
    (split; [vm_compute; reflexivity|]);
    intros H; vm_compute in H;
    assert (Hnd : NoDup ["5"]) by apply NoDup_singleton;
    apply H in Hnd; apply NoDup_cons in Hnd as [Hin _];
    apply Hin; by left.
Qed.

(** ** C8: the direct-connection map *)

(** C8 (amended). Each key of the direct-connection map appears once.
    [setupConnection] enters a secondary connection under its peer id as
    soon as it is set up, without looking at or changing its [open] flag,
    so an entry can hold a connection that has not opened; the entries of
    other peers stay as they were.  The ['close'] listener of a secondary
    connection removes the map entry and the cached profile kept under its
    peer id and leaves those of other peers. *)
Theorem C8_direct_map_entries :
  ∀ (b : bool) (s : State) (c : nat),
    NoDup ((map_to_list s.(directConnsRef)).*1)
    ∧ (let s' := setupConnection b c Direct s in
       s'.(directConnsRef) !! peer_of c s = Some c
       ∧ peer_of c s ∈ s'.(activeDirectConnections)
       ∧ (conn_open <$> s'.(conns) !! c) = (conn_open <$> s.(conns) !! c)
       ∧ ∀ k, k ≠ peer_of c s →
           s'.(directConnsRef) !! k = s.(directConnsRef) !! k)
    ∧ (let s' := conn_on_close false c s in
       s'.(directConnsRef) !! peer_of c s = None
       ∧ s'.(directPeerProfilesRef) !! peer_of c s = None
       ∧ (peer_of c s ∉ s'.(activeDirectConnections))
       ∧ ∀ k, k ≠ peer_of c s →
           s'.(directConnsRef) !! k = s.(directConnsRef) !! k
           ∧ s'.(directPeerProfilesRef) !! k = s.(directPeerProfilesRef) !! k).
Proof.
  intros b s c. split; [apply NoDup_fst_map_to_list|]. split.
  - unfold setupConnection. simpl.
    split; [apply lookup_insert_eq|].
    split; [by apply elem_of_union_l, elem_of_singleton|].
    split.
    + rewrite list_lookup_alter_eq. by destruct (conns s !! c).
    + intros k Hk. by apply lookup_insert_ne.
  - unfold conn_on_close. simpl.
    split; [apply lookup_delete_eq|].
    split; [apply lookup_delete_eq|].
    split; [apply not_elem_of_difference; right; by apply elem_of_singleton|].
    intros k Hk. split; by apply lookup_delete_ne.
Qed.

(** Calling a peer enters the new connection into the map before its
    transport has opened. *)
Lemma C8_counterexample :
  both (λ b,
    ∃ s, run b [CallPeer "dave" DialConn] st_connected = Some s
         ∧ ¬ C8_as_stated s).
Proof.
  split; eexists; (split; [vm_compute; reflexivity|]);
    intros H; specialize (H "dave" 1%nat);
    vm_compute in H; specialize (H eq_refl); discriminate.
Qed.

(** ** C9: local sends *)

(** C9. Every call of [sendMessage], [sendImage] or [sendAudio] appends the
    new message, with sender [Me] and delivery status [Sent], to the local
    conversation whatever the state of the primary connection; the wire
    frame is handed to the primary connection when it exists and is open,
    and otherwise no frame is handed to any connection. *)
Theorem C9_local_send_always_appends :
  ∀ (s : State) (tx : string) (replyTo : option ReplyInfo)
    (expiryDuration : option Z) (isVanish : option bool)
    (now_id now_exp now_ts : Z),
    (∃ m, (sendMessage tx replyTo isVanish now_id now_ts s).(messages)
            = s.(messages) ++ [m]
          ∧ m.(m_sender) = Me ∧ m.(m_status) = Some Sent
          ∧ m.(m_id) = toString now_id
          ∧ transmits_iff_open
              (frame_message tx MsgText (Some m.(m_id)) replyTo None isVanish)
              s (sendMessage tx replyTo isVanish now_id now_ts s))
    ∧ (∃ m, (sendImage tx expiryDuration isVanish now_id now_exp now_ts s).(messages)
            = s.(messages) ++ [m]
          ∧ m.(m_sender) = Me ∧ m.(m_status) = Some Sent
          ∧ m.(m_id) = toString now_id
          ∧ transmits_iff_open
              (frame_message tx MsgImage (Some m.(m_id)) None expiryDuration
                             isVanish)
              s (sendImage tx expiryDuration isVanish now_id now_exp now_ts s))
    ∧ (∃ m, (sendAudio tx isVanish now_id now_ts s).(messages)
            = s.(messages) ++ [m]
          ∧ m.(m_sender) = Me ∧ m.(m_status) = Some Sent
          ∧ m.(m_id) = toString now_id
          ∧ transmits_iff_open
              (frame_message tx MsgAudio (Some m.(m_id)) None None isVanish)
              s (sendAudio tx isVanish now_id now_ts s)).
Proof.
  intros. unfold sendMessage, sendImage, sendAudio.
  assert (Hmsgs : ∀ frame s1, (send_if_open frame s1).(messages) = s1.(messages)).
  { intros frame s1. unfold send_if_open, conn_send.
    repeat case_match; reflexivity. }
  split; [|split]; eexists; (split; [rewrite Hmsgs; reflexivity|]);
    (split; [reflexivity|split; [reflexivity|split; [reflexivity|]]]);
    apply send_if_open_transmits; reflexivity.
Qed.

Lemma C9_witness :
  (∃ c, st_connected.(mainConnRef) = Some c
        ∧ frames_to c (sendMessage "hello" None None 5 5 st_connected)
          = frames_to c st_connected
            ++ [frame_message "hello" MsgText (Some (toString 5)) None None
                              None])
  ∧ (sendMessage "hello" None None 5 5 st_searching).(conns)
    = st_searching.(conns)
  ∧ length (sendMessage "hello" None None 5 5 st_searching).(messages)
    = S (length st_searching.(messages)).
Proof.
  pose proof (C9_local_send_always_appends st_connected "hello" None None
                None 5 5 5) as Hc.
  pose proof (C9_local_send_always_appends st_searching "hello" None None
                None 5 5 5) as Hs.
  destruct Hc as ((m & _ & _ & _ & Hid & Hopen & _) & _).
  destruct Hs as ((m' & Hm' & _ & _ & _ & _ & Hclosed) & _).
  assert (Ho : main_open st_connected = true) by (vm_compute; reflexivity).
  assert (Hn : main_open st_searching = false) by (vm_compute; reflexivity).
  destruct (Hopen Ho) as (c & Hc & Hframes & _).
  split; [|split].
  - exists c. split; [exact Hc|]. rewrite Hframes, Hid. reflexivity.
  - exact (Hclosed Hn).
  - rewrite Hm', length_app. simpl. lia.
Defined.

(** * Further properties *)

(** * Properties of the rest of the interface *)

(** ** Lists filtered by the hook *)

Lemma List_filter_sublist {A} (f : A → bool) (l : list A) :
  sublist (List.filter f l) l.
Proof.
  induction l as [|a l IH]; simpl; [constructor|].
  destruct (f a); by constructor.
Qed.

Lemma List_filter_Forall {A} (f : A → bool) (l : list A) :
  Forall (λ a, f a = true) (List.filter f l).
Proof.
  induction l as [|a l IH]; simpl; [constructor|].
  destruct (f a) eqn:Ha; [by constructor|done].
Qed.

Lemma List_filter_id {A} (f : A → bool) (l : list A) :
  Forall (λ a, f a = true) l → List.filter f l = l.
Proof.
  induction 1 as [|a l Ha _ IH]; simpl; [done|]. by rewrite Ha, IH.
Qed.

Lemma List_filter_snoc {A} (f : A → bool) (l : list A) (a : A) :
  List.filter f (l ++ [a]) = List.filter f l ++ (if f a then [a] else []).
Proof. rewrite List.filter_app. simpl. by destruct (f a). Qed.

Lemma existsb_snoc {A} (f : A → bool) (l : list A) (a : A) :
  existsb f (l ++ [a]) = existsb f l || f a.
Proof. rewrite existsb_app. simpl. by rewrite orb_false_r. Qed.

Lemma existsb_false_Forall {A} (f : A → bool) (l : list A) :
  existsb f l = false → Forall (λ a, f a = false) l.
Proof.
  induction l as [|a l IH]; simpl; [constructor|].
  intros [Ha Hl]%orb_false_iff. constructor; auto.
Qed.

(** ** Recent peers *)

Lemma other_peer_self profile peerId i now :
  other_peer profile peerId (mkRecent i peerId profile now) = false.
Proof.
  unfold other_peer. simpl.
  destruct (truthy (uid profile) && truthy (uid profile));
    by apply bool_decide_eq_false; intros H.
Qed.

(** X1. [addToRecentPeers] stores a list that starts with the entry of
    the peer just met, keyed by its uid if it has one and by its peer id
    otherwise, followed by at most 49 of the entries stored before, in
    their old order, none of which is the same peer by the function's
    own test (same uid when both have one, same peer id otherwise); the
    friend lists are not touched. *)
Theorem recent_peers_newest_first profile peerId now x :
  ∃ rest,
    (addToRecentPeers profile peerId now x).(recent_peers)
    = Some (mkRecent (or_else profile.(uid) peerId) peerId profile now :: rest)
    ∧ (length rest < 50)%nat
    ∧ sublist rest (default [] x.(recent_peers))
    ∧ Forall (λ r, other_peer profile peerId r = true) rest
    ∧ (addToRecentPeers profile peerId now x).(friends) = x.(friends)
    ∧ (addToRecentPeers profile peerId now x).(friendRequests)
      = x.(friendRequests).
Proof.
  exists (take 49 (List.filter (other_peer profile peerId)
                     (default [] x.(recent_peers)))).
  split; [reflexivity|]. split; [rewrite length_take; lia|].
  split; [|split; [|done]].
  - etrans; [apply sublist_take|apply List_filter_sublist].
  - apply Forall_take, List_filter_Forall.
Qed.

(** X2. Meeting the same peer again refreshes its entry instead of adding
    one: two calls of [addToRecentPeers] for the same profile and peer id
    store what the second call alone would have stored. *)
Theorem recent_peers_met_again profile peerId t1 t2 x :
  addToRecentPeers profile peerId t2 (addToRecentPeers profile peerId t1 x)
  = addToRecentPeers profile peerId t2 x.
Proof.
  unfold addToRecentPeers. cbn [recent_peers set_recent_peers default].
  unfold set_recent_peers. cbn [friends friendRequests notification chat_friends].
  do 2 f_equal.
  change (take 50 (?h :: ?l)) with (h :: take 49 l).
  f_equal. unfold id.
  change (take 50 (?h :: ?l)) with (h :: take 49 l).
  cbn [List.filter]. rewrite other_peer_self.
  rewrite (List_filter_id _ (take 49 _))
    by apply Forall_take, List_filter_Forall.
  by rewrite take_take, Nat.min_id.
Qed.

(** ** Friend requests and friends *)

Lemma NoDup_snoc_fresh {A B} `{EqDecision B} (f : A → B) (l : list A) (a : A) :
  NoDup (f <$> l) → Forall (λ a', f a' ≠ f a) l → NoDup (f <$> (l ++ [a])).
Proof.
  intros Hnd Hfr. rewrite fmap_app. apply NoDup_app. split; [done|].
  split; [|apply NoDup_singleton].
  intros y Hy Hy'. apply list_elem_of_singleton in Hy'. subst y.
  apply list_elem_of_fmap in Hy as (a' & Heq & Hin).
  rewrite Forall_forall in Hfr. by apply (Hfr a' Hin).
Qed.

Lemma NoDup_List_filter {A B} (f : A → B) (g : A → bool) (l : list A) :
  NoDup (f <$> l) → NoDup (f <$> List.filter g l).
Proof.
  intros Hnd. eapply sublist_NoDup; [exact Hnd|].
  apply fmap_sublist, List_filter_sublist.
Qed.

Lemma friend_request_cases isMain peer payload now1 now2 x :
  payload.(f_type) = F_friend_request →
  social_on_data isMain peer payload now1 now2 x = x
  ∨ ∃ p, payload.(f_payload) = PProfile p ∧ p.(username) ≠ ""
         ∧ existsb (request_from p.(uid) peer) x.(friendRequests) = false
         ∧ social_on_data isMain peer payload now1 now2 x
           = set_friendRequests (x.(friendRequests) ++ [mkRequest peer p]) x.
Proof.
  intros Ht. unfold social_on_data. rewrite Ht.
  destruct (f_payload payload) as [| |?|p]; try by left.
  destruct (truthy (Some (username p))) eqn:Hname; [|by left].
  destruct (existsb (request_from (uid p) peer) (friendRequests x)) eqn:Hex;
    [by left|].
  right. exists p. repeat split; try done.
  simpl in Hname. by apply bool_decide_eq_true in Hname.
Qed.

(** X3. A ['friend_request'] frame is stored at most once.  When its
    payload is a profile with a non-empty name and no stored request has
    the sender's uid or came from the same peer id, a request with that
    profile is appended under the connection's peer id and nothing else
    changes; in every other case the frame is ignored.  Peer ids of
    stored requests stay pairwise different, a second delivery of the
    frame changes nothing, and the friends and the storage are never
    written. *)
Theorem friend_request_stored_once isMain peer payload now1 now2 x :
  payload.(f_type) = F_friend_request →
  let x' := social_on_data isMain peer payload now1 now2 x in
  (∀ p, payload.(f_payload) = PProfile p → p.(username) ≠ "" →
        existsb (request_from p.(uid) peer) x.(friendRequests) = false →
        x' = set_friendRequests (x.(friendRequests) ++ [mkRequest peer p]) x)
  ∧ ((∀ p, payload.(f_payload) = PProfile p →
           p.(username) = ""
           ∨ existsb (request_from p.(uid) peer) x.(friendRequests) = true) →
     x' = x)
  ∧ (NoDup (rq_peerId <$> x.(friendRequests)) →
     NoDup (rq_peerId <$> x'.(friendRequests)))
  ∧ social_on_data isMain peer payload now1 now2 x' = x'
  ∧ x'.(friends) = x.(friends)
  ∧ x'.(chat_friends) = x.(chat_friends)
  ∧ x'.(recent_peers) = x.(recent_peers).
Proof.
  intros Ht x'. subst x'. unfold social_on_data. rewrite Ht.
  destruct (f_payload payload) as [| |?|p];
    try (split; [done|]; by repeat split).
  destruct (truthy (Some (username p))) eqn:Hname.
  2:{ split.
      { intros p' [= <-] Hne. simpl in Hname.
        by apply bool_decide_eq_false in Hname. }
      by repeat split. }
  simpl in Hname. apply bool_decide_eq_true in Hname.
  destruct (existsb (request_from (uid p) peer) (friendRequests x)) eqn:Hex.
  { split; [intros p' [= <-]; congruence|]. rewrite Hex. by repeat split. }
  split; [by intros p' [= <-]|].
  split.
  { intros Hskip. destruct (Hskip p eq_refl); congruence. }
  cbn [friendRequests set_friendRequests friends chat_friends recent_peers].
  split; [|split; [|done]].
  - intros Hnd. apply NoDup_snoc_fresh; [done|].
    apply existsb_false_Forall in Hex.
    eapply Forall_impl; [exact Hex|]. intros r Hr. simpl.
    unfold request_from in Hr. apply orb_false_iff in Hr as [_ Hr].
    by apply bool_decide_eq_false in Hr.
  - rewrite existsb_snoc.
    replace (request_from (uid p) peer (mkRequest peer p)) with true;
      [by rewrite orb_true_r|].
    unfold request_from. simpl. symmetry. apply orb_true_iff. right.
    by apply bool_decide_eq_true.
Qed.

Lemma friend_request_stored_once_witness :
  (social_on_data true "p1" (frame_friend_request bob) 1 2
     no_social).(friendRequests)
  = [mkRequest "p1" bob]
  ∧ social_on_data true "p1" (frame_friend_request bob) 3 4
      (social_on_data true "p1" (frame_friend_request bob) 1 2 no_social)
    = social_on_data true "p1" (frame_friend_request bob) 1 2 no_social.
Proof.
  pose proof (friend_request_stored_once true "p1" (frame_friend_request bob)
                1 2 no_social eq_refl) as H1.
  pose proof (friend_request_stored_once true "p1" (frame_friend_request bob)
                3 4
                (social_on_data true "p1" (frame_friend_request bob) 1 2
                   no_social) eq_refl) as H2.
  cbv zeta in H1, H2.
  destruct H1 as (Happ & _). destruct H2 as (_ & _ & _ & Hidem & _).
  split; [|exact Hidem].
  rewrite (Happ bob eq_refl); [reflexivity|discriminate|reflexivity].
Defined.

Lemma friend_is_new u peer p t1 t2 :
  friend_is u (Some peer) (mkFriend peer p t1 t2) = true.
Proof.
  unfold friend_is. simpl. apply orb_true_iff. right.
  by apply bool_decide_eq_true.
Qed.

Lemma friend_is_fresh u peer (l : list Friend) :
  existsb (friend_is u (Some peer)) l = false →
  Forall (λ f, fr_id f ≠ peer) l.
Proof.
  intros Hex. apply existsb_false_Forall in Hex.
  eapply Forall_impl; [exact Hex|]. intros f Hf.
  unfold friend_is in Hf. apply orb_false_iff in Hf as [_ Hf].
  apply bool_decide_eq_false in Hf. congruence.
Qed.

Lemma List_filter_elem {A} (f : A → bool) (l : list A) (a : A) :
  a ∈ l → f a = true → a ∈ List.filter f l.
Proof.
  intros Hin Hf. apply list_elem_of_In, filter_In. split; [|done].
  by apply list_elem_of_In.
Qed.

(** X4. After [acceptFriendRequest] the requester is a friend by the
    hook's own test (same uid, or the request's peer id as friend id), no
    request from that peer id is left while every other request stays, in
    order; a requester who already was a friend is not added again and
    one who was not is appended, so friend ids stay pairwise different
    and accepting the same request twice gives the friends of accepting
    it once. *)
Theorem accept_makes_friend request now1 now2 now3 now4 x :
  let x' := acceptFriendRequest request now1 now2 x in
  existsb (friend_is request.(rq_profile).(uid) (Some request.(rq_peerId)))
          x'.(friends) = true
  ∧ Forall (λ q, q.(rq_peerId) ≠ request.(rq_peerId)) x'.(friendRequests)
  ∧ sublist x'.(friendRequests) x.(friendRequests)
  ∧ (∀ q, q ∈ x.(friendRequests) → q.(rq_peerId) ≠ request.(rq_peerId) →
          q ∈ x'.(friendRequests))
  ∧ (NoDup (fr_id <$> x.(friends)) → NoDup (fr_id <$> x'.(friends)))
  ∧ (acceptFriendRequest request now3 now4 x').(friends) = x'.(friends)
  ∧ (existsb (friend_is request.(rq_profile).(uid)
                (Some request.(rq_peerId))) x.(friends) = true →
     x'.(friends) = x.(friends))
  ∧ (existsb (friend_is request.(rq_profile).(uid)
                (Some request.(rq_peerId))) x.(friends) = false →
     x'.(friends)
     = x.(friends)
       ++ [mkFriend request.(rq_peerId) request.(rq_profile) now1
             (Some now2)]).
Proof.
  intros x'. subst x'. unfold acceptFriendRequest.
  cbn [friends friendRequests set_notification set_friendRequests].
  assert (Hfr : existsb
            (friend_is (uid (rq_profile request)) (Some (rq_peerId request)))
            (friends
               (if existsb
                     (friend_is (uid (rq_profile request))
                        (Some (rq_peerId request))) (friends x)
                then x
                else set_friends
                       (friends x
                        ++ [mkFriend (rq_peerId request) (rq_profile request)
                              now1 (Some now2)]) x)) = true).
  { destruct (existsb _ (friends x)) eqn:Hex; [done|].
    cbn [friends set_friends]. by rewrite existsb_snoc, friend_is_new, orb_true_r. }
  split; [exact Hfr|].
  split; [|split; [|split; [|split; [|split; [|split]]]]].
  - eapply Forall_impl; [apply List_filter_Forall|].
    intros q Hq. simpl in Hq. by apply bool_decide_eq_true in Hq.
  - destruct (existsb _ (friends x)); apply List_filter_sublist.
  - intros q Hin Hne.
    assert (Hin' : q ∈ List.filter
              (λ r, bool_decide (rq_peerId r ≠ rq_peerId request))
              (friendRequests x)).
    { apply List_filter_elem; [done|]. by apply bool_decide_eq_true. }
    by destruct (existsb _ (friends x)).
  - intros Hnd. destruct (existsb _ (friends x)) eqn:Hex; [done|].
    cbn [friends set_friends]. apply NoDup_snoc_fresh; [done|].
    by eapply friend_is_fresh.
  - by rewrite Hfr.
  - intros Hex. by rewrite Hex.
  - intros Hex. by rewrite Hex.
Qed.

(** X5. A ['friend_accept'] frame that carries a profile with a
    non-empty name makes its sender a friend by the hook's own test,
    adding an entry under the connection's peer id unless a friend with
    that uid or id exists; any other payload is ignored.  Friend ids stay
    pairwise different, a second delivery changes nothing, and the entry
    is kept in memory only: the stored friend list is not written. *)
Theorem friend_accept_adds_once isMain peer payload now1 now2 now3 now4 x :
  payload.(f_type) = F_friend_accept →
  let x' := social_on_data isMain peer payload now1 now2 x in
  (∀ p, payload.(f_payload) = PProfile p → p.(username) ≠ "" →
        existsb (friend_is p.(uid) (Some peer)) x'.(friends) = true
        ∧ x'.(notification)
          = Some (p.(username) +:+ " accepted your friend request"))
  ∧ ((∀ p, payload.(f_payload) = PProfile p → p.(username) = "") → x' = x)
  ∧ sublist x.(friends) x'.(friends)
  ∧ (NoDup (fr_id <$> x.(friends)) → NoDup (fr_id <$> x'.(friends)))
  ∧ social_on_data isMain peer payload now3 now4 x' = x'
  ∧ x'.(chat_friends) = x.(chat_friends)
  ∧ x'.(friendRequests) = x.(friendRequests).
Proof.
  intros Ht x'. subst x'. unfold social_on_data. rewrite Ht.
  destruct (f_payload payload) as [| |?|p];
    try (split; [by intros p' [=]|]; by repeat split).
  destruct (truthy (Some (username p))) eqn:Hname.
  2:{ split; [|by repeat split]. intros p' [= <-] Hne. simpl in Hname.
      by apply bool_decide_eq_false in Hname. }
  destruct (existsb (friend_is (uid p) (Some peer)) (friends x)) eqn:Hex;
    cbn [friends set_friends set_notification notification chat_friends
         friendRequests].
  - rewrite Hex. split; [by intros p' [= <-] _|].
    split; [|by repeat split].
    intros Hp. specialize (Hp p eq_refl). simpl in Hname.
    apply bool_decide_eq_true in Hname. done.
  - assert (Hnew : existsb (friend_is (uid p) (Some peer))
                     (friends x ++ [mkFriend peer p now1 (Some now2)]) = true)
      by (by rewrite existsb_snoc, friend_is_new, orb_true_r).
    rewrite Hnew. split; [by intros p' [= <-] _|].
    split; [|split; [|split; [|done]]].
    + intros Hp. specialize (Hp p eq_refl). simpl in Hname.
      apply bool_decide_eq_true in Hname. done.
    + by apply sublist_inserts_r.
    + intros Hnd. apply NoDup_snoc_fresh; [done|]. by eapply friend_is_fresh.
Qed.

Lemma friend_accept_adds_once_witness :
  (social_on_data false "p1" (frame_friend_accept bob) 1 2 no_social).(friends)
  = [mkFriend "p1" bob 1 (Some 2)]
  ∧ (social_on_data false "p1" (frame_friend_accept bob) 1 2 no_social).(chat_friends)
    = None.
Proof.
  split; [reflexivity|].
  exact (proj1 (proj2 (proj2 (proj2 (proj2 (proj2
    (friend_accept_adds_once false "p1" (frame_friend_accept bob) 1 2 3 4 no_social
       eq_refl))))))).
Defined.

(** X6. The stored friend list can part from the list in memory.  When
    the two agree and the requester already is a friend by the hook's
    test, [acceptFriendRequest] leaves the friends in memory as they are,
    but the write it defers appends the requester to the stored list all
    the same: the next load finds one entry more than the hook showed. *)
Theorem accept_store_parts_from_memory request now1 now2 now3 now4 x :
  x.(chat_friends) = Some x.(friends) →
  existsb (friend_is request.(rq_profile).(uid) (Some request.(rq_peerId)))
          x.(friends) = true →
  let x' := accept_store request now3 now4
              (acceptFriendRequest request now1 now2 x) in
  x'.(friends) = x.(friends)
  ∧ x'.(chat_friends)
    = Some (x.(friends)
            ++ [mkFriend request.(rq_peerId) request.(rq_profile) now3
                  (Some now4)]).
Proof.
  intros Hsync Hex x'. subst x'. unfold accept_store, acceptFriendRequest.
  rewrite Hex.
  cbn [friends chat_friends set_chat_friends set_notification
       set_friendRequests].
  by rewrite Hsync.
Qed.

Lemma accept_store_parts_from_memory_witness :
  let x := mkSocial [mkFriend "p0" bob 1 (Some 1)] [] None
                    (Some [mkFriend "p0" bob 1 (Some 1)]) None in
  let x' := accept_store (mkRequest "p9" bob) 7 8
              (acceptFriendRequest (mkRequest "p9" bob) 5 6 x) in
  x'.(friends) = [mkFriend "p0" bob 1 (Some 1)]
  ∧ x'.(chat_friends)
    = Some [mkFriend "p0" bob 1 (Some 1); mkFriend "p9" bob 7 (Some 8)].
Proof.
  exact (accept_store_parts_from_memory (mkRequest "p9" bob) 5 6 7 8
           (mkSocial [mkFriend "p0" bob 1 (Some 1)] [] None
              (Some [mkFriend "p0" bob 1 (Some 1)]) None)
           eq_refl eq_refl).
Defined.

(** X7. Declining undoes a request.  A ['friend_request'] frame from a
    peer id followed by [rejectFriendRequest] for it leaves the requests
    that [rejectFriendRequest] alone would have left: none of that peer
    id, and every request of another peer id, in the old order.  So when
    no request from the peer id was stored, the stored requests are as
    they were before the frame. *)
Theorem request_then_reject isMain peer payload now1 now2 x :
  payload.(f_type) = F_friend_request →
  let x' := rejectFriendRequest peer
              (social_on_data isMain peer payload now1 now2 x) in
  x'.(friendRequests) = (rejectFriendRequest peer x).(friendRequests)
  ∧ Forall (λ q, q.(rq_peerId) ≠ peer) x'.(friendRequests)
  ∧ sublist x'.(friendRequests) x.(friendRequests)
  ∧ (∀ q, q ∈ x.(friendRequests) → q.(rq_peerId) ≠ peer →
          q ∈ x'.(friendRequests))
  ∧ (Forall (λ q, q.(rq_peerId) ≠ peer) x.(friendRequests) →
     x'.(friendRequests) = x.(friendRequests)).
Proof.
  intros Ht x'. subst x'.
  assert (Heq : (rejectFriendRequest peer
                   (social_on_data isMain peer payload now1 now2 x))
                .(friendRequests)
                = List.filter (λ r, bool_decide (r.(rq_peerId) ≠ peer))
                    x.(friendRequests)).
  { destruct (friend_request_cases isMain peer payload now1 now2 x Ht)
      as [-> | (p & _ & _ & _ & ->)];
      unfold rejectFriendRequest; cbn [friendRequests set_friendRequests];
      [done|].
    rewrite List_filter_snoc. simpl.
    rewrite (bool_decide_eq_false_2 (peer ≠ peer)) by (by intros H).
    apply app_nil_r. }
  rewrite Heq. split; [done|]. split; [|split; [|split]].
  - eapply Forall_impl; [apply List_filter_Forall|].
    intros q Hq. simpl in Hq. by apply bool_decide_eq_true in Hq.
  - apply List_filter_sublist.
  - intros q Hq Hne. apply List_filter_elem; [done|].
    by apply bool_decide_eq_true.
  - intros Hall. apply List_filter_id.
    eapply Forall_impl; [exact Hall|]. intros q Hq.
    by apply bool_decide_eq_true.
Qed.

Lemma request_then_reject_witness :
  (rejectFriendRequest "p1"
     (social_on_data true "p1" (frame_friend_request bob) 1 2 no_social)).(friendRequests)
  = no_social.(friendRequests).
Proof.
  apply (request_then_reject true "p1" (frame_friend_request bob) 1 2 no_social eq_refl).
  constructor.
Defined.

(** ** Ids made from the clock *)

Lemma pretty_N_go_nonempty (x : N) :
  ∀ s, s ≠ "" → pretty_N_go x s ≠ "".
Proof.
  induction (N.lt_wf_0 x) as [x _ IH]. intros s Hs.
  destruct (decide (x = 0)%N) as [-> | Hx]; [by rewrite pretty_N_go_0|].
  rewrite pretty_N_go_step by lia.
  apply IH; [|done]. apply N.div_lt; lia.
Qed.

Lemma pretty_pos_nonempty (p : positive) : pretty p ≠ "".
Proof.
  unfold pretty, pretty_positive, pretty, pretty_N.
  case_decide; [done|].
  rewrite pretty_N_go_step by lia. by apply pretty_N_go_nonempty.
Qed.

Lemma toString_truthy (now : Z) : truthy (Some (toString now)) = true.
Proof.
  unfold truthy, toString. apply bool_decide_eq_true.
  destruct now as [|p|p]; cbn [pretty pretty_Z]; [done| |done].
  apply pretty_pos_nonempty.
Qed.

(** ** Messages addressed by id *)

Lemma set_messages_same s : set_messages s.(messages) s = s.
Proof. by destruct s. Qed.

Lemma map_addressed_fmap {B} (g : Message → B) i f ms :
  (∀ m, g (f m) = g m) → g <$> map_addressed i f ms = g <$> ms.
Proof.
  intros Hg. unfold map_addressed. rewrite <- list_fmap_compose.
  apply list_fmap_ext. intros _ m _. simpl. by case_bool_decide.
Qed.

Lemma map_addressed_unknown i f ms :
  Forall (λ m, Some m.(m_id) ≠ i) ms → map_addressed i f ms = ms.
Proof.
  intros Hall. unfold map_addressed.
  rewrite <- (list_fmap_id ms) at 2. apply Forall_fmap_ext.
  eapply Forall_impl; [exact Hall|]. intros m Hm. simpl.
  by rewrite bool_decide_eq_false_2.
Qed.

Lemma map_addressed_other i f ms k m :
  ms !! k = Some m → Some m.(m_id) ≠ i → map_addressed i f ms !! k = Some m.
Proof.
  intros Hk Hne. unfold map_addressed. rewrite list_lookup_fmap, Hk. simpl.
  by rewrite bool_decide_eq_false_2.
Qed.

Lemma map_addressed_snoc i f ms m :
  map_addressed i f (ms ++ [m])
  = map_addressed i f ms
    ++ [if bool_decide (Some m.(m_id) = i) then f m else m].
Proof. unfold map_addressed. by rewrite fmap_app. Qed.

(** X8. A ['reaction'], ['edit_message'] or ['seen'] frame on the primary
    connection never adds, removes or reorders messages and never changes
    an id or a sender; a message whose id is not the frame's [messageId]
    is left exactly as it was, so a frame addressed to an id that is not
    in the conversation, or carrying no [messageId], changes nothing at
    all; and no frame is sent in reply. *)
Theorem addressed_frames_keep_conversation b c payload now_ts now_id s :
  payload.(f_type) = F_reaction ∨ payload.(f_type) = F_edit_message
  ∨ payload.(f_type) = F_seen →
  let s' := conn_on_data b true c payload now_ts now_id s in
  m_id <$> s'.(messages) = m_id <$> s.(messages)
  ∧ m_sender <$> s'.(messages) = m_sender <$> s.(messages)
  ∧ (∀ k m, s.(messages) !! k = Some m →
            Some m.(m_id) ≠ payload.(f_messageId) →
            s'.(messages) !! k = Some m)
  ∧ (Forall (λ m, Some m.(m_id) ≠ payload.(f_messageId)) s.(messages) →
     s' = s)
  ∧ s'.(conns) = s.(conns).
Proof.
  intros Ht s'. subst s'. unfold conn_on_data.
  destruct Ht as [-> | [-> | ->]].
  - cbn [messages conns set_messages].
    split; [by apply map_addressed_fmap|].
    split; [by apply map_addressed_fmap|].
    split; [intros k m; apply map_addressed_other|].
    split; [|done]. intros Hall.
    rewrite map_addressed_unknown by done. apply set_messages_same.
  - cbn [messages conns set_messages].
    split; [by apply map_addressed_fmap|].
    split; [by apply map_addressed_fmap|].
    split; [intros k m; apply map_addressed_other|].
    split; [|done]. intros Hall.
    rewrite map_addressed_unknown by done. apply set_messages_same.
  - cbn [messages conns set_messages].
    split; [by apply map_addressed_fmap|].
    split; [by apply map_addressed_fmap|].
    split; [intros k m; apply map_addressed_other|].
    split; [|done]. intros Hall.
    rewrite map_addressed_unknown by done. apply set_messages_same.
Qed.

Lemma addressed_frames_keep_conversation_witness :
  conn_on_data true true 0 (frame_seen "nobody") 1 2 st_connected
  = st_connected.
Proof.
  apply (addressed_frames_keep_conversation true 0 (frame_seen "nobody") 1 2
           st_connected).
  - right. right. reflexivity.
  - vm_compute. constructor.
Defined.

(** ** The two ends of a conversation *)

Lemma send_after_write frame ms s :
  main_open s = true →
  ∃ c, s.(mainConnRef) = Some c
       ∧ frames_to c (send_if_open frame (set_messages ms s))
         = frames_to c s ++ [frame]
       ∧ (send_if_open frame (set_messages ms s)).(messages) = ms.
Proof.
  intros Ho. destruct (main_open_Some s Ho) as (c & cn & Hc & Hcn & _).
  exists c. split; [done|].
  rewrite (send_if_open_open frame (set_messages ms s) c) by done.
  split; [|reflexivity].
  by rewrite (frames_to_conn_send c frame (set_messages ms s) cn).
Qed.

Lemma send_not_open frame s : main_open s = false → send_if_open frame s = s.
Proof. apply send_if_open_closed. Qed.

Lemma chat_snoc ms m :
  m.(m_sender) ≠ System → chat (ms ++ [m]) = chat ms ++ [m].
Proof.
  intros Hm. unfold chat. rewrite List_filter_snoc.
  by rewrite bool_decide_eq_false_2.
Qed.

Lemma chat_map_addressed i f ms :
  (∀ m, (f m).(m_sender) = m.(m_sender)) →
  chat (map_addressed i f ms) = map_addressed i f (chat ms).
Proof.
  intros Hf. unfold chat, map_addressed.
  induction ms as [|m ms IH]; [done|]. cbn [fmap list_fmap List.filter].
  rewrite IH.
  replace (m_sender (if bool_decide (Some (m_id m) = i) then f m else m))
    with (m_sender m) by (case_bool_decide; by rewrite ?Hf).
  by destruct (negb (bool_decide (m_sender m = System))).
Qed.

Lemma alike_map_addressed i f g la lb :
  (∀ a b, alike a b → alike (f a) (g b)) →
  Forall2 alike la lb →
  Forall2 alike (map_addressed i f la) (map_addressed i g lb).
Proof.
  intros Hfg Hall. unfold map_addressed.
  apply Forall2_fmap. eapply Forall2_impl; [exact Hall|].
  intros a b Hab. simpl. destruct Hab as (Hid & Hrest).
  rewrite <- Hid. case_bool_decide; [apply Hfg|]; by split.
Qed.

Lemma alike_sent_received c payload ty id replyTo expiryDuration expiresAt
    isVanish now_ts ts' now_id tx fl s :
  truthy (Some id) = true →
  tx = (if bool_decide (ty = MsgText) then PStr payload else PUndefined) →
  fl = (if bool_decide (ty = MsgText) then PUndefined else PStr payload) →
  alike
    (local_message id tx fl ty now_ts replyTo expiryDuration expiresAt isVanish)
    (received_message true c
       (frame_message payload ty (Some id) replyTo expiryDuration isVanish)
       ts' now_id s).
Proof.
  intros Hid -> ->. unfold alike, received_message, local_message.
  cbn -[truthy]. rewrite Hid.
  destruct ty; by repeat split.
Qed.

(** X9. The protocol keeps the two ends of a session in step.  Suppose
    the conversations of the two ends, the notices each writes for itself
    aside, show the same messages in the same order (same ids, text,
    data, type, reply, reactions, edit mark, expiry and vanish flag, with
    "me" and "stranger" exchanged).  Then after a [sendMessage],
    [sendImage], [sendAudio], [sendReaction] or [editMessage] at one end
    with its primary connection open, exactly one frame was handed to
    that connection, and once the other end has received it on its
    primary connection the two conversations again show the same. *)
Theorem conversations_stay_in_step b k sA sB :
  chat_call k = true →
  main_open sA = true →
  in_step sA.(messages) sB.(messages) →
  ∃ sA' c frame,
    call b k sA = Some sA'
    ∧ sA.(mainConnRef) = Some c
    ∧ frames_to c sA' = frames_to c sA ++ [frame]
    ∧ ∀ b' cB now_ts now_id,
        in_step sA'.(messages)
          (conn_on_data b' true cB frame now_ts now_id sB).(messages).
Proof.
  intros Hk Ho Hstep.
  destruct k as [e| | | | | | | | | | | | |]; try done.
  - destruct e; try done; cbn [call step].
    + destruct (send_after_write
        (frame_message tx MsgText (Some (toString now_id)) replyTo None isVanish)
        (messages sA
         ++ [local_message (toString now_id) (PStr tx) PUndefined MsgText
               now_ts replyTo None None isVanish]) sA Ho)
        as (c & Hc & Hfr & Hms).
      eexists _, c, _. split; [reflexivity|]. split; [done|].
      split; [exact Hfr|]. intros b' cB ts' nid'.
      unfold sendMessage. cbv zeta. rewrite Hms.
      rewrite conn_on_data_message_main by done. cbv zeta.
      cbn [f_id frame_message]. rewrite toString_truthy.
      cbn [messages conn_send set_conns set_messages].
      unfold in_step. rewrite !chat_snoc by done.
      apply Forall2_app; [exact Hstep|]. constructor; [|constructor].
      by apply alike_sent_received; [apply toString_truthy|..].
    + destruct (send_after_write
        (frame_message base64 MsgImage (Some (toString now_id)) None
           expiryDuration isVanish)
        (messages sA
         ++ [local_message (toString now_id) PUndefined (PStr base64) MsgImage
               now_ts None expiryDuration (expires expiryDuration now_exp)
               isVanish]) sA Ho)
        as (c & Hc & Hfr & Hms).
      eexists _, c, _. split; [reflexivity|]. split; [done|].
      split; [exact Hfr|]. intros b' cB ts' nid'.
      unfold sendImage. cbv zeta. rewrite Hms.
      rewrite conn_on_data_message_main by done. cbv zeta.
      cbn [f_id frame_message]. rewrite toString_truthy.
      cbn [messages conn_send set_conns set_messages].
      unfold in_step. rewrite !chat_snoc by done.
      apply Forall2_app; [exact Hstep|]. constructor; [|constructor].
      by apply alike_sent_received; [apply toString_truthy|..].
    + destruct (send_after_write
        (frame_message base64 MsgAudio (Some (toString now_id)) None None
           isVanish)
        (messages sA
         ++ [local_message (toString now_id) PUndefined (PStr base64) MsgAudio
               now_ts None None None isVanish]) sA Ho)
        as (c & Hc & Hfr & Hms).
      eexists _, c, _. split; [reflexivity|]. split; [done|].
      split; [exact Hfr|]. intros b' cB ts' nid'.
      unfold sendAudio. cbv zeta. rewrite Hms.
      rewrite conn_on_data_message_main by done. cbv zeta.
      cbn [f_id frame_message]. rewrite toString_truthy.
      cbn [messages conn_send set_conns set_messages].
      unfold in_step. rewrite !chat_snoc by done.
      apply Forall2_app; [exact Hstep|]. constructor; [|constructor].
      by apply alike_sent_received; [apply toString_truthy|..].
  - cbn [call].
    destruct (send_after_write (frame_reaction messageId emoji0)
      (map_addressed (Some messageId) (add_reaction (mkReaction (PStr emoji0) Me))
         (messages sA)) sA Ho) as (c & Hc & Hfr & Hms).
    eexists _, c, _. split; [reflexivity|]. split; [done|].
    split; [exact Hfr|]. intros b' cB ts' nid'.
    unfold sendReaction. cbv zeta. rewrite Hms.
    unfold conn_on_data. cbn [f_type f_payload f_messageId frame_reaction
      messages set_messages].
    unfold in_step. rewrite !chat_map_addressed by done.
    apply alike_map_addressed; [|exact Hstep].
    intros a a' (?&?&?&?&?&?&Hr&?&?&?). repeat split; try done.
    cbn [m_reactions add_reaction]. by rewrite Hr, fmap_app.
  - cbn [call].
    destruct (send_after_write (frame_edit id text)
      (map_addressed (Some id) (edit_text (PStr text))
         (messages sA)) sA Ho) as (c & Hc & Hfr & Hms).
    eexists _, c, _. split; [reflexivity|]. split; [done|].
    split; [exact Hfr|]. intros b' cB ts' nid'.
    unfold editMessage. cbv zeta. rewrite Hms.
    unfold conn_on_data. cbn [f_type f_payload f_messageId frame_edit
      messages set_messages].
    unfold in_step. rewrite !chat_map_addressed by done.
    apply alike_map_addressed; [|exact Hstep].
    intros a a' (?&?&?&?&?&?&Hr&?&?&?). by repeat split.
Qed.

Lemma conversations_stay_in_step_witness :
  ∃ sA' frame,
    call true (SendReaction "77" "ok") st_chatting = Some sA'
    ∧ frames_to 0 sA' = frames_to 0 st_chatting ++ [frame]
    ∧ in_step sA'.(messages)
        (conn_on_data true true 0 frame 1 2 st_chatting_there).(messages).
Proof.
  destruct (conversations_stay_in_step true (SendReaction "77" "ok")
              st_chatting st_chatting_there eq_refl eq_refl)
    as (sA' & c & frame & Hcall & Hc & Hfr & Hstep).
  { vm_compute. repeat constructor. }
  exists sA', frame. split; [exact Hcall|].
  assert (c = 0%nat) as -> by (vm_compute in Hc; congruence).
  split; [exact Hfr|apply Hstep].
Defined.

(** ** Receipts *)

Lemma conn_send_main_open c frame s :
  main_open (conn_send c frame s) = main_open s.
Proof.
  unfold main_open, conn_send. cbn [mainConnRef conns set_conns].
  destruct (mainConnRef s) as [c'|]; [|done].
  destruct (decide (c = c')) as [<- | Hne].
  - rewrite list_lookup_alter_eq. by destruct (conns s !! c).
  - by rewrite list_lookup_alter_ne.
Qed.

(** X10. A text message comes back as seen.  When [sendMessage] runs
    with the primary connection open, the message is appended with
    status "sent" and one frame goes out; the end that receives that
    frame on its primary connection appends a message with the same id
    and text from "stranger" and hands back one ['seen'] frame; and when
    that frame arrives, the sender's message has status "seen" while
    the conversation keeps its length. *)
Theorem receipt_round_trip b tx replyTo isVanish now_id now_ts ts1 id1 ts2 id2
    sA sB cB cnB :
  main_open sA = true →
  sB.(conns) !! cB = Some cnB →
  let sA1 := sendMessage tx replyTo isVanish now_id now_ts sA in
  let frame :=
    frame_message tx MsgText (Some (toString now_id)) replyTo None isVanish in
  let sB1 := conn_on_data b true cB frame ts1 id1 sB in
  let receipt := frame_seen (toString now_id) in
  ∃ cA sent got,
    sA.(mainConnRef) = Some cA
    ∧ sA1.(messages) = sA.(messages) ++ [sent]
    ∧ sent.(m_id) = toString now_id
    ∧ sent.(m_status) = Some Sent
    ∧ frames_to cA sA1 = frames_to cA sA ++ [frame]
    ∧ sB1.(messages) = sB.(messages) ++ [got]
    ∧ got.(m_id) = toString now_id
    ∧ got.(m_text) = PStr tx
    ∧ got.(m_sender) = Stranger
    ∧ frames_to cB sB1 = frames_to cB sB ++ [receipt]
    ∧ (conn_on_data b true cA receipt ts2 id2 sA1).(messages)
      = map_addressed (Some (toString now_id)) mark_seen sA.(messages)
        ++ [mark_seen sent]
    ∧ (mark_seen sent).(m_status) = Some Seen
    ∧ (mark_seen sent).(m_text) = PStr tx.
Proof.
  intros Ho HcB sA1 frame sB1 receipt. subst sA1 frame sB1 receipt.
  unfold sendMessage. cbv zeta.
  destruct (send_after_write
    (frame_message tx MsgText (Some (toString now_id)) replyTo None isVanish)
    (messages sA
     ++ [local_message (toString now_id) (PStr tx) PUndefined MsgText
           now_ts replyTo None None isVanish]) sA Ho)
    as (cA & Hc & Hfr & Hms).
  eexists cA, _, _. split; [done|]. split; [exact Hms|].
  split; [done|]. split; [done|]. split; [exact Hfr|].
  rewrite conn_on_data_message_main by done. cbv zeta.
  cbn [f_id frame_message]. rewrite toString_truthy.
  split; [reflexivity|]. split.
  { cbn -[truthy]. by rewrite toString_truthy. }
  split; [done|]. split; [done|]. split.
  { by erewrite frames_to_conn_send. }
  unfold conn_on_data at 1. cbn [f_type frame_seen f_messageId default].
  cbn [messages set_messages]. rewrite Hms, map_addressed_snoc.
  cbn [m_id local_message]. by rewrite bool_decide_eq_true_2.
Qed.

Lemma receipt_round_trip_witness :
  ∃ sent,
    (sendMessage "again" None None 10 11 st_chatting).(messages)
    = st_chatting.(messages) ++ [sent]
    ∧ last
        (conn_on_data true true 0 (frame_seen (toString 10)) 14 15
           (sendMessage "again" None None 10 11 st_chatting)).(messages)
      = Some (mark_seen sent).
Proof.
  assert (HcB : ∃ cn, st_chatting_there.(conns) !! 0%nat = Some cn)
    by (eexists; vm_compute; reflexivity).
  destruct HcB as [cnB HcB].
  destruct (receipt_round_trip true "again" None None 10 11 12 13 14 15
              st_chatting st_chatting_there 0 cnB eq_refl HcB)
    as (cA & sent & got & HcA & Hms & _ & _ & _ & _ & _ & _ & _ & _ & Hseen & _).
  exists sent. split; [exact Hms|].
  assert (cA = 0%nat) as -> by (vm_compute in HcA; congruence).
  rewrite Hseen. apply last_snoc.
Defined.

(** ** Vanish mode *)

Lemma mark_last_vanish_snoc ms m :
  m.(m_sender) = Me →
  mark_last_vanish (ms ++ [m]) = ms ++ [set_isVanish (Some true) m].
Proof.
  intros Hm. unfold mark_last_vanish. rewrite last_snoc, Hm.
  rewrite bool_decide_eq_true_2 by done.
  rewrite length_app, Nat.add_1_r. simpl. apply insert_snoc_length.
Qed.

(** X11. Vanish mode reaches one end only.  [handleSendMessage] in
    vanish mode, for an input that is not blank and with the primary
    connection open, marks its own copy of the message as vanishing after
    it was sent: the frame on the wire carries no vanish flag.  So the
    copy the other end appends is not a vanish message.  The sweep of
    [App] drops the sender's copy once it is ten seconds old and never
    drops the receiver's. *)
Theorem vanish_mode_is_one_sided b inputText replyingTo now_id now_ts ts1 id1
    sA sB cB :
  blank inputText = false →
  main_open sA = true →
  let sA1 := handleSendMessage inputText replyingTo true now_id now_ts sA in
  let frame :=
    frame_message inputText MsgText (Some (toString now_id)) replyingTo None
                  None in
  ∃ cA mine,
    sA.(mainConnRef) = Some cA
    ∧ sA1.(messages) = sA.(messages) ++ [mine]
    ∧ mine.(m_text) = PStr inputText
    ∧ mine.(m_isVanish) = Some true
    ∧ frames_to cA sA1
      = frames_to cA sA ++ [frame; frame_flag F_typing false]
    ∧ frame.(f_isVanish) = None
    ∧ (∀ now, now_ts + 10000 ≤ now → mine ∉ (vanish_tick now sA1).(messages))
    ∧ let sB1 := conn_on_data b true cB frame ts1 id1 sB in
      ∃ theirs,
        sB1.(messages) = sB.(messages) ++ [theirs]
        ∧ theirs.(m_id) = mine.(m_id)
        ∧ theirs.(m_text) = PStr inputText
        ∧ theirs.(m_isVanish) = None
        ∧ ∀ now, theirs ∈ (vanish_tick now sB1).(messages).
Proof.
  intros Hb Ho sA1 frame0. subst sA1 frame0.
  unfold handleSendMessage. rewrite Hb.
  cbv zeta. unfold sendMessage. cbv zeta.
  destruct (main_open_Some sA Ho) as (cA & cnA & HcA & HcnA & Hop).
  remember (local_message (toString now_id) (PStr inputText) PUndefined
              MsgText now_ts replyingTo None None None) as msg eqn:Hmsg.
  remember (frame_message inputText MsgText (Some (toString now_id))
              replyingTo None None) as frame eqn:Hframe.
  rewrite (send_if_open_open frame (set_messages (messages sA ++ [msg]) sA) cA)
    by done.
  cbn [messages conn_send set_conns set_messages].
  rewrite mark_last_vanish_snoc by (by rewrite Hmsg).
  unfold sendTyping.
  erewrite (send_if_open_open _ _ cA);
    [|unfold main_open; cbn [mainConnRef conns set_messages set_conns conn_send];
      rewrite HcA, list_lookup_alter_eq, HcnA; exact Hop
     |done].
  exists cA, (set_isVanish (Some true) msg).
  split; [done|]. split; [reflexivity|]. split; [by rewrite Hmsg|].
  split; [done|]. split.
  { unfold frames_to, conn_send. cbn [conns set_conns set_messages].
    rewrite !list_lookup_alter_eq, HcnA. cbn. by rewrite <- app_assoc. }
  split; [by rewrite Hframe|]. split.
  { intros now Hnow. unfold vanish_tick.
    cbn [messages conn_send set_conns set_messages].
    destruct (existsb _ _) eqn:Hex.
    - cbn [messages set_messages]. intros Hin.
      apply list_elem_of_In, filter_In in Hin as [_ Hkeep].
      unfold vanish_keeps in Hkeep. rewrite Hmsg in Hkeep. cbn in Hkeep.
      apply bool_decide_eq_true in Hkeep. lia.
    - rewrite existsb_snoc in Hex. apply orb_false_iff in Hex as [_ Hex].
      done. }
  cbv zeta. rewrite conn_on_data_message_main by (by rewrite Hframe).
  cbv zeta. rewrite Hframe. cbn [f_id frame_message].
  rewrite toString_truthy.
  eexists. split; [reflexivity|].
  split; [rewrite Hmsg; cbn -[truthy]; by rewrite toString_truthy|].
  split; [done|]. split; [done|].
  intros now. unfold vanish_tick.
  cbn [messages conn_send set_conns set_messages].
  destruct (existsb _ _); cbn [messages set_messages];
    [|apply elem_of_app; right; by apply list_elem_of_singleton].
  apply List_filter_elem; [|done].
  apply elem_of_app; right. by apply list_elem_of_singleton.
Qed.

Lemma vanish_mode_is_one_sided_witness :
  ∃ mine,
    (handleSendMessage "psst" None true 20 21 st_chatting).(messages)
    = st_chatting.(messages) ++ [mine]
    ∧ mine.(m_isVanish) = Some true
    ∧ mine ∉ (vanish_tick 10021
                (handleSendMessage "psst" None true 20 21 st_chatting)).(messages).
Proof.
  destruct (vanish_mode_is_one_sided true "psst" None 20 21 22 23
              st_chatting st_chatting_there 0 eq_refl eq_refl)
    as (cA & mine & _ & Hms & _ & Hv & _ & _ & Hgone & _).
  exists mine. split; [exact Hms|]. split; [exact Hv|].
  apply Hgone. lia.
Defined.

(** ** Connections the references do not hold *)

Lemma clearTimeout_frame (t : option nat) (s : State) :
  (clearTimeout t s).(conns) = s.(conns)
  ∧ (clearTimeout t s).(mainConnRef) = s.(mainConnRef)
  ∧ (clearTimeout t s).(userProfile) = s.(userProfile)
  ∧ (clearTimeout t s).(channelRef) = s.(channelRef)
  ∧ (clearTimeout t s).(messages) = s.(messages)
  ∧ (clearTimeout t s).(directConnsRef) = s.(directConnsRef)
  ∧ (clearTimeout t s).(activeDirectConnections) = s.(activeDirectConnections)
  ∧ (clearTimeout t s).(disconnectReason) = s.(disconnectReason).
Proof. by destruct t. Qed.

Lemma conn_on_open_primary c s :
  (conn_on_open true c s).(status) = CONNECTED
  ∧ (conn_on_open true c s).(partnerPeerId) = Some (peer_of c s)
  ∧ (conn_on_open true c s).(mainConnRef) = s.(mainConnRef)
  ∧ (conn_on_open true c s).(isMatchmakerRef) = false
  ∧ (conn_on_open true c s).(messages) = s.(messages)
  ∧ (conn_on_open true c s).(disconnectReason) = s.(disconnectReason)
  ∧ (conn_on_open true c s).(conns)
    = match s.(userProfile) with
      | Some p => alter (push_frame (frame_profile p)) c s.(conns)
      | None => s.(conns)
      end.
Proof.
  unfold conn_on_open.
  destruct (clearTimeout_frame (connectionTimeoutRef s) s)
    as (Hc & Hm & Hu & Hch & Hms & _ & _ & Hdr).
  remember (clearTimeout (connectionTimeoutRef s) s) as s1 eqn:Hs1.
  clear Hs1. unfold track, peer_of.
  cbn [channelRef set_failedPeersRef set_isMatchmakerRef set_partnerPeerId
       set_status conns].
  rewrite Hch, Hc.
  destruct (channelRef s);
    cbn [userProfile set_tracked set_failedPeersRef set_isMatchmakerRef
         set_partnerPeerId set_status];
    rewrite Hu; destruct (userProfile s); unfold conn_send;
    cbn [status partnerPeerId mainConnRef isMatchmakerRef messages conns
         disconnectReason
         set_conns set_tracked set_failedPeersRef set_isMatchmakerRef
         set_partnerPeerId set_status];
    rewrite ?Hm, ?Hc, ?Hms, ?Hdr; by repeat split.
Qed.

Lemma step_ConnOpen b c p md fs s :
  s.(conns) !! c = Some (mkConn p false false (Some md) fs) →
  step b (ConnOpen c) s
  = Some (conn_on_open (is_random md) c (set_open c true s)).
Proof. intros Hc. simpl. by rewrite Hc. Qed.

Lemma sendMessage_elsewhere tx replyTo isVanish now_id now_ts c s1 :
  s1.(mainConnRef) ≠ Some c →
  let s2 := sendMessage tx replyTo isVanish now_id now_ts s1 in
  (∃ m, s2.(messages) = s1.(messages) ++ [m])
  ∧ frames_to c s2 = frames_to c s1
  ∧ (s1.(mainConnRef) = None → s2.(conns) = s1.(conns)).
Proof.
  intros Hm. cbv zeta. unfold sendMessage. cbv zeta. split; [|split].
  - eexists. unfold send_if_open.
    destruct (main_open _); [|reflexivity].
    cbn [mainConnRef set_messages].
    destruct (mainConnRef s1); reflexivity.
  - unfold send_if_open.
    destruct (main_open _); [|reflexivity].
    cbn [mainConnRef set_messages].
    destruct (mainConnRef s1) as [c'|] eqn:Hc'; [|reflexivity].
    rewrite frames_to_conn_send_ne by congruence. reflexivity.
  - intros Hnone. rewrite send_if_open_closed; [reflexivity|].
    unfold main_open. cbn [mainConnRef set_messages]. by rewrite Hnone.
Qed.

Lemma conn_on_open_primary_opened p fs c s :
  s.(conns) !! c = Some (mkConn p false false (Some Random) fs) →
  (conn_on_open true c (set_open c true s)).(partnerPeerId) = Some p
  ∧ (conn_on_open true c (set_open c true s)).(mainConnRef) = s.(mainConnRef)
  ∧ conn_open <$> (conn_on_open true c (set_open c true s)).(conns) !! c
    = Some true.
Proof.
  intros Hc.
  destruct (conn_on_open_primary c (set_open c true s))
    as (_ & Hpp & Hmain & _ & _ & _ & Hconns).
  split; [|split; [exact Hmain|]].
  - rewrite Hpp. unfold peer_of, set_open. cbn [conns set_conns].
    by rewrite list_lookup_alter_eq, Hc.
  - rewrite Hconns. unfold set_open. cbn [userProfile conns set_conns].
    destruct (userProfile s);
      rewrite ?list_lookup_alter_eq, Hc; reflexivity.
Qed.

(** X12. A connection set up as primary still ends the search when it
    opens after the primary reference has let go of it (after a
    ['peer-unavailable'] error, say).  The session then shows Connected
    with that connection's peer as partner, while the primary reference
    is what it was; whatever is sent afterwards is appended to the
    conversation, and none of it is handed to the connection that
    opened. *)
Theorem unreferenced_primary_opens b s c p fs :
  s.(conns) !! c = Some (mkConn p false false (Some Random) fs) →
  s.(mainConnRef) ≠ Some c →
  ∃ s',
    step b (ConnOpen c) s = Some s'
    ∧ s'.(status) = CONNECTED
    ∧ s'.(partnerPeerId) = Some p
    ∧ s'.(mainConnRef) = s.(mainConnRef)
    ∧ conn_open <$> s'.(conns) !! c = Some true
    ∧ ∀ tx replyTo isVanish now_id now_ts,
        let s'' := sendMessage tx replyTo isVanish now_id now_ts s' in
        (∃ m, s''.(messages) = s'.(messages) ++ [m])
        ∧ frames_to c s'' = frames_to c s'
        ∧ (s.(mainConnRef) = None → s''.(conns) = s'.(conns)).
Proof.
  intros Hc Hm.
  exists (conn_on_open true c (set_open c true s)).
  split; [exact (step_ConnOpen b c p Random fs s Hc)|].
  destruct (conn_on_open_primary_opened p fs c s Hc) as (Hpp & Hmain & Hopen).
  pose proof (proj1 (conn_on_open_primary c (set_open c true s))) as Hst.
  remember (conn_on_open true c (set_open c true s)) as s1 eqn:Hs1.
  clear Hs1.
  split; [done|]. split; [done|]. split; [done|]. split; [done|].
  intros tx replyTo isVanish now_id now_ts.
  rewrite <- Hmain in Hm |- *.
  apply (sendMessage_elsewhere tx replyTo isVanish now_id now_ts c s1 Hm).
Qed.

Lemma unreferenced_primary_opens_witness :
  ∃ s', step true (ConnOpen 0) st_adrift = Some s'
        ∧ s'.(status) = CONNECTED ∧ s'.(partnerPeerId) = Some "T"
        ∧ s'.(mainConnRef) = None.
Proof.
  assert (Hc : st_adrift.(conns) !! 0%nat
               = Some (mkConn "T" false false (Some Random) []))
    by reflexivity.
  assert (Hm : st_adrift.(mainConnRef) ≠ Some 0%nat) by done.
  destruct (unreferenced_primary_opens true st_adrift 0 "T" [] Hc Hm)
    as (s' & Hstep & Hst & Hpp & Hm' & _).
  exists s'. by repeat split.
Defined.

Lemma step_ConnClose b c p cl md fs s :
  s.(conns) !! c = Some (mkConn p true cl (Some md) fs) →
  step b (ConnClose c) s
  = Some (conn_on_close (is_random md) c (set_open c false s)).
Proof. intros Hc. simpl. by rewrite Hc. Qed.

Lemma send_direct_absent peerId frame s :
  s.(directConnsRef) !! peerId = None → send_direct peerId frame s = s.
Proof. unfold send_direct. by intros ->. Qed.

(** X13. The direct-connection map has room for one connection per peer,
    and a close event clears the peer's entry whichever connection it
    held.  With two open direct connections to the same peer, the close
    of one leaves the other open with its listeners, still delivering
    what the peer sends, but [isPeerConnected] answers false, the peer is
    no longer among the active direct connections, and every direct send
    to the peer is dropped. *)
Theorem closing_one_of_two_direct b s p c0 c1 cn0 cn1 :
  c0 ≠ c1 →
  s.(conns) !! c0 = Some cn0 → s.(conns) !! c1 = Some cn1 →
  cn0.(conn_peer) = p → cn1.(conn_peer) = p →
  cn0.(conn_open) = true → cn1.(conn_open) = true →
  cn0.(conn_role) = Some Direct → cn1.(conn_role) = Some Direct →
  ∃ s',
    step b (ConnClose c1) s = Some s'
    ∧ s'.(conns) !! c0 = Some cn0
    ∧ isPeerConnected p s' = false
    ∧ (p ∉ s'.(activeDirectConnections))
    ∧ (∀ frame, send_direct p frame s' = s')
    ∧ ∀ payload now_ts now_id,
        payload.(f_type) = F_message →
        ∃ s'' m,
          step b (ConnData c0 payload now_ts now_id) s' = Some s''
          ∧ s''.(incomingDirectMessage) = Some (mkDirectMsg p m).
Proof.
  intros Hne H0 H1 Hp0 Hp1 Ho0 Ho1 Hr0 Hr1.
  exists (conn_on_close false c1 (set_open c1 false s)).
  destruct cn1 as [p1 o1 cl1 r1 fs1]. simpl in Hp1, Ho1, Hr1. subst p1 o1 r1.
  split; [by rewrite (step_ConnClose b c1 p cl1 Direct fs1)|].
  assert (Hpeer : peer_of c1 (set_open c1 false s) = p).
  { unfold peer_of, set_open. cbn [conns set_conns].
    by rewrite list_lookup_alter_eq, H1. }
  assert (Hc0 : conns (conn_on_close false c1 (set_open c1 false s)) !! c0
                = Some cn0).
  { unfold conn_on_close, set_open.
    cbn [conns set_conns set_activeDirectConnections
         set_directPeerProfilesRef set_directConnsRef].
    by rewrite list_lookup_alter_ne. }
  assert (Hd : directConnsRef (conn_on_close false c1 (set_open c1 false s))
               !! p = None).
  { unfold conn_on_close.
    cbn [directConnsRef set_activeDirectConnections
         set_directPeerProfilesRef set_directConnsRef].
    rewrite Hpeer. apply lookup_delete_eq. }
  assert (Ha : p ∉ activeDirectConnections
                     (conn_on_close false c1 (set_open c1 false s))).
  { unfold conn_on_close.
    cbn [activeDirectConnections set_activeDirectConnections
         set_directPeerProfilesRef set_directConnsRef].
    rewrite Hpeer. apply not_elem_of_difference. right.
    by apply elem_of_singleton. }
  remember (conn_on_close false c1 (set_open c1 false s)) as s1 eqn:Hs1.
  clear Hs1 Hpeer.
  split; [done|]. split; [unfold isPeerConnected; by rewrite Hd|].
  split; [done|]. split; [intros frame; by apply send_direct_absent|].
  intros payload now_ts now_id Ht.
  rewrite (step_ConnData b c0 cn0 Direct payload now_ts now_id s1) by done.
  eexists _, _. split; [reflexivity|].
  change (is_random Direct) with false. unfold conn_on_data. rewrite Ht.
  cbn [incomingDirectMessage set_incomingDirectMessage]. unfold peer_of.
  by rewrite Hc0, <- Hp0.
Qed.

Lemma closing_one_of_two_direct_witness :
  ∃ s', step true (ConnClose 1) st_twice = Some s'
        ∧ conn_open <$> s'.(conns) !! 0%nat = Some true
        ∧ isPeerConnected "bob" s' = false.
Proof.
  assert (H0 : ∃ cn, st_twice.(conns) !! 0%nat = Some cn
                     ∧ cn.(conn_peer) = "bob" ∧ cn.(conn_open) = true
                     ∧ cn.(conn_role) = Some Direct)
    by (eexists; vm_compute; repeat split; reflexivity).
  assert (H1 : ∃ cn, st_twice.(conns) !! 1%nat = Some cn
                     ∧ cn.(conn_peer) = "bob" ∧ cn.(conn_open) = true
                     ∧ cn.(conn_role) = Some Direct)
    by (eexists; vm_compute; repeat split; reflexivity).
  destruct H0 as (cn0 & H0 & Hp0 & Ho0 & Hr0).
  destruct H1 as (cn1 & H1 & Hp1 & Ho1 & Hr1).
  destruct (closing_one_of_two_direct true st_twice "bob" 0 1 cn0 cn1)
    as (s' & Hstep & Hc0 & Hconn & _); try done.
  exists s'. split; [done|]. split; [|done]. by rewrite Hc0, <- Ho0.
Defined.

(** ** What a call does to the session *)

Lemma session_track st s : session (track st s) = session s.
Proof. unfold track. by destruct (channelRef s). Qed.

Lemma session_clearTimeout t s : session (clearTimeout t s) = session s.
Proof. by destruct t. Qed.

Lemma session_conn_send c frame s : session (conn_send c frame s) = session s.
Proof. reflexivity. Qed.

Lemma session_set_open c o s : session (set_open c o s) = session s.
Proof. reflexivity. Qed.

Lemma session_send_if_open frame s : session (send_if_open frame s) = session s.
Proof. unfold send_if_open. repeat case_match; reflexivity. Qed.

Lemma session_send_direct peerId frame s :
  session (send_direct peerId frame s) = session s.
Proof. unfold send_direct. repeat case_match; reflexivity. Qed.

Lemma session_handleMainDisconnect reason s :
  session (handleMainDisconnect reason s) = (DISCONNECTED, Some reason, None).
Proof.
  unfold session.
  by destruct (handleMainDisconnect_spec reason s)
    as (-> & -> & _ & _ & -> & _).
Qed.

Lemma statusRef_handleMainDisconnect reason s :
  (handleMainDisconnect reason s).(statusRef) = s.(statusRef).
Proof. apply handleMainDisconnect_spec. Qed.

Lemma session_conn_on_close isMain c s :
  session (conn_on_close isMain c s)
  = if isMain && bool_decide (s.(statusRef) = CONNECTED)
    then (DISCONNECTED, Some "network", None) else session s.
Proof.
  unfold conn_on_close. destruct isMain; [|reflexivity]. simpl.
  case_bool_decide; [apply session_handleMainDisconnect|].
  by case_bool_decide.
Qed.

Lemma session_conn_on_error isMain c s :
  session (conn_on_error isMain c s)
  = if isMain && bool_decide (s.(statusRef) = CONNECTED)
    then (DISCONNECTED, Some "network", None) else session s.
Proof.
  unfold conn_on_error. destruct isMain; [|reflexivity]. simpl.
  case_bool_decide; [apply session_handleMainDisconnect|reflexivity].
Qed.

Lemma statusRef_conn_close b c s :
  (conn_close b c s).(statusRef) = s.(statusRef).
Proof. apply same_env_conn_close. Qed.

(** Closing a connection leaves the session alone unless its primary
    ['close'] listener runs while the rendered status is Connected. *)
Lemma session_conn_close b c s :
  s.(statusRef) ≠ CONNECTED
  ∨ (∀ cn, s.(conns) !! c = Some cn →
           cn.(conn_open) = false ∨ cn.(conn_role) ≠ Some Random) →
  session (conn_close b c s) = session s.
Proof.
  intros Hq. unfold conn_close.
  destruct (conns s !! c) as [cn|] eqn:Hc; [|reflexivity].
  destruct (b && conn_open cn) eqn:Ho; [|reflexivity].
  destruct (conn_role cn) as [md|] eqn:Hr; [|reflexivity].
  rewrite session_conn_on_close.
  cbn [statusRef set_conns].
  apply andb_true_iff in Ho as [_ Ho].
  destruct Hq as [Hq | Hq].
  - by rewrite (bool_decide_eq_false_2 _ Hq), andb_false_r.
  - destruct (Hq cn eq_refl) as [Hq' | Hq']; [congruence|].
    destruct md; [done|reflexivity].
Qed.

Lemma lookup_fresh_conn remote s cn :
  (s.(conns) ++ [mkConn remote false false None []]) !! length s.(conns)
  = Some cn →
  cn = mkConn remote false false None [].
Proof. rewrite lookup_snoc_length. by intros [= <-]. Qed.

Lemma session_setupConnection b c md s :
  (∀ cn, s.(conns) !! c = Some cn → cn.(conn_open) = false) →
  session (setupConnection b c md s) = session s.
Proof.
  intros Hc. unfold setupConnection.
  destruct (is_random md); [|reflexivity].
  destruct (mainConnRef s); [|reflexivity].
  apply session_conn_close. right. intros cn Hcn. left. by apply Hc.
Qed.

Lemma session_new_conn b remote md s :
  session
    (setupConnection b (length s.(conns)) md
       (set_conns (s.(conns) ++ [mkConn remote false false None []]) s))
  = session s.
Proof.
  rewrite session_setupConnection; [reflexivity|].
  intros cn Hcn. cbn [conns set_conns] in Hcn.
  by rewrite (lookup_fresh_conn remote s cn Hcn).
Qed.

Lemma session_peer_on_connection b remote meta s :
  session (peer_on_connection b remote meta s) = session s.
Proof.
  unfold peer_on_connection. cbv zeta.
  assert (Hclose : session
            (conn_close b (length (conns s))
               (set_conns (conns s ++ [mkConn remote false false None []]) s))
          = session s).
  { rewrite session_conn_close; [reflexivity|].
    right. intros cn Hcn. cbn [conns set_conns] in Hcn.
    rewrite (lookup_fresh_conn remote s cn Hcn). by left. }
  destruct meta as [[|]|]; [| |reflexivity].
  - cbn [statusRef mainConnRef set_conns].
    destruct (_ && _); [exact Hclose|].
    destruct (bool_decide (is_Some (mainConnRef s))); [exact Hclose|].
    apply session_new_conn.
  - apply session_new_conn.
Qed.

Lemma session_peer_on_error unavailable s :
  session (peer_on_error unavailable s) = session s.
Proof. unfold peer_on_error. repeat case_match; reflexivity. Qed.

Lemma session_attemptMatch r s : session (attemptMatch r s) = session s.
Proof. unfold attemptMatch. repeat case_match; reflexivity. Qed.

Lemma session_checkOffline msgs s : session (checkOffline msgs s) = session s.
Proof. unfold checkOffline. by destruct (last msgs). Qed.

Lemma session_timeout_callback b conn target s :
  session (timeout_callback b conn target s) = session s.
Proof.
  unfold timeout_callback.
  destruct (bool_decide (statusRef s = SEARCHING)) eqn:Hs; [|reflexivity].
  destruct (negb (main_open s)); [|reflexivity]. simpl.
  apply bool_decide_eq_true in Hs.
  change (session (conn_close b conn s) = session s).
  apply session_conn_close. left. by rewrite Hs.
Qed.

Lemma session_jitter_callback b target outcome s :
  session (jitter_callback b target outcome s) = session s.
Proof.
  unfold jitter_callback.
  destruct (bool_decide (statusRef s ≠ SEARCHING)
            || bool_decide (is_Some (mainConnRef s))); [reflexivity|].
  destruct target as [t|]; [|reflexivity].
  destruct (peerRef s); [|reflexivity].
  destruct outcome; [|reflexivity|reflexivity].
  cbv zeta. cbn [conns set_dialed].
  pose proof (session_new_conn b (ps_peerId t) Random
                (set_dialed (dialed s ++ [ps_peerId t]) s)) as H1.
  cbn [conns set_dialed] in H1.
  remember (setupConnection b (length (conns s)) Random _) as s1 eqn:Hs1.
  clear Hs1.
  pose proof (session_clearTimeout (connectionTimeoutRef s1) s1) as H2.
  remember (clearTimeout (connectionTimeoutRef s1) s1) as s2 eqn:Hs2.
  clear Hs2. unfold setTimeout.
  change (session s2 = session s). by rewrite H2, H1.
Qed.

Lemma session_conn_on_open isMain c s :
  session (conn_on_open isMain c s)
  = if isMain then (CONNECTED, s.(disconnectReason), Some (peer_of c s))
    else session s.
Proof.
  destruct isMain.
  - unfold session.
    by destruct (conn_on_open_primary c s) as (-> & -> & _ & _ & _ & -> & _).
  - unfold conn_on_open. by destruct (userProfile s).
Qed.

Lemma session_conn_on_data b isMain c payload now_ts now_id s :
  session (conn_on_data b isMain c payload now_ts now_id s)
  = if isMain && bool_decide (payload.(f_type) = F_disconnect)
    then (DISCONNECTED, Some "explicit", None) else session s.
Proof.
  unfold conn_on_data.
  destruct (f_type payload); rewrite ?andb_false_r;
    try (repeat case_match; reflexivity).
  destruct isMain; [|reflexivity].
  apply session_handleMainDisconnect.
Qed.

Lemma session_connect s :
  session (connect s)
  = if truthy s.(renderedPeerId) then (SEARCHING, None, s.(partnerPeerId))
    else session s.
Proof.
  unfold connect. destruct (truthy (renderedPeerId s)); [|reflexivity]. simpl.
  by rewrite session_track.
Qed.

Lemma send_unguarded_cases c frame s :
  send_unguarded c frame s = s
  ∨ send_unguarded c frame s = conn_send c frame s
  ∨ ∃ cn, s.(conns) !! c = Some cn
          ∧ cn.(conn_open) = false ∧ cn.(conn_role) = Some Random
          ∧ send_unguarded c frame s = conn_on_error true c s.
Proof.
  unfold send_unguarded.
  destruct (conns s !! c) as [cn|] eqn:Hc; [|by left].
  destruct (conn_open cn) eqn:Ho; [right; by left|].
  destruct (conn_role cn) as [[|]|] eqn:Hr; [|by left|by left].
  right. right. by exists cn.
Qed.

(** [disconnect] is made of a send or the ['error'] listener, a close,
    the teardown and the last [setStatus]: a reflexive and transitive
    relation that each of them keeps is kept by [disconnect]. *)
Lemma disconnect_composed (R : State → State → Prop) b :
  (∀ s, R s s) →
  (∀ s1 s2 s3, R s1 s2 → R s2 s3 → R s1 s3) →
  (∀ c frame s, R s (conn_send c frame s)) →
  (∀ c s, R s (conn_on_error true c s)) →
  (∀ c s, R s (conn_close b c s)) →
  (∀ reason s, R s (handleMainDisconnect reason s)) →
  (∀ v s, R s (set_status v s)) →
  ∀ s, R s (disconnect b s).
Proof.
  intros Hrefl Htrans Hsend Herr Hclose Hhmd Hset s.
  assert (Hend : ∀ s1, R s s1 →
            R s (set_status IDLE (handleMainDisconnect "local_network" s1))).
  { intros s1 H1. eapply Htrans; [exact H1|].
    eapply Htrans; [apply Hhmd|apply Hset]. }
  rewrite disconnect_eq. unfold signal_and_close.
  destruct (mainConnRef s) as [c|]; [|by apply Hend].
  assert (H1 : R s (send_unguarded c frame_disconnect s)).
  { destruct (send_unguarded_cases c frame_disconnect s)
      as [-> | [-> | (cn & _ & _ & _ & ->)]]; auto. }
  remember (send_unguarded c frame_disconnect s) as s1 eqn:Hs1. clear Hs1.
  destruct (mainConnRef s1) as [c'|]; [|exact H1].
  apply Hend. eapply Htrans; [exact H1|apply Hclose].
Qed.

Lemma mainConnRef_conn_on_error c s :
  (conn_on_error true c s).(mainConnRef) = None.
Proof.
  unfold conn_on_error. case_bool_decide; [|reflexivity].
  by destruct (handleMainDisconnect_spec "network" s)
    as (_ & _ & _ & _ & _ & _ & -> & _).
Qed.

(** [disconnect] on an unopened primary connection is that connection's
    ['error'] listener and nothing more. *)
Lemma disconnect_unopened b s c :
  unopened_primary s c → disconnect b s = conn_on_error true c s.
Proof.
  intros (Hm & cn & Hc & Ho & Hr).
  unfold disconnect, signal_and_close. rewrite Hm.
  assert (Hsu : send_unguarded c frame_disconnect s = conn_on_error true c s).
  { unfold send_unguarded. by rewrite Hc, Ho, Hr. }
  rewrite Hsu. by rewrite mainConnRef_conn_on_error.
Qed.

(** In every other state [disconnect] runs to its end. *)
Lemma disconnect_completes b s :
  (∀ c, ¬ unopened_primary s c) →
  ∃ s1, signal_and_close b s = Done s1.
Proof.
  intros Hno. unfold signal_and_close.
  destruct (mainConnRef s) as [c|] eqn:Hm; [|by eexists].
  destruct (send_unguarded_cases c frame_disconnect s)
    as [-> | [-> | (cn & Hc & Ho & Hr & _)]].
  - rewrite Hm. by eexists.
  - cbn [mainConnRef conn_send set_conns]. rewrite Hm. by eexists.
  - exfalso. apply (Hno c). split; [done|]. by exists cn.
Qed.

Lemma session_disconnect b s :
  (∀ c, ¬ unopened_primary s c) →
  session (disconnect b s) = (IDLE, Some "local_network", None).
Proof.
  intros Hno. rewrite disconnect_eq.
  destruct (disconnect_completes b s Hno) as [s1 ->].
  pose proof (session_handleMainDisconnect "local_network" s1) as H.
  remember (handleMainDisconnect "local_network" s1) as s2 eqn:Hs2.
  clear Hs2. unfold session in *. cbn [status disconnectReason partnerPeerId
    set_status]. by injection H as _ -> ->.
Qed.

Lemma unopened_primary_dec s :
  (∃ c, unopened_primary s c) ∨ (∀ c, ¬ unopened_primary s c).
Proof.
  unfold unopened_primary.
  destruct (mainConnRef s) as [c|]; [|right; by intros c [? _]].
  destruct (conns s !! c) as [cn|] eqn:Hc.
  2:{ right. intros c' [[= <-] (cn & Hc' & _)]. congruence. }
  destruct (conn_open cn) eqn:Ho.
  { right. intros c' [[= <-] (cn' & Hc' & Ho' & _)]. congruence. }
  destruct (decide (conn_role cn = Some Random)) as [Hr | Hr].
  - left. exists c. split; [done|]. by exists cn.
  - right. intros c' [[= <-] (cn' & Hc' & _ & Hr')]. congruence.
Qed.

Lemma session_set_messages ms s : session (set_messages ms s) = session s.
Proof. reflexivity. Qed.

Lemma session_callPeer b peerId outcome s :
  session (callPeer b peerId outcome s) = session s.
Proof.
  unfold callPeer.
  destruct (match directConnsRef s !! peerId with
            | Some c => from_option conn_open false (conns s !! c)
            | None => false
            end); [reflexivity|].
  destruct (peerRef s); [|reflexivity].
  destruct outcome; [|reflexivity ..].
  apply session_new_conn.
Qed.

Lemma session_vanish_tick now s : session (vanish_tick now s) = session s.
Proof. unfold vanish_tick. by destruct (existsb _ _). Qed.

Lemma session_handleSendMessage inputText replyingTo vanishMode now_id now_ts s :
  session (handleSendMessage inputText replyingTo vanishMode now_id now_ts s)
  = session s.
Proof.
  unfold handleSendMessage. destruct (blank inputText); [reflexivity|].
  cbv zeta. unfold sendTyping. rewrite session_send_if_open.
  unfold sendMessage. cbv zeta.
  destruct vanishMode; rewrite ?session_set_messages;
    by rewrite session_send_if_open.
Qed.

Lemma primary_to_lookup s c p o cl fs :
  s.(conns) !! c = Some (mkConn p o cl (Some Random) fs) → primary_to s c p.
Proof. intros Hc. by eexists. Qed.

Lemma call_explains b k s s' :
  call b k s = Some s' → explains k s s'.
Proof.
  intros Hcall.
  assert (Hq : ∀ s1 : State, Some s1 = Some s' → session s1 = session s →
                 explains k s s').
  { intros s1 [= <-] Hs. by left. }
  destruct k as [e| | | | | | | | | | | | |];
    cbv beta iota zeta delta [call] in Hcall.
  2-14: eapply Hq; [exact Hcall|].
  - destruct e; cbv beta iota zeta delta [step] in Hcall.
    + eapply Hq; [exact Hcall|]. reflexivity.
    + destruct (peerRef s && truthy (Some id)); [|done].
      eapply Hq; [exact Hcall|]. reflexivity.
    + destruct (peerRef s); [|done]. eapply Hq; [exact Hcall|].
      apply session_peer_on_connection.
    + destruct (peerRef s); [|done]. eapply Hq; [exact Hcall|].
      apply session_peer_on_error.
    + destruct (channelRef s); [|done]. eapply Hq; [exact Hcall|].
      apply session_track.
    + destruct (channelRef s); [|done]. eapply Hq; [exact Hcall|].
      reflexivity.
    + destruct (unit_draw r && bool_decide (statusRef s = SEARCHING)); [|done].
      eapply Hq; [exact Hcall|]. apply session_attemptMatch.
    + destruct (truthy (renderedPeerId s)); [|done]. eapply Hq; [exact Hcall|].
      apply session_checkOffline.
    + destruct (timers s !! t) as [[body [|]]|]; [|done|done].
      pose proof (session_clearTimeout (Some t) s) as H1.
      remember (clearTimeout (Some t) s) as s1 eqn:Hs1. clear Hs1.
      destruct body as [target|c p]; (eapply Hq; [exact Hcall|]).
      * by rewrite session_jitter_callback.
      * by rewrite session_timeout_callback.
    + destruct (conns s !! c) as [[p [|] [|] [md|] fs]|] eqn:Hc; try done.
      injection Hcall as <-.
      destruct md; [|left; by rewrite session_conn_on_open].
      right. left. exists c, p. split; [done|].
      split; [by eapply primary_to_lookup|].
      rewrite session_conn_on_open. cbn [disconnectReason set_open set_conns].
      do 2 f_equal. unfold peer_of, set_open. cbn [conns set_conns].
      by rewrite list_lookup_alter_eq, Hc.
    + destruct (conns s !! c) as [[p [|] cl [md|] fs]|] eqn:Hc; try done.
      injection Hcall as <-.
      pose proof (session_conn_on_data b (is_random md) c payload now_ts
                    now_id s) as Hs.
      destruct md; [|by left]. change (is_random Random) with true in *.
      case_bool_decide as Ht; [|by left].
      right. right. right. left. exists c, p, payload, now_ts, now_id.
      split; [done|]. split; [done|]. split; [|done].
      by eapply primary_to_lookup.
    + destruct (conns s !! c) as [[p [|] cl [md|] fs]|] eqn:Hc; try done.
      injection Hcall as <-.
      pose proof (session_conn_on_close (is_random md) c (set_open c false s))
        as Hs.
      destruct md; [|by left]. change (is_random Random) with true in *.
      cbn [statusRef set_open set_conns] in Hs.
      case_bool_decide as Ht; [|by left].
      right. right. left. exists c, p. split; [by left|].
      split; [by eapply primary_to_lookup|]. by split.
    + destruct (conns s !! c) as [[p o cl [md|] fs]|] eqn:Hc; try done.
      injection Hcall as <-.
      pose proof (session_conn_on_error (is_random md) c s) as Hs.
      destruct md; [|by left]. change (is_random Random) with true in *.
      case_bool_decide as Ht; [|by left].
      right. right. left. exists c, p. split; [by right|].
      split; [by eapply primary_to_lookup|]. by split.
    + injection Hcall as <-. pose proof (session_connect s) as Hs.
      destruct (truthy (renderedPeerId s)) eqn:Hid; [|by left].
      right. right. right. right. left. by repeat split.
    + injection Hcall as <-.
      destruct (unopened_primary_dec s) as [[c Hun] | Hno].
      * rewrite (disconnect_unopened b s c Hun).
        pose proof (session_conn_on_error true c s) as Hs.
        case_bool_decide as Ht; [|by left].
        do 6 right. exists c. split; [done|]. split; [done|].
        split; [done|]. exact Hs.
      * do 5 right. left. split; [done|]. split; [done|].
        by apply session_disconnect.
    + eapply Hq; [exact Hcall|]. unfold sendMessage.
      by rewrite session_send_if_open.
    + eapply Hq; [exact Hcall|]. unfold sendImage.
      by rewrite session_send_if_open.
    + eapply Hq; [exact Hcall|]. unfold sendAudio.
      by rewrite session_send_if_open.
    + eapply Hq; [exact Hcall|]. apply session_callPeer.
  - unfold sendReaction. by rewrite session_send_if_open.
  - unfold editMessage. by rewrite session_send_if_open.
  - apply session_send_if_open.
  - apply session_send_if_open.
  - apply session_send_if_open.
  - apply session_track.
  - apply session_send_direct.
  - apply session_send_direct.
  - apply session_send_direct.
  - apply session_send_direct.
  - apply session_send_direct.
  - apply session_vanish_tick.
  - apply session_handleSendMessage.
Qed.

(** X14. The table of the session's transitions.  A call into the hook
    leaves the status, the disconnect reason and the partner's peer id as
    they are, unless it is: the opening of a connection with the primary
    listeners (Connected, with that connection's peer as partner); the
    close or error of such a connection while the rendered status is
    Connected (Disconnected, reason "network"); a ['disconnect'] frame on
    such a connection (Disconnected, reason "explicit"); [connect] with a
    rendered peer id (Searching, reason cleared); [disconnect] while the
    primary reference holds no unopened connection with the primary
    listeners (Idle, reason "local_network"); or [disconnect] on such an
    unopened connection while the rendered status is Connected, where the
    failed send runs the ['error'] listener and [disconnect] ends there
    (Disconnected, reason "network").  In particular no call makes the
    status Waiting or Error. *)
Theorem session_transitions b k s s' :
  call b k s = Some s' → explains k s s'.
Proof. apply call_explains. Qed.

Lemma session_transitions_witness :
  ∃ s', call true (Loop Disconnect) st_connected = Some s'
        ∧ explains (Loop Disconnect) st_connected s'.
Proof.
  eexists. split; [reflexivity|].
  apply (session_transitions true (Loop Disconnect) st_connected).
  reflexivity.
Defined.

(** ** The sessions that occur *)

Lemma calls_app b ks1 ks2 s :
  calls b (ks1 ++ ks2) s
  = match calls b ks1 s with
    | Some s1 => calls b ks2 s1
    | None => None
    end.
Proof.
  revert s. induction ks1 as [|k ks1 IH]; intros s; simpl; [done|].
  destruct (call b k s); [apply IH|done].
Qed.

Lemma calls_of_run b es s :
  calls b (Loop <$> es) s = run b es s.
Proof.
  revert s. induction es as [|e es IH]; intros s; simpl; [done|].
  destruct (step b e s); [apply IH|done].
Qed.

Lemma reached_of_reachable b s : reachable b s → reached b s.
Proof.
  intros (profile & es & Hrun). exists profile, (Loop <$> es).
  by rewrite calls_of_run.
Qed.

Lemma reached_invariant (P : State → Prop) b :
  (∀ profile, P (initial profile)) →
  (∀ k s s', P s → call b k s = Some s' → P s') →
  ∀ s, reached b s → P s.
Proof.
  intros Hinit Hstep s (profile & ks & Hks).
  assert (Hgen : ∀ ks s0, P s0 → calls b ks s0 = Some s → P s).
  { clear ks Hks. induction ks as [|k ks IH]; intros s0 H0 Hks; simpl in Hks.
    - by injection Hks as <-.
    - destruct (call b k s0) as [s1|] eqn:Hk; [|done].
      apply (IH s1); [|done]. by eapply Hstep. }
  by apply (Hgen ks (initial profile)).
Qed.

Lemma session_inv_call b k s s' :
  session_inv s → call b k s = Some s' → session_inv s'.
Proof.
  intros [Hr Hs] Hcall. apply call_explains in Hcall.
  unfold session_inv, explains, session in *.
  destruct Hcall as [H | [(c & p & _ & _ & H) | [(c & p & _ & _ & _ & H)
    | [(c & p & pl & ts & ni & _ & _ & _ & H) | [(_ & _ & H)
    | [(_ & _ & H) | (c & _ & _ & _ & H)]]]]]];
    injection H as H1 H2 H3; rewrite H1, H2, ?H3; try done.
  - split; [|by split; [left|]]. rewrite !elem_of_cons. auto.
  - split; [|by split; [right|]]. rewrite !elem_of_cons. auto.
  - split; [|done]. rewrite !elem_of_cons. auto.
  - split; [|by right]. rewrite !elem_of_cons. auto.
  - split; [|by split; [left|]]. rewrite !elem_of_cons. auto.
Qed.

Lemma reached_session b s : reached b s → session_inv s.
Proof.
  apply reached_invariant.
  - intros profile. split; [rewrite !elem_of_cons; auto|]. by left.
  - intros k s0 s'. apply session_inv_call.
Qed.

(** X15. The sessions that occur.  In every state the hook reaches from
    its mount, through whatever calls: the status is Idle, Searching,
    Connected or Disconnected, never Waiting or Error; the disconnect
    reason is null, "network", "explicit" or "local_network"; while
    Searching the reason is null; while Connected a partner peer id is
    set; while Disconnected the reason is "network" or "explicit" and no
    partner peer id is set; while Idle the reason is null or
    "local_network". *)
Theorem sessions_that_occur b s : reached b s → session_inv s.
Proof. apply reached_session. Qed.

Lemma sessions_that_occur_witness : session_inv st_connected.
Proof.
  apply (sessions_that_occur true), reached_of_reachable.
  apply st_connected_reachable.
Defined.

(** ** The text under "Chat Ended" *)

(** X16. What [getDisconnectMessage] can say.  After a [disconnect()]
    that runs to its end, which it does unless the primary reference
    holds an unopened connection with the primary listeners, it says "You
    disconnected due to an internet issue.".  On such an unopened
    connection [disconnect()] is the connection's ['error'] listener and
    no more: the text is then "The user disconnected due to an internet
    issue." if the rendered status was Connected, and what it was
    otherwise.  In every state the hook reaches, it says "You
    disconnected due to an internet issue.", or "You ended the chat."
    when the status is Idle and no disconnect reason is set, or "The user
    ended the chat." after a ['disconnect'] frame, or "The user
    disconnected due to an internet issue." after the loss of the primary
    connection; it never says "The user went offline.". *)
Theorem chat_ended_text b s :
  ((∀ c, ¬ unopened_primary s c) →
   getDisconnectMessage (disconnect b s)
   = "You disconnected due to an internet issue.")
  ∧ (∀ c, unopened_primary s c →
       disconnect b s = conn_on_error true c s
       ∧ getDisconnectMessage (disconnect b s)
         = if bool_decide (s.(statusRef) = CONNECTED)
           then "The user disconnected due to an internet issue."
           else getDisconnectMessage s)
  ∧ (reached b s →
     getDisconnectMessage s ≠ "The user went offline."
     ∧ match s.(status) with
       | IDLE =>
           (s.(disconnectReason) = Some "local_network"
            ∧ getDisconnectMessage s
              = "You disconnected due to an internet issue.")
           ∨ (s.(disconnectReason) = None
              ∧ getDisconnectMessage s = "You ended the chat.")
       | DISCONNECTED =>
           (s.(disconnectReason) = Some "explicit"
            ∧ getDisconnectMessage s = "The user ended the chat.")
           ∨ (s.(disconnectReason) = Some "network"
              ∧ getDisconnectMessage s
                = "The user disconnected due to an internet issue.")
       | _ => True
       end).
Proof.
  split; [|split].
  - intros Hno. pose proof (session_disconnect b s Hno) as H.
    remember (disconnect b s) as s1 eqn:Hs1. clear Hs1.
    unfold session in H. injection H as Hst Hr _.
    unfold getDisconnectMessage. by rewrite Hr.
  - intros c Hun. rewrite (disconnect_unopened b s c Hun).
    split; [done|].
    pose proof (session_conn_on_error true c s) as H.
    remember (conn_on_error true c s) as s1 eqn:Hs1. clear Hs1.
    unfold session in H. cbn [andb] in H.
    case_bool_decide; injection H as Hst Hr _; unfold getDisconnectMessage;
      by rewrite Hst, Hr.
  - intros Hreach. destruct (reached_session b s Hreach) as [Hr Hs].
    unfold getDisconnectMessage.
    repeat (apply elem_of_cons in Hr as [Hr | Hr]);
      [| | | |by apply not_elem_of_nil in Hr];
      destruct (status s) eqn:Hst; rewrite ?Hr in Hs; rewrite Hr;
      simpl in Hs |- *;
      try (exfalso; clear -Hs; intuition congruence);
      (split; [done | first [done | left; by split | right; by split]]).
Qed.

Lemma chat_ended_text_witness :
  getDisconnectMessage st_connected ≠ "The user went offline."
  ∧ disconnect true st_dialing = conn_on_error true 0 st_dialing
  ∧ getDisconnectMessage (disconnect true st_dialing)
    = "The user ended the chat.".
Proof.
  destruct (chat_ended_text true st_connected) as (_ & _ & H3).
  destruct (chat_ended_text true st_dialing) as (_ & H2 & _).
  assert (Hun : unopened_primary st_dialing 0).
  { split; [vm_compute; reflexivity|]. eexists.
    split; [vm_compute; reflexivity|]. by split. }
  split; [apply H3, reached_of_reachable, st_connected_reachable|].
  destruct (H2 0%nat Hun) as [Heq Hmsg].
  split; [exact Heq|]. rewrite Hmsg. vm_compute. reflexivity.
Defined.

Lemma fresh_session_back b k s s' :
  call b k s = Some s' →
  s'.(status) = IDLE → s'.(disconnectReason) = None →
  session s = session s'.
Proof.
  intros Hcall Hst Hr. apply call_explains in Hcall.
  unfold explains, session in *.
  destruct Hcall as [H | [(c & p & _ & _ & H) | [(c & p & _ & _ & _ & H)
    | [(c & p & pl & ts & ni & _ & _ & _ & H) | [(_ & _ & H)
    | [(_ & _ & H) | (c & _ & _ & _ & H)]]]]]];
    injection H as H1 H2 H3; congruence.
Qed.

Lemma fresh_session_all_along b ks :
  ∀ s0 s, calls b ks s0 = Some s →
    s.(status) = IDLE → s.(disconnectReason) = None →
    session s0 = session s.
Proof.
  induction ks as [|k ks IH]; intros s0 s Hks Hst Hr; simpl in Hks.
  - by injection Hks as <-.
  - destruct (call b k s0) as [s1|] eqn:Hk; [|done].
    pose proof (IH s1 s Hks Hst Hr) as H1.
    rewrite <- H1. unfold session in H1. injection H1 as H1 H2 _.
    eapply fresh_session_back; [exact Hk| |]; congruence.
Qed.

(** X17. "You ended the chat." belongs to a session that never started.
    If a run of calls from the mount ends in a state that is Idle with no
    disconnect reason, the only one in which [getDisconnectMessage] says
    "You ended the chat.", then at every point of that run the status was
    Idle, the reason null and no partner set: no search was started and
    no chat ended. *)
Theorem ended_by_you_only_at_start b profile ks1 ks2 s1 s :
  calls b ks1 (initial profile) = Some s1 →
  calls b ks2 s1 = Some s →
  s.(status) = IDLE → s.(disconnectReason) = None →
  session s1 = (IDLE, None, None).
Proof.
  intros H1 H2 Hst Hr.
  pose proof (fresh_session_all_along b ks2 s1 s H2 Hst Hr) as Hs.
  assert (H12 : calls b (ks1 ++ ks2) (initial profile) = Some s)
    by (by rewrite calls_app, H1).
  pose proof (fresh_session_all_along b _ _ s H12 Hst Hr) as Hi.
  rewrite Hs, <- Hi. reflexivity.
Qed.

Lemma ended_by_you_only_at_start_witness :
  session (initial (Some alice)) = (IDLE, None, None).
Proof.
  apply (ended_by_you_only_at_start true (Some alice) [] [Loop Render]
           (initial (Some alice)) (render (initial (Some alice))));
    reflexivity.
Defined.

(** ** What the references hold *)

Lemma primary_to_shapes s c p :
  primary_to s c p ↔ shapes s !! c = Some (p, Some Random).
Proof.
  unfold primary_to, shapes. rewrite list_lookup_fmap. split.
  - intros (cn & -> & Hr & Hp). simpl. by rewrite Hr, Hp.
  - destruct (conns s !! c) as [cn|]; [|done]. simpl.
    intros [= Hp Hr]. by exists cn.
Qed.

Lemma direct_to_shapes s c p :
  direct_to s c p ↔ shapes s !! c = Some (p, Some Direct).
Proof.
  unfold direct_to, shapes. rewrite list_lookup_fmap. split.
  - intros (cn & -> & Hr & Hp). simpl. by rewrite Hr, Hp.
  - destruct (conns s !! c) as [cn|]; [|done]. simpl.
    intros [= Hp Hr]. by exists cn.
Qed.

Lemma shapes_alter (f : DataConnection → DataConnection) c
    (l : list DataConnection) :
  (∀ cn, conn_peer (f cn) = conn_peer cn ∧ conn_role (f cn) = conn_role cn) →
  (λ cn, (conn_peer cn, conn_role cn)) <$> alter f c l
  = (λ cn, (conn_peer cn, conn_role cn)) <$> l.
Proof.
  intros Hf.
  rewrite (list_fmap_alter (λ cn, (conn_peer cn, conn_role cn)) f id).
  - by apply list_alter_id.
  - apply Forall_forall. intros cn _. simpl.
    destruct (Hf cn) as [-> ->]. done.
Qed.

Lemma shapes_insert_closed c cn (l : list DataConnection) :
  l !! c = Some cn →
  (λ cn, (conn_peer cn, conn_role cn)) <$> <[c := closed_conn cn]> l
  = (λ cn, (conn_peer cn, conn_role cn)) <$> l.
Proof.
  intros Hc. rewrite list_fmap_insert. apply list_insert_id.
  by rewrite list_lookup_fmap, Hc.
Qed.

Lemma lets_go_refl s : lets_go s s.
Proof. split; [done|]. split; [by left|]. by split. Qed.

Lemma lets_go_trans s1 s2 s3 : lets_go s1 s2 → lets_go s2 s3 → lets_go s1 s3.
Proof.
  intros (S1 & M1 & D1 & A1) (S2 & M2 & D2 & A2).
  split; [congruence|]. split; [|split; [by etrans|auto]].
  destruct M2 as [M2 | M2]; [|by right]. rewrite M2. exact M1.
Qed.

(** A turn that leaves connections' peers and listeners and the three
    references alone. *)
Lemma lets_go_same s s' :
  shapes s' = shapes s → s'.(mainConnRef) = s.(mainConnRef) →
  s'.(directConnsRef) = s.(directConnsRef) →
  s'.(activeDirectConnections) = s.(activeDirectConnections) →
  lets_go s s'.
Proof.
  intros HS HM HD HA. split; [done|]. split; [by left|].
  split; [by rewrite HD|]. by rewrite HA, HD.
Qed.

(** ... or only lets go of the primary reference. *)
Lemma lets_go_main s s' :
  shapes s' = shapes s → s'.(mainConnRef) = None →
  s'.(directConnsRef) = s.(directConnsRef) →
  s'.(activeDirectConnections) = s.(activeDirectConnections) →
  lets_go s s'.
Proof.
  intros HS HM HD HA. split; [done|]. split; [by right|].
  split; [by rewrite HD|]. by rewrite HA, HD.
Qed.

Lemma shapes_conn_send c frame s : shapes (conn_send c frame s) = shapes s.
Proof. unfold shapes, conn_send. cbn [conns set_conns]. by apply shapes_alter. Qed.

Lemma shapes_set_open c o s : shapes (set_open c o s) = shapes s.
Proof. unfold shapes, set_open. cbn [conns set_conns]. by apply shapes_alter. Qed.

Lemma lets_go_track st s : lets_go s (track st s).
Proof. unfold track. destruct (channelRef s); by apply lets_go_same. Qed.

Lemma lets_go_clearTimeout t s : lets_go s (clearTimeout t s).
Proof. destruct t; by apply lets_go_same. Qed.

Lemma lets_go_conn_send c frame s : lets_go s (conn_send c frame s).
Proof. apply lets_go_same; [apply shapes_conn_send|done..]. Qed.

Lemma lets_go_set_open c o s : lets_go s (set_open c o s).
Proof. apply lets_go_same; [apply shapes_set_open|done..]. Qed.

Lemma lets_go_handleMainDisconnect reason s :
  lets_go s (handleMainDisconnect reason s).
Proof.
  unfold handleMainDisconnect, track.
  cbn [channelRef set_isMatchmakerRef set_mainConnRef set_messages
       set_remoteVanishMode set_partnerPeerId set_partnerProfile set_status
       set_disconnectReason].
  destruct (channelRef s); by apply lets_go_main.
Qed.

Lemma lets_go_conn_on_close isMain c s : lets_go s (conn_on_close isMain c s).
Proof.
  unfold conn_on_close. destruct isMain.
  - case_bool_decide; [apply lets_go_handleMainDisconnect|].
    case_bool_decide; [by apply lets_go_main|apply lets_go_refl].
  - split; [done|]. split; [by left|].
    cbn [directConnsRef activeDirectConnections set_activeDirectConnections
         set_directPeerProfilesRef set_directConnsRef].
    split; [apply delete_subseteq|].
    intros ->. by rewrite dom_delete_L.
Qed.

Lemma lets_go_conn_on_error isMain c s : lets_go s (conn_on_error isMain c s).
Proof.
  unfold conn_on_error. destruct isMain; [|apply lets_go_refl].
  case_bool_decide; [apply lets_go_handleMainDisconnect|].
  by apply lets_go_main.
Qed.

Lemma lets_go_conn_close b c s : lets_go s (conn_close b c s).
Proof.
  unfold conn_close. destruct (conns s !! c) as [cn|] eqn:Hc;
    [|apply lets_go_refl].
  assert (H1 : lets_go s (set_conns (<[c:=closed_conn cn]> (conns s)) s)).
  { apply lets_go_same; try done. unfold shapes. cbn [conns set_conns].
    by apply shapes_insert_closed. }
  destruct (b && conn_open cn); [|done].
  destruct (conn_role cn) as [md|]; [|done].
  eapply lets_go_trans; [exact H1|apply lets_go_conn_on_close].
Qed.

Lemma lets_go_conn_on_open isMain c s : lets_go s (conn_on_open isMain c s).
Proof.
  unfold conn_on_open. destruct isMain.
  - pose proof (lets_go_clearTimeout (connectionTimeoutRef s) s) as H1.
    remember (clearTimeout (connectionTimeoutRef s) s) as s1 eqn:Hs1.
    clear Hs1.
    assert (H2 : lets_go s1
              (track P_paired
                 (set_failedPeersRef ∅
                    (set_isMatchmakerRef false
                       (set_partnerPeerId
                          (Some (peer_of c (set_status CONNECTED s1)))
                          (set_status CONNECTED s1)))))).
    { eapply lets_go_trans; [|apply lets_go_track]. by apply lets_go_same. }
    remember (track P_paired _) as s2 eqn:Hs2. clear Hs2.
    eapply lets_go_trans; [exact H1|]. eapply lets_go_trans; [exact H2|].
    destruct (userProfile s2); [apply lets_go_conn_send|apply lets_go_refl].
  - destruct (userProfile s); [apply lets_go_conn_send|apply lets_go_refl].
Qed.

Lemma lets_go_set_messages ms s : lets_go s (set_messages ms s).
Proof. by apply lets_go_same. Qed.

Lemma lets_go_conn_on_data b isMain c payload now_ts now_id s :
  lets_go s (conn_on_data b isMain c payload now_ts now_id s).
Proof.
  unfold conn_on_data.
  destruct (f_type payload).
  - destruct isMain; [|by apply lets_go_same].
    destruct (truthy (f_id payload)); [|by apply lets_go_same].
    eapply lets_go_trans; [|apply lets_go_conn_send]. by apply lets_go_same.
  - repeat case_match; by apply lets_go_same.
  - repeat case_match; by apply lets_go_same.
  - destruct isMain; [|apply lets_go_refl].
    eapply lets_go_trans; [apply (lets_go_conn_close b c)|].
    apply lets_go_handleMainDisconnect.
  - repeat case_match; by apply lets_go_same.
  - apply lets_go_refl.
  - repeat case_match; by apply lets_go_same.
  - repeat case_match; by apply lets_go_same.
  - repeat case_match; by apply lets_go_same.
  - apply lets_go_refl.
  - apply lets_go_refl.
  - repeat case_match; by apply lets_go_same.
Qed.

Lemma lets_go_peer_on_error unavailable s :
  lets_go s (peer_on_error unavailable s).
Proof.
  unfold peer_on_error.
  destruct (unavailable && isMatchmakerRef s); [|apply lets_go_refl].
  cbn [statusRef set_isMatchmakerRef].
  case_bool_decide; [by apply lets_go_main|by apply lets_go_same].
Qed.

Lemma lets_go_attemptMatch r s : lets_go s (attemptMatch r s).
Proof. unfold attemptMatch. repeat case_match; by apply lets_go_same. Qed.

Lemma lets_go_checkOffline msgs s : lets_go s (checkOffline msgs s).
Proof. unfold checkOffline. destruct (last msgs); by apply lets_go_same. Qed.

Lemma lets_go_timeout_callback b conn target s :
  lets_go s (timeout_callback b conn target s).
Proof.
  unfold timeout_callback.
  destruct (bool_decide (statusRef s = SEARCHING) && negb (main_open s));
    [|apply lets_go_refl].
  pose proof (lets_go_conn_close b conn s) as H1.
  remember (conn_close b conn s) as s1 eqn:Hs1. clear Hs1.
  eapply lets_go_trans; [exact H1|]. by apply lets_go_main.
Qed.

Lemma lets_go_connect s : lets_go s (connect s).
Proof.
  unfold connect. destruct (negb (truthy (renderedPeerId s))); [apply lets_go_refl|].
  eapply lets_go_trans; [|apply lets_go_track]. by apply lets_go_same.
Qed.

Lemma lets_go_set_status v s : lets_go s (set_status v s).
Proof. by apply lets_go_same. Qed.

Lemma lets_go_disconnect b s : lets_go s (disconnect b s).
Proof.
  apply (disconnect_composed lets_go b).
  - apply lets_go_refl.
  - apply lets_go_trans.
  - apply lets_go_conn_send.
  - apply lets_go_conn_on_error.
  - apply lets_go_conn_close.
  - apply lets_go_handleMainDisconnect.
  - apply lets_go_set_status.
Qed.

Lemma lets_go_send_if_open frame s : lets_go s (send_if_open frame s).
Proof.
  unfold send_if_open. destruct (main_open s); [|apply lets_go_refl].
  destruct (mainConnRef s); [apply lets_go_conn_send|apply lets_go_refl].
Qed.

Lemma lets_go_send_direct peerId frame s : lets_go s (send_direct peerId frame s).
Proof.
  unfold send_direct. destruct (directConnsRef s !! peerId) as [c|];
    [|apply lets_go_refl].
  destruct (from_option conn_open false (conns s !! c));
    [apply lets_go_conn_send|apply lets_go_refl].
Qed.

Lemma lets_go_written frame ms s :
  lets_go s (send_if_open frame (set_messages ms s)).
Proof.
  eapply lets_go_trans; [apply (lets_go_set_messages ms)|].
  apply lets_go_send_if_open.
Qed.

Lemma lets_go_vanish_tick now s : lets_go s (vanish_tick now s).
Proof.
  unfold vanish_tick. destruct (existsb _ _);
    [apply lets_go_set_messages|apply lets_go_refl].
Qed.

Lemma lets_go_handleSendMessage inputText replyingTo vanishMode now_id now_ts s :
  lets_go s (handleSendMessage inputText replyingTo vanishMode now_id now_ts s).
Proof.
  unfold handleSendMessage. destruct (blank inputText); [apply lets_go_refl|].
  cbv zeta.
  pose proof (lets_go_written
    (frame_message inputText MsgText (Some (toString now_id)) replyingTo None
       None)
    (messages s
     ++ [local_message (toString now_id) (PStr inputText) PUndefined MsgText
           now_ts replyingTo None None None]) s) as H1.
  change (send_if_open _ (set_messages _ s))
    with (sendMessage inputText replyingTo None now_id now_ts s) in H1.
  remember (sendMessage inputText replyingTo None now_id now_ts s) as s1 eqn:Hs1.
  clear Hs1. eapply lets_go_trans; [exact H1|].
  unfold sendTyping. destruct vanishMode.
  - apply lets_go_written.
  - apply lets_go_send_if_open.
Qed.

Lemma wiring_inv_lets_go s s' : wiring_inv s → lets_go s s' → wiring_inv s'.
Proof.
  intros (I1 & I2 & I3) (HS & HM & HD & HA).
  split; [|split; [|by apply HA]].
  - intros c Hc. destruct HM as [HM | HM]; [|congruence].
    rewrite HM in Hc. destruct (I1 c Hc) as [p Hp]. exists p.
    apply primary_to_shapes. rewrite HS. by apply primary_to_shapes.
  - intros p c Hc. apply direct_to_shapes. rewrite HS.
    apply direct_to_shapes, I2. by eapply lookup_weaken.
Qed.

Lemma shapes_with_new_conn remote s :
  shapes (with_new_conn remote s) = shapes s ++ [(remote, None)].
Proof. unfold shapes, with_new_conn. cbn [conns set_conns]. by rewrite fmap_app. Qed.

Lemma shapes_lookup_lt s c x : shapes s !! c = Some x → (c < length s.(conns))%nat.
Proof.
  intros H. apply lookup_lt_Some in H. unfold shapes in H.
  by rewrite length_fmap in H.
Qed.

Lemma wiring_inv_grow s s' x :
  wiring_inv s →
  shapes s' = shapes s ++ [x] →
  s'.(mainConnRef) = s.(mainConnRef) →
  s'.(directConnsRef) = s.(directConnsRef) →
  s'.(activeDirectConnections) = s.(activeDirectConnections) →
  wiring_inv s'.
Proof.
  intros (I1 & I2 & I3) HS HM HD HA. split; [|split].
  - intros c Hc. rewrite HM in Hc. destruct (I1 c Hc) as [p Hp]. exists p.
    apply primary_to_shapes. rewrite HS.
    apply lookup_app_l_Some. by apply primary_to_shapes.
  - intros p c Hc. rewrite HD in Hc. apply direct_to_shapes. rewrite HS.
    apply lookup_app_l_Some. by apply direct_to_shapes, I2.
  - by rewrite HA, HD.
Qed.

Lemma wiring_inv_with_new_conn remote s :
  wiring_inv s → wiring_inv (with_new_conn remote s).
Proof.
  intros Hinv.
  by apply (wiring_inv_grow s _ (remote, None) Hinv (shapes_with_new_conn _ _)).
Qed.

Lemma shapes_installed remote md s :
  (λ cn, (conn_peer cn, conn_role cn))
    <$> alter (with_listeners md) (length s.(conns))
          (s.(conns) ++ [mkConn remote false false None []])
  = shapes s ++ [(remote, Some md)].
Proof. rewrite alter_snoc_length. unfold shapes. by rewrite fmap_app. Qed.

Lemma peer_of_new_conn remote s :
  peer_of (length s.(conns)) (with_new_conn remote s) = remote.
Proof.
  unfold peer_of, with_new_conn. cbn [conns set_conns].
  by rewrite lookup_snoc_length.
Qed.

(** [setupConnection] on a connection just made keeps the references
    sound. *)
Lemma setupConnection_direct b c s :
  setupConnection b c Direct s
  = set_conns (alter (with_listeners Direct) c s.(conns))
      (set_activeDirectConnections
         ({[peer_of c s]} ∪ s.(activeDirectConnections))
         (set_directConnsRef (<[peer_of c s := c]> s.(directConnsRef)) s)).
Proof. reflexivity. Qed.

Lemma wiring_inv_setup_new b remote md s :
  wiring_inv s →
  wiring_inv
    (setupConnection b (length s.(conns)) md (with_new_conn remote s)).
Proof.
  intros Hinv. destruct md.
  - destruct (mainConnRef s) as [c0|] eqn:Hm.
    + rewrite (setupConnection_primary_taken b _ c0) by done.
      eapply wiring_inv_lets_go; [|apply lets_go_conn_close].
      by apply wiring_inv_with_new_conn.
    + rewrite setupConnection_primary_free by done.
      destruct Hinv as (I1 & I2 & I3). split; [|split].
      * intros c [= <-]. exists remote. apply primary_to_shapes.
        unfold shapes, with_new_conn. cbn [conns set_conns set_mainConnRef].
        rewrite shapes_installed. apply list_lookup_middle.
        unfold shapes. by rewrite length_fmap.
      * intros p c Hc. apply direct_to_shapes.
        unfold shapes, with_new_conn. cbn [conns set_conns set_mainConnRef].
        rewrite shapes_installed. apply lookup_app_l_Some.
        by apply direct_to_shapes, I2.
      * exact I3.
  - rewrite setupConnection_direct, peer_of_new_conn.
    destruct Hinv as (I1 & I2 & I3). split; [|split].
    + intros c Hc. destruct (I1 c Hc) as [p Hp]. exists p.
      apply primary_to_shapes.
      unfold shapes, with_new_conn.
      cbn [conns set_conns set_activeDirectConnections set_directConnsRef].
      rewrite shapes_installed. apply lookup_app_l_Some.
      by apply primary_to_shapes.
    + intros p c Hc. apply direct_to_shapes.
      unfold shapes, with_new_conn.
      cbn [conns set_conns set_activeDirectConnections set_directConnsRef].
      rewrite shapes_installed.
      cbn [directConnsRef set_conns set_activeDirectConnections
           set_directConnsRef with_new_conn] in Hc.
      destruct (decide (remote = p)) as [<- | Hne].
      * rewrite lookup_insert_eq in Hc. injection Hc as <-.
        apply list_lookup_middle. unfold shapes. by rewrite length_fmap.
      * rewrite lookup_insert_ne in Hc by done.
        apply lookup_app_l_Some. by apply direct_to_shapes, I2.
    + cbn [activeDirectConnections directConnsRef set_conns
           set_activeDirectConnections set_directConnsRef with_new_conn].
      by rewrite dom_insert_L, I3.
Qed.

Lemma peer_on_connection_eq b remote meta s :
  peer_on_connection b remote meta s
  = let c := length s.(conns) in
    let s0 := with_new_conn remote s in
    match meta with
    | Some Random =>
        if bool_decide (s.(statusRef) ≠ SEARCHING)
           && bool_decide (s.(statusRef) ≠ WAITING)
        then conn_close b c s0
        else if bool_decide (is_Some s.(mainConnRef))
        then conn_close b c s0
        else setupConnection b c Random s0
    | Some Direct => setupConnection b c Direct s0
    | None => s0
    end.
Proof. reflexivity. Qed.

Lemma wiring_inv_peer_on_connection b remote meta s :
  wiring_inv s → wiring_inv (peer_on_connection b remote meta s).
Proof.
  intros Hinv. rewrite peer_on_connection_eq. cbv zeta.
  assert (Hclose : wiring_inv
            (conn_close b (length (conns s)) (with_new_conn remote s))).
  { eapply wiring_inv_lets_go; [|apply lets_go_conn_close].
    by apply wiring_inv_with_new_conn. }
  destruct meta as [[|]|].
  - destruct (_ && _); [done|].
    destruct (bool_decide _); [done|]. by apply wiring_inv_setup_new.
  - by apply wiring_inv_setup_new.
  - by apply wiring_inv_with_new_conn.
Qed.

Lemma callPeer_eq b peerId outcome s :
  callPeer b peerId outcome s
  = if isPeerConnected peerId s then s
    else if s.(peerRef) then
      match outcome with
      | DialConn =>
          setupConnection b (length s.(conns)) Direct (with_new_conn peerId s)
      | _ => s
      end
    else s.
Proof.
  unfold callPeer, isPeerConnected.
  destruct (match directConnsRef s !! peerId with
            | Some c => from_option conn_open false (conns s !! c)
            | None => false
            end); [reflexivity|].
  destruct (peerRef s); [|reflexivity]. by destruct outcome.
Qed.

Lemma wiring_inv_callPeer b peerId outcome s :
  wiring_inv s → wiring_inv (callPeer b peerId outcome s).
Proof.
  intros Hinv. rewrite callPeer_eq.
  destruct (isPeerConnected peerId s); [done|].
  destruct (peerRef s); [|done].
  destruct outcome; [|done..]. by apply wiring_inv_setup_new.
Qed.

Lemma jitter_callback_eq b target outcome s :
  jitter_callback b target outcome s
  = if bool_decide (s.(statusRef) ≠ SEARCHING)
       || bool_decide (is_Some s.(mainConnRef))
    then set_isMatchmakerRef false s
    else
      match target, s.(peerRef), outcome with
      | Some t, true, DialConn =>
          let s1 := dial_made b t s in
          timeout_armed (length s.(conns)) t.(ps_peerId)
            (clearTimeout s1.(connectionTimeoutRef) s1)
      | Some t, true, _ =>
          set_isMatchmakerRef false
            (set_dialed (s.(dialed) ++ [t.(ps_peerId)]) s)
      | _, _, _ => set_isMatchmakerRef false s
      end.
Proof.
  unfold jitter_callback.
  destruct (_ || _); [reflexivity|].
  destruct target as [t|]; [|reflexivity].
  destruct (peerRef s); [|reflexivity].
  destruct outcome; reflexivity.
Qed.

Lemma lets_go_timeout_armed c p s : lets_go s (timeout_armed c p s).
Proof. by apply lets_go_same. Qed.

Lemma wiring_inv_set_dialed v s : wiring_inv s → wiring_inv (set_dialed v s).
Proof. intros H. eapply wiring_inv_lets_go; [exact H|]. by apply lets_go_same. Qed.

Lemma wiring_inv_dial_made b t s : wiring_inv s → wiring_inv (dial_made b t s).
Proof.
  intros Hinv. unfold dial_made.
  apply (wiring_inv_setup_new b (ps_peerId t) Random
           (set_dialed (dialed s ++ [ps_peerId t]) s)).
  by apply wiring_inv_set_dialed.
Qed.

Lemma wiring_inv_jitter_callback b target outcome s :
  wiring_inv s → wiring_inv (jitter_callback b target outcome s).
Proof.
  intros Hinv. rewrite jitter_callback_eq.
  assert (Hq : wiring_inv (set_isMatchmakerRef false s)).
  { eapply wiring_inv_lets_go; [exact Hinv|]. by apply lets_go_same. }
  destruct (_ || _); [done|].
  destruct target as [t|]; [|done].
  destruct (peerRef s); [|done].
  destruct outcome.
  - cbv zeta. eapply wiring_inv_lets_go; [|apply lets_go_timeout_armed].
    eapply wiring_inv_lets_go; [|apply lets_go_clearTimeout].
    by apply wiring_inv_dial_made.
  - eapply wiring_inv_lets_go; [exact Hinv|]. by apply lets_go_same.
  - eapply wiring_inv_lets_go; [exact Hinv|]. by apply lets_go_same.
Qed.

Lemma lets_go_render s : lets_go s (render s).
Proof. by apply lets_go_same. Qed.

Lemma wiring_inv_initial profile : wiring_inv (initial profile).
Proof.
  split; [done|]. split; [|symmetry; apply dom_empty_L].
  intros p c Hc. cbn [directConnsRef initial] in Hc.
  by rewrite lookup_empty in Hc.
Qed.

Lemma wiring_inv_step b e s s' :
  wiring_inv s → step b e s = Some s' → wiring_inv s'.
Proof.
  intros Hinv Hstep.
  assert (Hl : ∀ s1 : State, Some s1 = Some s' → lets_go s s1 → wiring_inv s').
  { intros s1 [= <-] Hl. by eapply wiring_inv_lets_go. }
  destruct e; cbv beta iota zeta delta [step] in Hstep.
  - eapply Hl; [done|]. apply lets_go_render.
  - destruct (peerRef s && truthy (Some id)); [|done].
    eapply Hl; [done|]. by apply lets_go_same.
  - destruct (peerRef s); [|done]. injection Hstep as <-.
    by apply wiring_inv_peer_on_connection.
  - destruct (peerRef s); [|done]. eapply Hl; [done|].
    apply lets_go_peer_on_error.
  - destruct (channelRef s); [|done]. eapply Hl; [done|]. apply lets_go_track.
  - destruct (channelRef s); [|done]. eapply Hl; [done|].
    by apply lets_go_same.
  - destruct (unit_draw r && bool_decide (statusRef s = SEARCHING)); [|done].
    eapply Hl; [done|]. apply lets_go_attemptMatch.
  - destruct (truthy (renderedPeerId s)); [|done]. eapply Hl; [done|].
    apply lets_go_checkOffline.
  - destruct (timers s !! t) as [[body [|]]|]; [|done|done].
    assert (H1 : wiring_inv (clearTimeout (Some t) s))
      by (eapply wiring_inv_lets_go; [exact Hinv|apply lets_go_clearTimeout]).
    destruct body as [target|c p]; injection Hstep as <-.
    + by apply wiring_inv_jitter_callback.
    + eapply wiring_inv_lets_go; [exact H1|apply lets_go_timeout_callback].
  - destruct (conns s !! c) as [[p [|] [|] [md|] fs]|] eqn:Hc; try done.
    eapply Hl; [done|].
    eapply lets_go_trans; [apply (lets_go_set_open c true)|].
    apply lets_go_conn_on_open.
  - destruct (conns s !! c) as [[p [|] cl [md|] fs]|] eqn:Hc; try done.
    eapply Hl; [done|]. apply lets_go_conn_on_data.
  - destruct (conns s !! c) as [[p [|] cl [md|] fs]|] eqn:Hc; try done.
    eapply Hl; [done|].
    eapply lets_go_trans; [apply (lets_go_set_open c false)|].
    apply lets_go_conn_on_close.
  - destruct (conns s !! c) as [[p o cl [md|] fs]|] eqn:Hc; try done.
    eapply Hl; [done|]. apply lets_go_conn_on_error.
  - eapply Hl; [done|]. apply lets_go_connect.
  - eapply Hl; [done|]. apply lets_go_disconnect.
  - eapply Hl; [done|]. apply lets_go_written.
  - eapply Hl; [done|]. apply lets_go_written.
  - eapply Hl; [done|]. apply lets_go_written.
  - injection Hstep as <-. by apply wiring_inv_callPeer.
Qed.

Lemma wiring_inv_call b k s s' :
  wiring_inv s → call b k s = Some s' → wiring_inv s'.
Proof.
  intros Hinv Hcall.
  assert (Hl : ∀ s1 : State, Some s1 = Some s' → lets_go s s1 → wiring_inv s').
  { intros s1 [= <-] Hl. by eapply wiring_inv_lets_go. }
  destruct k as [e| | | | | | | | | | | | |];
    cbv beta iota zeta delta [call] in Hcall.
  2-14: eapply Hl; [exact Hcall|].
  - by eapply wiring_inv_step.
  - apply lets_go_written.
  - apply lets_go_written.
  - apply lets_go_send_if_open.
  - apply lets_go_send_if_open.
  - apply lets_go_send_if_open.
  - apply lets_go_track.
  - apply lets_go_send_direct.
  - apply lets_go_send_direct.
  - apply lets_go_send_direct.
  - apply lets_go_send_direct.
  - apply lets_go_send_direct.
  - apply lets_go_vanish_tick.
  - apply lets_go_handleSendMessage.
Qed.

Lemma reached_wiring b s : reached b s → wiring_inv s.
Proof.
  apply reached_invariant; [apply wiring_inv_initial|].
  intros k s0 s'. apply wiring_inv_call.
Qed.

(** X18. The references never dangle.  In every state the hook reaches,
    the primary reference, when set, holds a connection of the store on
    which the primary listeners were installed, and every entry of the
    direct-connection map holds a connection of the store whose remote
    peer is the entry's key and on which the direct listeners were
    installed. *)
Theorem references_hold_their_connections b s :
  reached b s →
  (∀ c, s.(mainConnRef) = Some c → ∃ p, primary_to s c p)
  ∧ (∀ p c, s.(directConnsRef) !! p = Some c → direct_to s c p).
Proof. intros H. destruct (reached_wiring b s H) as (I1 & I2 & _). by split. Qed.

Lemma references_hold_their_connections_witness :
  ∃ p, primary_to st_connected 0 p.
Proof.
  apply (references_hold_their_connections true st_connected).
  - apply reached_of_reachable, st_connected_reachable.
  - reflexivity.
Defined.

(** X19. The set of active direct connections that the hook keeps as
    React state is, in every state the hook reaches, exactly the key set
    of the direct-connection map: a peer is listed as active if and only
    if the map has an entry for it, and every peer that
    [isPeerConnected] reports is listed. *)
Theorem active_set_mirrors_map b s :
  reached b s →
  s.(activeDirectConnections) = dom s.(directConnsRef)
  ∧ (∀ p, p ∈ s.(activeDirectConnections) ↔ is_Some (s.(directConnsRef) !! p))
  ∧ (∀ p, isPeerConnected p s = true → p ∈ s.(activeDirectConnections)).
Proof.
  intros H. destruct (reached_wiring b s H) as (_ & _ & I3).
  split; [done|]. split.
  - intros p. rewrite I3. apply elem_of_dom.
  - intros p Hp. rewrite I3. apply elem_of_dom. unfold isPeerConnected in Hp.
    by destruct (directConnsRef s !! p).
Qed.

Lemma active_set_mirrors_map_witness :
  st_twice.(activeDirectConnections) = dom st_twice.(directConnsRef).
Proof.
  apply (active_set_mirrors_map true st_twice).
  apply reached_of_reachable. exists (Some alice), to_twice.
  vm_compute. reflexivity.
Defined.

(** X20. A direct send reaches the right peer or nobody.  In every state
    the hook reaches, when [isPeerConnected] answers true for a peer id,
    a direct send to it ([sendDirectMessage], [sendDirectImage],
    [sendDirectAudio], [sendDirectReaction], [sendDirectTyping]) hands
    its frame to one connection, which is open, has the direct listeners
    and has that peer as its remote end, and touches no other
    connection; when it answers false the send changes nothing: the
    frame is neither sent nor kept. *)
Theorem direct_send_reaches_its_peer b peerId frame s :
  reached b s →
  (isPeerConnected peerId s = true →
   ∃ c cn,
     s.(directConnsRef) !! peerId = Some c
     ∧ s.(conns) !! c = Some cn
     ∧ cn.(conn_peer) = peerId ∧ cn.(conn_role) = Some Direct
     ∧ cn.(conn_open) = true
     ∧ frames_to c (send_direct peerId frame s) = frames_to c s ++ [frame]
     ∧ ∀ c', c' ≠ c →
         (send_direct peerId frame s).(conns) !! c' = s.(conns) !! c')
  ∧ (isPeerConnected peerId s = false → send_direct peerId frame s = s).
Proof.
  intros H. destruct (reached_wiring b s H) as (_ & I2 & _).
  unfold isPeerConnected, send_direct.
  destruct (directConnsRef s !! peerId) as [c|] eqn:Hd; [|by split].
  destruct (I2 peerId c Hd) as (cn & Hc & Hr & Hp).
  rewrite Hc. cbn [from_option]. split.
  - intros Ho. rewrite Ho. exists c, cn. repeat split; try done.
    + by apply (frames_to_conn_send c frame s cn).
    + intros c' Hne. unfold conn_send. cbn [conns set_conns].
      by rewrite list_lookup_alter_ne.
  - by intros ->.
Qed.

Lemma direct_send_reaches_its_peer_witness :
  frames_to 1 (sendDirectTyping "bob" true st_twice)
  = frames_to 1 st_twice ++ [frame_flag F_typing true].
Proof.
  destruct (direct_send_reaches_its_peer true "bob" (frame_flag F_typing true)
              st_twice) as [Hsend _].
  { apply reached_of_reachable. exists (Some alice), to_twice.
    vm_compute. reflexivity. }
  destruct (Hsend eq_refl) as (c & cn & Hd & _ & _ & _ & _ & Hfr & _).
  assert (c = 1%nat) as -> by (vm_compute in Hd; congruence).
  exact Hfr.
Defined.

(** ** The two kinds of connection *)

Lemma direct_side_track st s : direct_side (track st s) = direct_side s.
Proof. unfold track. by destruct (channelRef s). Qed.

Lemma direct_side_clearTimeout t s :
  direct_side (clearTimeout t s) = direct_side s.
Proof. by destruct t. Qed.

Lemma direct_side_handleMainDisconnect reason s :
  direct_side (handleMainDisconnect reason s) = direct_side s.
Proof.
  unfold handleMainDisconnect. by rewrite direct_side_track.
Qed.

Lemma direct_side_conn_on_close c s :
  direct_side (conn_on_close true c s) = direct_side s.
Proof.
  unfold conn_on_close.
  case_bool_decide; [apply direct_side_handleMainDisconnect|].
  by case_bool_decide.
Qed.

Lemma direct_side_conn_close b c cn s :
  s.(conns) !! c = Some cn → cn.(conn_role) = Some Random →
  direct_side (conn_close b c s) = direct_side s.
Proof.
  intros Hc Hr. unfold conn_close. rewrite Hc, Hr.
  destruct (b && conn_open cn); [|reflexivity].
  change (is_random Random) with true.
  by rewrite direct_side_conn_on_close.
Qed.

Lemma direct_side_conn_on_open c s :
  direct_side (conn_on_open true c s) = direct_side s.
Proof.
  unfold conn_on_open.
  pose proof (direct_side_clearTimeout (connectionTimeoutRef s) s) as H1.
  pose proof (proj1 (proj2 (proj2 (clearTimeout_frame
                (connectionTimeoutRef s) s)))) as Hu.
  remember (clearTimeout (connectionTimeoutRef s) s) as s1 eqn:Hs1. clear Hs1.
  rewrite <- H1. unfold track.
  cbn [channelRef set_failedPeersRef set_isMatchmakerRef set_partnerPeerId
       set_status].
  destruct (channelRef s1);
    cbn [userProfile set_tracked set_failedPeersRef set_isMatchmakerRef
         set_partnerPeerId set_status];
    destruct (userProfile s1); reflexivity.
Qed.

(** X21. Direct connections and the random session keep apart.  An
    ['open'], ['data'], ['close'] or ['error'] event on a connection set
    up as direct changes nothing of the session: conversation, status,
    partner, indicators, disconnect reason, primary reference, in-flight
    guard, cooldown set, timers, presence and dial logs stay as they
    are.  The same events on a connection set up as primary change
    nothing of the direct side: the incoming direct message, the
    direct-connection map, the cached profiles and the set of active
    direct connections. *)
Theorem connection_kinds_keep_apart b e c cn s s' :
  on_conn e = Some c →
  s.(conns) !! c = Some cn →
  step b e s = Some s' →
  (cn.(conn_role) = Some Direct → session_side s' = session_side s)
  ∧ (cn.(conn_role) = Some Random → direct_side s' = direct_side s).
Proof.
  intros He Hc Hstep.
  destruct e; try done; injection He as ->;
    cbv beta iota zeta delta [step] in Hstep; rewrite Hc in Hstep;
    destruct cn as [p o cl r fs]; cbn [conn_role];
    (split; intros ->).
  - destruct o, cl; try done. injection Hstep as <-.
    change (is_random Direct) with false. unfold conn_on_open.
    cbn [userProfile set_open set_conns]. by destruct (userProfile s).
  - destruct o, cl; try done. injection Hstep as <-.
    change (is_random Random) with true.
    by rewrite direct_side_conn_on_open.
  - destruct o; try done. injection Hstep as <-.
    change (is_random Direct) with false. unfold conn_on_data.
    destruct (f_type payload); try reflexivity;
      by destruct (f_payload payload).
  - destruct o; try done. injection Hstep as <-.
    change (is_random Random) with true. unfold conn_on_data.
    destruct (f_type payload); try reflexivity;
      try (by destruct (f_payload payload)).
    + by destruct (truthy (f_id payload)).
    + rewrite direct_side_handleMainDisconnect.
      by apply (direct_side_conn_close b c (mkConn p true cl (Some Random) fs)).
  - destruct o; try done. by injection Hstep as <-.
  - destruct o; try done. injection Hstep as <-.
    repeat case_bool_decide; rewrite ?direct_side_handleMainDisconnect;
      reflexivity.
  - by injection Hstep as <-.
  - injection Hstep as <-. change (is_random Random) with true.
    unfold conn_on_error.
    case_bool_decide; [apply direct_side_handleMainDisconnect|reflexivity].
Qed.

Lemma connection_kinds_keep_apart_witness :
  ∃ s', step true (ConnClose 1) st_twice = Some s'
        ∧ session_side s' = session_side st_twice.
Proof.
  assert (H1 : ∃ cn, st_twice.(conns) !! 1%nat = Some cn
                     ∧ cn.(conn_role) = Some Direct)
    by (eexists; vm_compute; split; reflexivity).
  destruct H1 as (cn & Hc & Hr).
  eexists. split; [reflexivity|].
  by apply (connection_kinds_keep_apart true (ConnClose 1) 1 cn st_twice _
              eq_refl Hc eq_refl).
Defined.

(** ** Timers and dials *)

Lemma calm_refl s : calm s s.
Proof. by repeat split. Qed.

Lemma calm_trans s1 s2 s3 : calm s1 s2 → calm s2 s3 → calm s1 s3.
Proof. intros (?&?&?) (?&?&?). repeat split; congruence. Qed.

Lemma calm_track st s : calm s (track st s).
Proof. unfold track. destruct (channelRef s); by repeat split. Qed.

Lemma calm_conn_send c frame s : calm s (conn_send c frame s).
Proof. by repeat split. Qed.

Lemma calm_set_open c o s : calm s (set_open c o s).
Proof. by repeat split. Qed.

Lemma calm_handleMainDisconnect reason s :
  calm s (handleMainDisconnect reason s).
Proof.
  unfold handleMainDisconnect, track.
  cbn [channelRef set_isMatchmakerRef set_mainConnRef set_messages
       set_remoteVanishMode set_partnerPeerId set_partnerProfile set_status
       set_disconnectReason].
  destruct (channelRef s); by repeat split.
Qed.

Lemma calm_conn_on_close isMain c s : calm s (conn_on_close isMain c s).
Proof.
  unfold conn_on_close. destruct isMain; [|by repeat split].
  case_bool_decide; [apply calm_handleMainDisconnect|].
  case_bool_decide; by repeat split.
Qed.

Lemma calm_conn_on_error isMain c s : calm s (conn_on_error isMain c s).
Proof.
  unfold conn_on_error. destruct isMain; [|apply calm_refl].
  case_bool_decide; [apply calm_handleMainDisconnect|by repeat split].
Qed.

Lemma calm_conn_close b c s : calm s (conn_close b c s).
Proof.
  unfold conn_close. destruct (conns s !! c) as [cn|]; [|apply calm_refl].
  destruct (b && conn_open cn); [|by repeat split].
  destruct (conn_role cn) as [md|]; [|by repeat split].
  eapply calm_trans; [|apply calm_conn_on_close]. by repeat split.
Qed.

Lemma calm_setupConnection b c md s : calm s (setupConnection b c md s).
Proof.
  unfold setupConnection. destruct (is_random md); [|by repeat split].
  destruct (mainConnRef s); [apply calm_conn_close|by repeat split].
Qed.

Lemma calm_conn_on_open_direct c s : calm s (conn_on_open false c s).
Proof.
  unfold conn_on_open.
  destruct (userProfile s); [apply calm_conn_send|apply calm_refl].
Qed.

Lemma calm_conn_on_data b isMain c payload now_ts now_id s :
  calm s (conn_on_data b isMain c payload now_ts now_id s).
Proof.
  unfold conn_on_data.
  destruct (f_type payload); try (repeat case_match; by repeat split).
  destruct isMain; [|apply calm_refl].
  eapply calm_trans; [apply (calm_conn_close b c)|].
  apply calm_handleMainDisconnect.
Qed.

Lemma calm_peer_on_connection b remote meta s :
  calm s (peer_on_connection b remote meta s).
Proof.
  rewrite peer_on_connection_eq. cbv zeta.
  assert (H0 : calm s (with_new_conn remote s)) by (by repeat split).
  destruct meta as [[|]|]; [| |done].
  - repeat case_match;
      (eapply calm_trans; [exact H0|]);
      first [apply calm_conn_close | apply calm_setupConnection].
  - eapply calm_trans; [exact H0|apply calm_setupConnection].
Qed.

Lemma calm_peer_on_error unavailable s : calm s (peer_on_error unavailable s).
Proof. unfold peer_on_error. repeat case_match; by repeat split. Qed.

Lemma calm_checkOffline msgs s : calm s (checkOffline msgs s).
Proof. unfold checkOffline. destruct (last msgs); by repeat split. Qed.

Lemma timeout_callback_eq b conn target s :
  timeout_callback b conn target s
  = if bool_decide (s.(statusRef) = SEARCHING) && negb (main_open s)
    then set_isMatchmakerRef false
           (set_failedPeersRef
              ({[target]} ∪ (conn_close b conn s).(failedPeersRef))
              (set_mainConnRef None (conn_close b conn s)))
    else s.
Proof. reflexivity. Qed.

Lemma calm_timeout_callback b conn target s :
  calm s (timeout_callback b conn target s).
Proof.
  rewrite timeout_callback_eq.
  destruct (_ && _); [|apply calm_refl].
  eapply calm_trans; [apply (calm_conn_close b conn)|].
  generalize (conn_close b conn s). intros s1. by repeat split.
Qed.

Lemma calm_connect s : calm s (connect s).
Proof.
  unfold connect. destruct (negb (truthy (renderedPeerId s))); [apply calm_refl|].
  eapply calm_trans; [|apply calm_track]. by repeat split.
Qed.

Lemma calm_set_status v s : calm s (set_status v s).
Proof. by repeat split. Qed.

Lemma calm_set_messages ms s : calm s (set_messages ms s).
Proof. by repeat split. Qed.

Lemma calm_disconnect b s : calm s (disconnect b s).
Proof.
  apply (disconnect_composed calm b).
  - apply calm_refl.
  - apply calm_trans.
  - apply calm_conn_send.
  - apply calm_conn_on_error.
  - apply calm_conn_close.
  - apply calm_handleMainDisconnect.
  - apply calm_set_status.
Qed.

Lemma calm_send_if_open frame s : calm s (send_if_open frame s).
Proof.
  unfold send_if_open. destruct (main_open s); [|apply calm_refl].
  destruct (mainConnRef s); [apply calm_conn_send|apply calm_refl].
Qed.

Lemma calm_written frame ms s : calm s (send_if_open frame (set_messages ms s)).
Proof.
  eapply calm_trans; [apply (calm_set_messages ms)|apply calm_send_if_open].
Qed.

Lemma calm_send_direct peerId frame s : calm s (send_direct peerId frame s).
Proof.
  unfold send_direct. destruct (directConnsRef s !! peerId) as [c|];
    [|apply calm_refl].
  destruct (from_option conn_open false (conns s !! c));
    [apply calm_conn_send|apply calm_refl].
Qed.

Lemma calm_callPeer b peerId outcome s : calm s (callPeer b peerId outcome s).
Proof.
  rewrite callPeer_eq. destruct (isPeerConnected peerId s); [apply calm_refl|].
  destruct (peerRef s); [|apply calm_refl].
  destruct outcome; [|apply calm_refl..].
  eapply calm_trans; [|apply calm_setupConnection]. by repeat split.
Qed.

Lemma calm_vanish_tick now s : calm s (vanish_tick now s).
Proof. unfold vanish_tick. destruct (existsb _ _); by repeat split. Qed.

Lemma handleSendMessage_eq inputText replyingTo vanishMode now_id now_ts s :
  handleSendMessage inputText replyingTo vanishMode now_id now_ts s
  = if blank inputText then s
    else
      let s1 := sendMessage inputText replyingTo None now_id now_ts s in
      sendTyping false
        (if vanishMode then set_messages (mark_last_vanish s1.(messages)) s1
         else s1).
Proof. reflexivity. Qed.

Lemma calm_handleSendMessage inputText replyingTo vanishMode now_id now_ts s :
  calm s (handleSendMessage inputText replyingTo vanishMode now_id now_ts s).
Proof.
  rewrite handleSendMessage_eq. destruct (blank inputText); [apply calm_refl|].
  cbv zeta. unfold sendTyping.
  eapply calm_trans; [|apply calm_send_if_open].
  eapply calm_trans; [apply calm_written|].
  destruct vanishMode; [apply calm_set_messages|apply calm_refl].
Qed.

(** ** The store of connections *)

Lemma shapes_conn_close b c s : shapes (conn_close b c s) = shapes s.
Proof. apply lets_go_conn_close. Qed.

Lemma shapes_setup_new b remote md s :
  ∃ r, shapes (setupConnection b (length s.(conns)) md (with_new_conn remote s))
       = shapes s ++ [(remote, r)].
Proof.
  destruct md.
  - destruct (mainConnRef s) as [c0|] eqn:Hm.
    + rewrite (setupConnection_primary_taken b _ c0) by done.
      exists None. by rewrite shapes_conn_close, shapes_with_new_conn.
    + rewrite setupConnection_primary_free by done.
      exists (Some Random). unfold shapes at 1, with_new_conn.
      cbn [conns set_conns set_mainConnRef]. apply shapes_installed.
  - rewrite setupConnection_direct. exists (Some Direct).
    unfold shapes at 1, with_new_conn.
    cbn [conns set_conns set_activeDirectConnections set_directConnsRef].
    apply shapes_installed.
Qed.

Lemma shapes_step b e s s' :
  step b e s = Some s' →
  shapes s' = shapes s ∨ ∃ x, shapes s' = shapes s ++ [x].
Proof.
  intros Hstep.
  assert (Hl : ∀ s1 : State, Some s1 = Some s' → lets_go s s1 →
                 shapes s' = shapes s ∨ ∃ x, shapes s' = shapes s ++ [x]).
  { intros s1 [= <-] Hl. left. apply Hl. }
  assert (Hv : ∀ s1 : State, Some s1 = Some s' →
                 (shapes s1 = shapes s ∨ ∃ x, shapes s1 = shapes s ++ [x]) →
                 shapes s' = shapes s ∨ ∃ x, shapes s' = shapes s ++ [x]).
  { by intros s1 [= <-] H. }
  destruct e; cbv beta iota zeta delta [step] in Hstep.
  - eapply Hl; [done|]. apply lets_go_render.
  - destruct (peerRef s && truthy (Some id)); [|done].
    eapply Hl; [done|]. by apply lets_go_same.
  - destruct (peerRef s); [|done]. eapply Hv; [exact Hstep|].
    rewrite peer_on_connection_eq. cbv zeta. right.
    assert (Hclose : ∃ x, shapes (conn_close b (length (conns s))
                                    (with_new_conn remote s))
                          = shapes s ++ [x]).
    { eexists. by rewrite shapes_conn_close, shapes_with_new_conn. }
    destruct meta as [[|]|].
    + destruct (_ && _); [done|]. destruct (bool_decide _); [done|].
      destruct (shapes_setup_new b remote Random s) as [r Hr]. by eexists.
    + destruct (shapes_setup_new b remote Direct s) as [r Hr]. by eexists.
    + eexists. apply shapes_with_new_conn.
  - destruct (peerRef s); [|done]. eapply Hl; [done|].
    apply lets_go_peer_on_error.
  - destruct (channelRef s); [|done]. eapply Hl; [done|]. apply lets_go_track.
  - destruct (channelRef s); [|done]. eapply Hl; [done|].
    by apply lets_go_same.
  - destruct (unit_draw r && bool_decide (statusRef s = SEARCHING)); [|done].
    eapply Hl; [done|]. apply lets_go_attemptMatch.
  - destruct (truthy (renderedPeerId s)); [|done]. eapply Hl; [done|].
    apply lets_go_checkOffline.
  - destruct (timers s !! t) as [[body [|]]|]; [|done|done].
    pose proof (proj1 (lets_go_clearTimeout (Some t) s)) as H1.
    destruct body as [target|c p]; (eapply Hv; [exact Hstep|]).
    + rewrite <- H1. generalize (clearTimeout (Some t) s). intros s1.
      rewrite jitter_callback_eq.
      destruct (_ || _); [by left|].
      destruct target as [tg|]; [|by left].
      destruct (peerRef s1); [|by left].
      destruct outcome; [|by left..].
      right. cbv zeta.
      destruct (shapes_setup_new b (ps_peerId tg) Random
                  (set_dialed (dialed s1 ++ [ps_peerId tg]) s1)) as [r Hr].
      exists (ps_peerId tg, r).
      rewrite (proj1 (lets_go_timeout_armed _ _ _)).
      rewrite (proj1 (lets_go_clearTimeout _ _)). exact Hr.
    + left. rewrite <- H1. apply lets_go_timeout_callback.
  - destruct (conns s !! c) as [[p [|] [|] [md|] fs]|] eqn:Hc; try done.
    eapply Hl; [done|].
    eapply lets_go_trans; [apply (lets_go_set_open c true)|].
    apply lets_go_conn_on_open.
  - destruct (conns s !! c) as [[p [|] cl [md|] fs]|] eqn:Hc; try done.
    eapply Hl; [done|]. apply lets_go_conn_on_data.
  - destruct (conns s !! c) as [[p [|] cl [md|] fs]|] eqn:Hc; try done.
    eapply Hl; [done|].
    eapply lets_go_trans; [apply (lets_go_set_open c false)|].
    apply lets_go_conn_on_close.
  - destruct (conns s !! c) as [[p o cl [md|] fs]|] eqn:Hc; try done.
    eapply Hl; [done|]. apply lets_go_conn_on_error.
  - eapply Hl; [done|]. apply lets_go_connect.
  - eapply Hl; [done|]. apply lets_go_disconnect.
  - eapply Hl; [done|]. apply lets_go_written.
  - eapply Hl; [done|]. apply lets_go_written.
  - eapply Hl; [done|]. apply lets_go_written.
  - eapply Hv; [exact Hstep|]. rewrite callPeer_eq.
    destruct (isPeerConnected peerId s); [by left|].
    destruct (peerRef s); [|by left].
    destruct outcome; [|by left..]. right.
    destruct (shapes_setup_new b peerId Direct s) as [r Hr]. by eexists.
Qed.

(** X22. The store of connections only grows, and by one connection per
    call at most.  Across any call into the hook, every connection keeps
    its place in the store, its remote peer and its listeners: listeners
    are installed in the call that creates the connection or never, and
    are never replaced or removed.  (So an inbound connection that was
    turned away never gets listeners, and a connection set up as primary
    stays a primary one even after the primary reference has moved
    on.) *)
Theorem connections_keep_peer_and_listeners b k s s' :
  call b k s = Some s' →
  (length s.(conns) ≤ length s'.(conns) ≤ S (length s.(conns)))%nat
  ∧ ∀ c cn, s.(conns) !! c = Some cn →
      ∃ cn', s'.(conns) !! c = Some cn'
             ∧ cn'.(conn_peer) = cn.(conn_peer)
             ∧ cn'.(conn_role) = cn.(conn_role).
Proof.
  intros Hcall.
  assert (Hs : shapes s' = shapes s ∨ ∃ x, shapes s' = shapes s ++ [x]).
  { destruct k as [e| | | | | | | | | | | | |];
      cbv beta iota zeta delta [call] in Hcall;
      [by eapply shapes_step|injection Hcall as <-; left..].
    - apply lets_go_written.
    - apply lets_go_written.
    - apply lets_go_send_if_open.
    - apply lets_go_send_if_open.
    - apply lets_go_send_if_open.
    - apply lets_go_track.
    - apply lets_go_send_direct.
    - apply lets_go_send_direct.
    - apply lets_go_send_direct.
    - apply lets_go_send_direct.
    - apply lets_go_send_direct.
    - apply lets_go_vanish_tick.
    - apply lets_go_handleSendMessage. }
  assert (Hlen : ∀ s0, length (shapes s0) = length (conns s0))
    by (intros s0; unfold shapes; apply length_fmap).
  split.
  - rewrite <- !Hlen.
    destruct Hs as [-> | [x ->]]; [lia|]. rewrite length_app. simpl. lia.
  - intros c cn Hc.
    assert (Hsh : shapes s' !! c = Some (conn_peer cn, conn_role cn)).
    { destruct Hs as [-> | [x ->]]; [|apply lookup_app_l_Some];
        unfold shapes; by rewrite list_lookup_fmap, Hc. }
    unfold shapes in Hsh. rewrite list_lookup_fmap in Hsh.
    destruct (conns s' !! c) as [cn'|]; [|done].
    exists cn'. simpl in Hsh. by injection Hsh as -> ->.
Qed.

Lemma connections_keep_peer_and_listeners_witness :
  ∃ s' cn', call true (Loop Disconnect) st_connected = Some s'
            ∧ s'.(conns) !! 0%nat = Some cn'
            ∧ cn'.(conn_peer) = "bob" ∧ cn'.(conn_role) = Some Random.
Proof.
  assert (H0 : ∃ cn, st_connected.(conns) !! 0%nat = Some cn
                     ∧ cn.(conn_peer) = "bob"
                     ∧ cn.(conn_role) = Some Random)
    by (eexists; vm_compute; repeat split; reflexivity).
  destruct H0 as (cn & Hc & Hp & Hr).
  destruct (connections_keep_peer_and_listeners true (Loop Disconnect)
              st_connected _ eq_refl) as [_ Hkeep].
  destruct (Hkeep 0%nat cn Hc) as (cn' & Hc' & Hp' & Hr').
  eexists _, cn'. split; [reflexivity|]. split; [exact Hc'|].
  split; congruence.
Defined.

Lemma attemptMatch_cases r s :
  attemptMatch r s = s
  ∨ ∃ target,
      attemptMatch r s
      = set_timers (s.(timers) ++ [mkTimer (JitterDial target) true])
          (set_isMatchmakerRef true s)
      ∧ ∀ tg, target = Some tg → tg ∈ waiters s.
Proof.
  unfold attemptMatch.
  destruct (_ || _); [by left|].
  destruct (bool_decide _); [|by left].
  right. eexists. split; [reflexivity|].
  intros tg Htg. by eapply list_elem_of_lookup_2.
Qed.

Lemma calm_render s : calm s (render s).
Proof. by repeat split. Qed.

(** The turns of the loop that may touch a timer or dial: the poll, a
    timer that fires, and the opening of a connection. *)
Lemma step_calm_or b e s s' :
  step b e s = Some s' →
  calm s s'
  ∨ (∃ r, e = PollTick r ∧ s' = attemptMatch r s)
  ∨ (∃ t outcome body,
       e = TimerFires t outcome
       ∧ s.(timers) !! t = Some (mkTimer body true)
       ∧ s' = match body with
              | JitterDial target =>
                  jitter_callback b target outcome (clearTimeout (Some t) s)
              | DialTimeout c p =>
                  timeout_callback b c p (clearTimeout (Some t) s)
              end)
  ∨ (∃ c, e = ConnOpen c ∧ s' = conn_on_open true c (set_open c true s)).
Proof.
  intros Hstep.
  assert (Hc : ∀ s1 : State, Some s1 = Some s' → calm s s1 →
     calm s s'
     ∨ (∃ r, e = PollTick r ∧ s' = attemptMatch r s)
     ∨ (∃ t outcome body,
          e = TimerFires t outcome
          ∧ s.(timers) !! t = Some (mkTimer body true)
          ∧ s' = match body with
                 | JitterDial target =>
                     jitter_callback b target outcome (clearTimeout (Some t) s)
                 | DialTimeout c p =>
                     timeout_callback b c p (clearTimeout (Some t) s)
                 end)
     ∨ (∃ c, e = ConnOpen c ∧ s' = conn_on_open true c (set_open c true s))).
  { intros s1 [= <-] H. by left. }
  destruct e; cbv beta iota zeta delta [step] in Hstep.
  - eapply Hc; [done|]. apply calm_render.
  - destruct (peerRef s && truthy (Some id)); [|done].
    eapply Hc; [done|]. by repeat split.
  - destruct (peerRef s); [|done]. eapply Hc; [done|].
    apply calm_peer_on_connection.
  - destruct (peerRef s); [|done]. eapply Hc; [done|].
    apply calm_peer_on_error.
  - destruct (channelRef s); [|done]. eapply Hc; [done|]. apply calm_track.
  - destruct (channelRef s); [|done]. eapply Hc; [done|]. by repeat split.
  - destruct (unit_draw r && bool_decide (statusRef s = SEARCHING)); [|done].
    right. left. exists r. split; [done|]. congruence.
  - destruct (truthy (renderedPeerId s)); [|done]. eapply Hc; [done|].
    apply calm_checkOffline.
  - destruct (timers s !! t) as [[body [|]]|] eqn:Ht; [|done|done].
    right. right. left. exists t, outcome, body. split; [done|].
    split; [done|]. destruct body; congruence.
  - destruct (conns s !! c) as [[p [|] [|] [md|] fs]|] eqn:Hcn; try done.
    destruct md.
    + right. right. right. exists c. split; [done|].
      change (is_random Random) with true in Hstep. congruence.
    + eapply Hc; [done|]. change (is_random Direct) with false.
      eapply calm_trans; [apply (calm_set_open c true)|].
      apply calm_conn_on_open_direct.
  - destruct (conns s !! c) as [[p [|] cl [md|] fs]|] eqn:Hcn; try done.
    eapply Hc; [done|]. apply calm_conn_on_data.
  - destruct (conns s !! c) as [[p [|] cl [md|] fs]|] eqn:Hcn; try done.
    eapply Hc; [done|].
    eapply calm_trans; [apply (calm_set_open c false)|].
    apply calm_conn_on_close.
  - destruct (conns s !! c) as [[p o cl [md|] fs]|] eqn:Hcn; try done.
    eapply Hc; [done|]. apply calm_conn_on_error.
  - eapply Hc; [done|]. apply calm_connect.
  - eapply Hc; [done|]. apply calm_disconnect.
  - eapply Hc; [done|]. apply calm_written.
  - eapply Hc; [done|]. apply calm_written.
  - eapply Hc; [done|]. apply calm_written.
  - eapply Hc; [done|]. apply calm_callPeer.
Qed.

Lemma call_calm_or b k s s' :
  call b k s = Some s' →
  calm s s' ∨ ∃ e, k = Loop e ∧ step b e s = Some s'.
Proof.
  intros Hcall.
  assert (Hc : ∀ s1 : State, Some s1 = Some s' → calm s s1 →
                 calm s s' ∨ ∃ e, k = Loop e ∧ step b e s = Some s').
  { intros s1 [= <-] H. by left. }
  destruct k as [e| | | | | | | | | | | | |];
    cbv beta iota zeta delta [call] in Hcall.
  { right. exists e. by split. }
  all: eapply Hc; [exact Hcall|].
  - apply calm_written.
  - apply calm_written.
  - apply calm_send_if_open.
  - apply calm_send_if_open.
  - apply calm_send_if_open.
  - apply calm_track.
  - apply calm_send_direct.
  - apply calm_send_direct.
  - apply calm_send_direct.
  - apply calm_send_direct.
  - apply calm_send_direct.
  - apply calm_vanish_tick.
  - apply calm_handleSendMessage.
Qed.

Lemma ref_clearTimeout t s :
  (clearTimeout t s).(connectionTimeoutRef) = s.(connectionTimeoutRef).
Proof. by destruct t. Qed.

Lemma timers_clear_set_open t c o s :
  (clearTimeout t (set_open c o s)).(timers) = (clearTimeout t s).(timers).
Proof. by destruct t. Qed.

(** What the opening of a primary connection does to timers and dials:
    it clears the timeout the reference holds. *)
Lemma conn_on_open_primary_timers c s :
  (conn_on_open true c s).(timers)
  = (clearTimeout s.(connectionTimeoutRef) s).(timers)
  ∧ (conn_on_open true c s).(connectionTimeoutRef) = s.(connectionTimeoutRef)
  ∧ (conn_on_open true c s).(dialed) = s.(dialed).
Proof.
  unfold conn_on_open.
  pose proof (ref_clearTimeout (connectionTimeoutRef s) s) as Hr.
  destruct (clearTimeout_fields (connectionTimeoutRef s) s) as (Hd & _ & _).
  generalize dependent (clearTimeout (connectionTimeoutRef s) s). intros s1 Hr Hd.
  rewrite <- Hr, <- Hd.
  assert (H2 : calm s1
            (track P_paired
               (set_failedPeersRef ∅
                  (set_isMatchmakerRef false
                     (set_partnerPeerId
                        (Some (peer_of c (set_status CONNECTED s1)))
                        (set_status CONNECTED s1)))))).
  { eapply calm_trans; [|apply calm_track]. by repeat split. }
  generalize dependent (track P_paired
               (set_failedPeersRef ∅
                  (set_isMatchmakerRef false
                     (set_partnerPeerId
                        (Some (peer_of c (set_status CONNECTED s1)))
                        (set_status CONNECTED s1))))).
  intros s2 (H21 & H22 & H23).
  destruct (userProfile s2); cbn [timers connectionTimeoutRef dialed conn_send
    set_conns]; by repeat split.
Qed.

(** ** The dial timeout *)

Lemma armed_inv_same s s' :
  s'.(timers) = s.(timers) →
  s'.(connectionTimeoutRef) = s.(connectionTimeoutRef) →
  armed_inv s → armed_inv s'.
Proof. intros Ht Hr Hinv t c p. rewrite Ht, Hr. apply Hinv. Qed.

Lemma armed_inv_calm s s' : calm s s' → armed_inv s → armed_inv s'.
Proof. intros (Ht & Hr & _). by apply armed_inv_same. Qed.

Lemma lookup_cleared (x t : nat) (l : list Timer) tm :
  alter (λ tm, mkTimer tm.(timer_body) false) x l !! t = Some tm →
  tm.(timer_pending) = true →
  t ≠ x ∧ l !! t = Some tm.
Proof.
  intros Hl Hp. destruct (decide (t = x)) as [-> | Hne].
  - rewrite list_lookup_alter_eq in Hl.
    destruct (l !! x); [|done]. injection Hl as <-. done.
  - by rewrite list_lookup_alter_ne in Hl.
Qed.

Lemma armed_inv_clearTimeout x s : armed_inv s → armed_inv (clearTimeout x s).
Proof.
  intros Hinv. destruct x as [x|]; [|done]. intros t c p Ht.
  cbn [clearTimeout timers connectionTimeoutRef set_timers] in *.
  apply lookup_cleared in Ht as [_ Ht]; [|done]. exact (Hinv t c p Ht).
Qed.

(** Clearing the timeout the reference holds leaves no dial timeout
    armed. *)
Lemma none_armed_after_clear s t c p :
  armed_inv s →
  (clearTimeout s.(connectionTimeoutRef) s).(timers) !! t
  ≠ Some (mkTimer (DialTimeout c p) true).
Proof.
  intros Hinv Ht. destruct (connectionTimeoutRef s) as [x|] eqn:Hx.
  - cbn [clearTimeout timers set_timers] in Ht.
    apply lookup_cleared in Ht as [Hne Ht]; [|done].
    pose proof (Hinv t c p Ht). congruence.
  - cbn [clearTimeout] in Ht. pose proof (Hinv t c p Ht). congruence.
Qed.

Lemma armed_inv_rearmed c p s :
  armed_inv s →
  armed_inv (timeout_armed c p (clearTimeout s.(connectionTimeoutRef) s)).
Proof.
  intros Hinv t c' p' Ht.
  pose proof (none_armed_after_clear s t c' p' Hinv) as Hnone.
  generalize dependent (clearTimeout (connectionTimeoutRef s) s). intros s1.
  unfold timeout_armed.
  cbn [timers connectionTimeoutRef set_connectionTimeoutRef set_timers].
  intros Ht Hnone. apply lookup_app_Some in Ht as [Ht | [Hlen Ht]]; [done|].
  apply list_lookup_singleton_Some in Ht as [Ht _].
  f_equal. lia.
Qed.

Lemma timers_dial_made b tg s :
  (dial_made b tg s).(timers) = s.(timers)
  ∧ (dial_made b tg s).(connectionTimeoutRef) = s.(connectionTimeoutRef)
  ∧ (dial_made b tg s).(dialed) = s.(dialed) ++ [tg.(ps_peerId)].
Proof.
  unfold dial_made.
  destruct (calm_setupConnection b (length (conns s)) Random
              (with_new_conn (ps_peerId tg)
                 (set_dialed (dialed s ++ [ps_peerId tg]) s)))
    as (-> & -> & ->).
  by repeat split.
Qed.

Lemma armed_inv_jitter_callback b target outcome s :
  armed_inv s → armed_inv (jitter_callback b target outcome s).
Proof.
  intros Hinv. rewrite jitter_callback_eq.
  destruct (_ || _); [by apply (armed_inv_same s)|].
  destruct target as [tg|]; [|by apply (armed_inv_same s)].
  destruct (peerRef s); [|by apply (armed_inv_same s)].
  destruct outcome; [|by apply (armed_inv_same s)..].
  cbv zeta. apply armed_inv_rearmed.
  destruct (timers_dial_made b tg s) as (Ht & Hr & _).
  by apply (armed_inv_same s).
Qed.

Lemma armed_inv_step b e s s' :
  armed_inv s → step b e s = Some s' → armed_inv s'.
Proof.
  intros Hinv Hstep.
  destruct (step_calm_or b e s s' Hstep)
    as [Hc | [(r & _ & ->) | [(t & o & body & _ & Ht & ->) | (c & _ & ->)]]].
  - by eapply armed_inv_calm.
  - destruct (attemptMatch_cases r s) as [-> | (target & -> & _)]; [done|].
    intros t c p Hl.
    cbn [timers connectionTimeoutRef set_timers set_isMatchmakerRef] in *.
    apply lookup_app_Some in Hl as [Hl | [_ Hl]]; [exact (Hinv t c p Hl)|].
    by apply list_lookup_singleton_Some in Hl as [_ Hl].
  - pose proof (armed_inv_clearTimeout (Some t) s Hinv) as H1.
    destruct body as [target|c p].
    + by apply armed_inv_jitter_callback.
    + eapply armed_inv_calm; [apply calm_timeout_callback|done].
  - destruct (conn_on_open_primary_timers c (set_open c true s))
      as (Ht & Hr & _).
    intros t c' p' Hl. rewrite Ht in Hl. rewrite Hr.
    rewrite timers_clear_set_open in Hl.
    change (connectionTimeoutRef (set_open c true s))
      with (connectionTimeoutRef s) in Hl.
    by apply none_armed_after_clear in Hl.
Qed.

(** X23. At most one dial timeout is armed.  In every state the hook
    reaches, a pending 5 s callback of a dial is the one
    [connectionTimeoutRef] holds, so two pending ones are the same
    timer; and after a primary connection has opened none is pending. *)
Theorem one_dial_timeout_armed b s :
  reached b s →
  armed_inv s
  ∧ (∀ t1 c1 p1 t2 c2 p2,
       s.(timers) !! t1 = Some (mkTimer (DialTimeout c1 p1) true) →
       s.(timers) !! t2 = Some (mkTimer (DialTimeout c2 p2) true) →
       t1 = t2)
  ∧ (∀ c p fs s',
       s.(conns) !! c = Some (mkConn p false false (Some Random) fs) →
       step b (ConnOpen c) s = Some s' →
       ∀ t c' p', s'.(timers) !! t ≠ Some (mkTimer (DialTimeout c' p') true)).
Proof.
  intros Hreach.
  assert (Hinv : armed_inv s).
  { revert s Hreach. apply reached_invariant.
    - intros profile t c p Hl. cbn [timers initial] in Hl.
      by rewrite lookup_nil in Hl.
    - intros k s0 s' Hinv Hcall.
      destruct (call_calm_or b k s0 s' Hcall) as [Hc | (e & _ & Hstep)].
      + by eapply armed_inv_calm.
      + by eapply armed_inv_step. }
  split; [done|]. split.
  - intros t1 c1 p1 t2 c2 p2 H1 H2.
    pose proof (Hinv t1 c1 p1 H1). pose proof (Hinv t2 c2 p2 H2). congruence.
  - intros c p fs s' Hc Hstep t c' p' Hl.
    rewrite (step_ConnOpen b c p Random fs s Hc) in Hstep.
    injection Hstep as <-. change (is_random Random) with true in Hl.
    destruct (conn_on_open_primary_timers c (set_open c true s))
      as (Ht & _ & _).
    rewrite Ht, timers_clear_set_open in Hl.
    change (connectionTimeoutRef (set_open c true s))
      with (connectionTimeoutRef s) in Hl.
    by apply none_armed_after_clear in Hl.
Qed.

Lemma one_dial_timeout_armed_witness :
  st_dialing.(connectionTimeoutRef) = Some 1%nat.
Proof.
  assert (Hr : reached true st_dialing).
  { apply reached_of_reachable. exists (Some alice), to_dialing.
    vm_compute. reflexivity. }
  assert (Ht : st_dialing.(timers) !! 1%nat
               = Some (mkTimer (DialTimeout 0 "T") true))
    by (vm_compute; reflexivity).
  exact (proj1 (one_dial_timeout_armed true st_dialing Hr) 1%nat 0%nat "T" Ht).
Defined.

(** ** Who gets dialled *)

Lemma clearTimeout_env t s :
  (clearTimeout t s).(statusRef) = s.(statusRef)
  ∧ (clearTimeout t s).(mainConnRef) = s.(mainConnRef)
  ∧ (clearTimeout t s).(peerRef) = s.(peerRef)
  ∧ (clearTimeout t s).(dialed) = s.(dialed).
Proof. by destruct t. Qed.

Lemma dialed_jitter_callback b target outcome s :
  (jitter_callback b target outcome s).(dialed) = s.(dialed)
  ∨ ∃ tg, target = Some tg
          ∧ s.(statusRef) = SEARCHING ∧ s.(mainConnRef) = None
          ∧ s.(peerRef) = true
          ∧ (jitter_callback b target outcome s).(dialed)
            = s.(dialed) ++ [tg.(ps_peerId)].
Proof.
  rewrite jitter_callback_eq.
  destruct (bool_decide (statusRef s ≠ SEARCHING)) eqn:Hs; [by left|].
  destruct (bool_decide (is_Some (mainConnRef s))) eqn:Hm; [by left|].
  cbn [orb].
  destruct target as [tg|]; [|by left].
  destruct (peerRef s) eqn:Hp; [|by left].
  right. exists tg. split; [done|].
  apply bool_decide_eq_false in Hs, Hm.
  split; [by destruct (decide (statusRef s = SEARCHING))|].
  split; [destruct (mainConnRef s); [exfalso; apply Hm; by eexists|done]|].
  split; [done|].
  destruct outcome; try reflexivity.
  cbv zeta. destruct (timers_dial_made b tg s) as (_ & _ & Hd).
  rewrite <- Hd. generalize (dial_made b tg s). intros s1.
  by destruct (connectionTimeoutRef s1).
Qed.

Lemma call_dialed b k s s' :
  call b k s = Some s' →
  s'.(dialed) = s.(dialed)
  ∨ ∃ t outcome tg,
      k = Loop (TimerFires t outcome)
      ∧ s.(timers) !! t = Some (mkTimer (JitterDial (Some tg)) true)
      ∧ s.(statusRef) = SEARCHING
      ∧ s.(mainConnRef) = None
      ∧ s.(peerRef) = true
      ∧ s'.(dialed) = s.(dialed) ++ [tg.(ps_peerId)].
Proof.
  intros Hcall.
  destruct (call_calm_or b k s s' Hcall) as [Hc | (e & -> & Hstep)];
    [left; apply Hc|].
  destruct (step_calm_or b e s s' Hstep)
    as [Hc | [(r & _ & ->) | [(t & o & body & -> & Ht & ->) | (c & _ & ->)]]].
  - left. apply Hc.
  - left. by destruct (attemptMatch_cases r s) as [-> | (target & -> & _)].
  - destruct (clearTimeout_env (Some t) s) as (Hsr & Hm & Hp & Hd).
    destruct body as [target|c p].
    + destruct (dialed_jitter_callback b target o (clearTimeout (Some t) s))
        as [H | (tg & -> & H1 & H2 & H3 & H4)].
      * left. by rewrite H.
      * right. exists t, o, tg. rewrite <- Hsr, <- Hm, <- Hp, <- Hd.
        by repeat split.
    + left. rewrite <- Hd. apply calm_timeout_callback.
  - left.
    exact (proj2 (proj2 (conn_on_open_primary_timers c (set_open c true s)))).
Qed.

(** X24. Only the search dials.  A call into the hook leaves the log of
    matchmaking dials as it is, unless it is a jitter callback that
    fires while the rendered status is Searching, the primary reference
    is empty and the Peer exists; that callback dials exactly once, the
    peer id of the target it was scheduled with.  No other call (no
    inbound connection, no timeout, no direct call, no send) makes the
    matchmaker dial. *)
Theorem only_the_search_dials b k s s' :
  call b k s = Some s' →
  s'.(dialed) = s.(dialed)
  ∨ ∃ t outcome tg,
      k = Loop (TimerFires t outcome)
      ∧ s.(timers) !! t = Some (mkTimer (JitterDial (Some tg)) true)
      ∧ s.(statusRef) = SEARCHING
      ∧ s.(mainConnRef) = None
      ∧ s.(peerRef) = true
      ∧ s'.(dialed) = s.(dialed) ++ [tg.(ps_peerId)].
Proof. apply call_dialed. Qed.

Lemma only_the_search_dials_witness :
  (peer_on_connection true "bob" (Some Random) st_searching).(dialed)
  = st_searching.(dialed).
Proof.
  assert (Hcall : call true (Loop (PeerConnection "bob" (Some Random)))
                    st_searching
                  = Some (peer_on_connection true "bob" (Some Random)
                            st_searching))
    by (vm_compute; reflexivity).
  destruct (only_the_search_dials true
              (Loop (PeerConnection "bob" (Some Random))) st_searching
              (peer_on_connection true "bob" (Some Random) st_searching)
              Hcall)
    as [H | (t & o & tg & Hk & _)]; [exact H|discriminate Hk].
Defined.

Lemma bodies_clearTimeout t s : bodies (clearTimeout t s) = bodies s.
Proof.
  destruct t as [x|]; [|done]. unfold bodies.
  cbn [clearTimeout timers set_timers].
  rewrite (list_fmap_alter timer_body _ id).
  - by apply list_alter_id.
  - by apply Forall_forall.
Qed.

Lemma picked_bodies s t tg :
  picked s t tg ↔ bodies s !! t = Some (JitterDial (Some tg)).
Proof.
  unfold picked, bodies. rewrite list_lookup_fmap. split.
  - by intros (pending & ->).
  - destruct (timers s !! t) as [[body pending]|]; [|done].
    simpl. intros [= ->]. by exists pending.
Qed.

Lemma bodies_calm s s' : calm s s' → bodies s' = bodies s.
Proof. intros (Ht & _). unfold bodies. by rewrite Ht. Qed.

(** A turn of the loop only adds to what the timers were made for, and a
    jitter callback it adds has a waiter of the snapshot as target. *)
Lemma bodies_step b e s s' :
  step b e s = Some s' →
  ∃ l, bodies s' = bodies s ++ l
       ∧ ∀ tg, JitterDial (Some tg) ∈ l → tg ∈ waiters s.
Proof.
  intros Hstep.
  assert (Hsame : ∀ s1, bodies s1 = bodies s →
            ∃ l, bodies s1 = bodies s ++ l
                 ∧ ∀ tg, JitterDial (Some tg) ∈ l → tg ∈ waiters s).
  { intros s1 H. exists []. rewrite app_nil_r. split; [done|].
    intros tg Hin. by apply not_elem_of_nil in Hin. }
  destruct (step_calm_or b e s s' Hstep)
    as [Hc | [(r & _ & ->) | [(t & o & body & _ & Ht & ->) | (c & _ & ->)]]].
  - by apply Hsame, bodies_calm.
  - destruct (attemptMatch_cases r s) as [-> | (target & -> & Hw)];
      [by apply Hsame|].
    exists [JitterDial target]. split.
    + unfold bodies. cbn [timers set_timers]. by rewrite fmap_app.
    + intros tg Hin. apply list_elem_of_singleton in Hin.
      apply Hw. congruence.
  - pose proof (bodies_clearTimeout (Some t) s) as H1.
    destruct body as [target|c p].
    + rewrite <- H1. generalize (clearTimeout (Some t) s). intros s1.
      rewrite jitter_callback_eq.
      destruct (_ || _); [|destruct target as [tg|]; [destruct (peerRef s1);
        [destruct o|]|]].
      all: try (exists []; rewrite app_nil_r; split; [reflexivity|];
                intros tg' Hin; by apply not_elem_of_nil in Hin).
      cbv zeta. destruct (timers_dial_made b tg s1) as (Htm & _ & _).
      exists [DialTimeout (length (conns s1)) (ps_peerId tg)]. split.
      * unfold bodies, timeout_armed.
        cbn [timers set_connectionTimeoutRef set_timers].
        rewrite fmap_app. f_equal.
        change (bodies (clearTimeout (dial_made b tg s1).(connectionTimeoutRef)
                          (dial_made b tg s1))
                = bodies s1).
        rewrite bodies_clearTimeout. unfold bodies. by rewrite Htm.
      * intros tg' Hin. by apply list_elem_of_singleton in Hin.
    + apply Hsame. rewrite <- H1. apply bodies_calm, calm_timeout_callback.
  - apply Hsame. unfold bodies.
    rewrite (proj1 (conn_on_open_primary_timers c (set_open c true s))).
    rewrite timers_clear_set_open.
    change (connectionTimeoutRef (set_open c true s))
      with (connectionTimeoutRef s).
    apply bodies_clearTimeout.
Qed.

Lemma dial_inv_call b k s s' :
  dial_inv s → call b k s = Some s' → dial_inv s'.
Proof.
  intros [Hw Hd] Hcall.
  assert (Hb : ∃ l, bodies s' = bodies s ++ l
                    ∧ ∀ tg, JitterDial (Some tg) ∈ l → tg ∈ waiters s).
  { destruct (call_calm_or b k s s' Hcall) as [Hc | (e & _ & Hstep)];
      [|by eapply bodies_step].
    exists []. rewrite app_nil_r. split; [by apply bodies_calm|].
    intros tg Hin. by apply not_elem_of_nil in Hin. }
  destruct Hb as (l & Hb & Hl).
  assert (Hkeep : ∀ t tg, picked s t tg → picked s' t tg).
  { intros t tg Hp. apply picked_bodies. rewrite Hb.
    apply lookup_app_l_Some. by apply picked_bodies. }
  split.
  - intros t tg Hp. apply picked_bodies in Hp. rewrite Hb in Hp.
    apply lookup_app_Some in Hp as [Hp | [_ Hp]].
    + apply (Hw t). by apply picked_bodies.
    + apply list_elem_of_lookup_2, Hl, waiters_spec in Hp. tauto.
  - intros p Hp.
    destruct (call_dialed b k s s' Hcall)
      as [Hsame | (t & o & tg & _ & Ht & _ & _ & _ & Hdial)].
    + rewrite Hsame in Hp. destruct (Hd p Hp) as (t & tg & Hpk & Hid).
      exists t, tg. split; [by apply Hkeep|done].
    + rewrite Hdial in Hp. apply elem_of_app in Hp as [Hp | Hp].
      * destruct (Hd p Hp) as (t' & tg' & Hpk & Hid).
        exists t', tg'. split; [by apply Hkeep|done].
      * apply list_elem_of_singleton in Hp. exists t, tg.
        split; [|done]. apply Hkeep. by exists true.
Qed.

(** X25. Only peers seen waiting are dialled.  In every state the hook
    reaches, every peer id the matchmaker has dialled was the target of a
    jitter callback, and every target ever given to a jitter callback is
    a presence record with status 'waiting': the matchmaker never dials a
    peer that the lobby did not list as waiting when it was picked. *)
Theorem dialled_peers_were_waiting b s :
  reached b s →
  ∀ p, p ∈ s.(dialed) →
    ∃ t tg, picked s t tg ∧ tg.(ps_peerId) = p ∧ tg.(ps_status) = P_waiting.
Proof.
  intros Hreach.
  assert (Hinv : dial_inv s).
  { revert s Hreach. apply reached_invariant.
    - intros profile. split.
      + intros t tg (pending & Hl). cbn [timers initial] in Hl.
        by rewrite lookup_nil in Hl.
      + intros p Hp. cbn [dialed initial] in Hp.
        by apply not_elem_of_nil in Hp.
    - intros k s0 s'. apply dial_inv_call. }
  destruct Hinv as [Hw Hd]. intros p Hp.
  destruct (Hd p Hp) as (t & tg & Hpk & Hid).
  exists t, tg. split; [done|]. split; [done|]. by apply (Hw t).
Qed.

Lemma dialled_peers_were_waiting_witness :
  ∃ t tg, picked st_dialing t tg ∧ tg.(ps_peerId) = "T"
          ∧ tg.(ps_status) = P_waiting.
Proof.
  apply (dialled_peers_were_waiting true st_dialing).
  - apply reached_of_reachable. exists (Some alice), to_dialing.
    vm_compute. reflexivity.
  - apply (bool_decide_unpack _). vm_compute. exact I.
Defined.

(** ** Friend requests on the wire *)

(** X26. A friend request arrives as sent.  [sendFriendRequest] sends
    nothing and says "Already friends" when the partner is a friend by
    the hook's test.  Otherwise, with a profile and an open primary
    connection, it hands one ['friend_request'] frame with the own
    profile to that connection and says "Friend request sent"; and the
    end that receives this frame, if the profile has a name and no stored
    request matches, stores a request with that very profile under the
    peer id of the connection it came on. *)
Theorem friend_request_round_trip sA xA me :
  sA.(userProfile) = Some me →
  main_open sA = true →
  (∀ partner, sA.(partnerProfile) = Some partner →
     existsb (friend_is partner.(uid) sA.(partnerPeerId)) xA.(friends) = true →
     sendFriendRequest sA xA
     = (sA, set_notification (Some "Already friends") xA))
  ∧ ((∀ partner, sA.(partnerProfile) = Some partner →
        existsb (friend_is partner.(uid) sA.(partnerPeerId)) xA.(friends)
        = false) →
     ∃ c,
       sA.(mainConnRef) = Some c
       ∧ frames_to c (sendFriendRequest sA xA).1
         = frames_to c sA ++ [frame_friend_request me]
       ∧ (sendFriendRequest sA xA).2.(notification)
         = Some "Friend request sent"
       ∧ ∀ isMain peerA now1 now2 xB,
           me.(username) ≠ "" →
           existsb (request_from me.(uid) peerA) xB.(friendRequests) = false →
           (social_on_data isMain peerA (frame_friend_request me) now1 now2
              xB).(friendRequests)
           = xB.(friendRequests) ++ [mkRequest peerA me]).
Proof.
  intros Hme Ho. split.
  - intros partner Hp Hf. unfold sendFriendRequest. by rewrite Hp, Hf.
  - intros Hnot. unfold sendFriendRequest.
    assert (Hf : match partnerProfile sA with
                 | Some partner =>
                     existsb (friend_is (uid partner) (partnerPeerId sA))
                       (friends xA)
                 | None => false
                 end = false).
    { destruct (partnerProfile sA) as [partner|]; [|done]. by apply Hnot. }
    rewrite Hf, Hme, Ho. cbn [fst snd notification set_notification].
    destruct (main_open_Some sA Ho) as (c & cn & Hc & Hcn & _).
    exists c. split; [done|].
    rewrite (send_if_open_open _ sA c) by done.
    split; [by apply (frames_to_conn_send c _ sA cn)|]. split; [done|].
    intros isMain peerA now1 now2 xB Hname Hex.
    unfold social_on_data. cbn [f_type f_payload frame_friend_request].
    rewrite Hex.
    replace (truthy (Some (username me))) with true; [done|].
    symmetry. by apply bool_decide_eq_true.
Qed.

Lemma friend_request_round_trip_witness :
  ∃ c,
    st_connected.(mainConnRef) = Some c
    ∧ frames_to c (sendFriendRequest st_connected no_social).1
      = frames_to c st_connected ++ [frame_friend_request alice].
Proof.
  destruct (friend_request_round_trip st_connected no_social alice
              eq_refl eq_refl) as [_ H].
  destruct H as (c & Hc & Hfr & _); [done|].
  by exists c.
Defined.

(** ** Stored friends *)

(** X27. Memory and storage in step.  When the stored friend list is
    the list in memory, it still is after [removeFriend], which drops
    exactly the friends with the given id from both, and after
    [acceptFriendRequest] with its deferred write for a requester who
    was no friend yet, which appends the same entry to both when the
    clock readings of the two agree. *)
Theorem stored_friends_in_step x :
  x.(chat_friends) = Some x.(friends) →
  (∀ peerId,
     let x' := removeFriend peerId x in
     x'.(chat_friends) = Some x'.(friends)
     ∧ Forall (λ f, f.(fr_id) ≠ peerId) x'.(friends)
     ∧ ∀ f, f ∈ x.(friends) → f.(fr_id) ≠ peerId → f ∈ x'.(friends))
  ∧ (∀ request now1 now2,
       existsb (friend_is request.(rq_profile).(uid)
                  (Some request.(rq_peerId))) x.(friends) = false →
       let x' := accept_store request now1 now2
                   (acceptFriendRequest request now1 now2 x) in
       x'.(chat_friends) = Some x'.(friends)
       ∧ x'.(friends)
         = x.(friends)
           ++ [mkFriend request.(rq_peerId) request.(rq_profile) now1
                 (Some now2)]).
Proof.
  intros Hsync. split.
  - intros peerId x'. subst x'. unfold removeFriend.
    cbn [chat_friends friends set_chat_friends set_friends].
    rewrite Hsync. cbn [default]. split; [done|]. split.
    + eapply Forall_impl; [apply List_filter_Forall|].
      intros f Hf. simpl in Hf. by apply bool_decide_eq_true in Hf.
    + intros f Hin Hne. apply List_filter_elem; [done|].
      by apply bool_decide_eq_true.
  - intros request now1 now2 Hex x'. subst x'.
    unfold accept_store, acceptFriendRequest. rewrite Hex.
    cbn [chat_friends friends set_chat_friends set_friends set_notification
         set_friendRequests].
    by rewrite Hsync.
Qed.

Lemma stored_friends_in_step_witness :
  (removeFriend "p0"
     (mkSocial [mkFriend "p0" bob 1 (Some 1)] [] None
        (Some [mkFriend "p0" bob 1 (Some 1)]) None)).(chat_friends)
  = Some [].
Proof.
  apply (stored_friends_in_step
           (mkSocial [mkFriend "p0" bob 1 (Some 1)] [] None
              (Some [mkFriend "p0" bob 1 (Some 1)]) None) eq_refl).
Defined.

(** ** Last seen *)

Lemma sync_map_spec online clock prev :
  ∀ n,
    let '(updated, changed, n') := sync_map online clock n prev in
    Forall2
      (λ f f',
         (is_online online f = false ∧ f' = f)
         ∨ (is_online online f = true ∧ stamped f.(fr_lastSeen) = false
            ∧ ∃ k, f' = set_lastSeen (clock k) f)
         ∨ (is_online online f = true ∧ stamped f.(fr_lastSeen) = true
            ∧ ∃ k, clock k - default 0 f.(fr_lastSeen) > 10000
                   ∧ f' = set_lastSeen (clock (S k)) f)
         ∨ (is_online online f = true ∧ stamped f.(fr_lastSeen) = true
            ∧ (∃ k, ¬ clock k - default 0 f.(fr_lastSeen) > 10000)
            ∧ f' = f))
      prev updated
    ∧ (changed = false → updated = prev).
Proof.
  induction prev as [|f rest IH]; intros n; cbn [sync_map].
  { split; [constructor|done]. }
  destruct (is_online online f) eqn:Ho.
  - destruct (stamped (fr_lastSeen f)) eqn:Hst; cbn [negb].
    + case_bool_decide as Hgt.
      * specialize (IH (S (S n))).
        destruct (sync_map online clock (S (S n)) rest)
          as [[rest' changed'] n0].
        destruct IH as (Hall & Hsame). split; [|done].
        constructor; [|exact Hall]. right. right. left.
        split; [done|]. split; [done|]. by exists n.
      * specialize (IH (S n)).
        destruct (sync_map online clock (S n) rest) as [[rest' changed'] n0].
        destruct IH as (Hall & Hsame). split.
        -- constructor; [|exact Hall]. right. right. right.
           split; [done|]. split; [done|]. split; [by exists n|done].
        -- cbn [orb]. intros Hc. by rewrite Hsame.
    + specialize (IH (S n)).
      destruct (sync_map online clock (S n) rest) as [[rest' changed'] n0].
      destruct IH as (Hall & Hsame). split; [|done].
      constructor; [|exact Hall]. right. left.
      split; [done|]. split; [done|]. by exists n.
  - specialize (IH n).
    destruct (sync_map online clock n rest) as [[rest' changed'] n0].
    destruct IH as (Hall & Hsame). split.
    + constructor; [|exact Hall]. by left.
    + cbn [orb]. intros Hc. by rewrite Hsame.
Qed.

Lemma sync_map_quiet online clock prev :
  (∀ f, f ∈ prev →
     is_online online f = false
     ∨ (stamped f.(fr_lastSeen) = true
        ∧ ∀ k, clock k - default 0 f.(fr_lastSeen) ≤ 10000)) →
  ∀ n, ∃ n', sync_map online clock n prev = (prev, false, n').
Proof.
  induction prev as [|f rest IH]; intros Hq n; cbn [sync_map];
    [by eexists|].
  assert (Hrest : ∀ m, ∃ n', sync_map online clock m rest = (rest, false, n')).
  { apply IH. intros g Hg. apply Hq. by right. }
  destruct (Hq f) as [Ho | [Hst Hnear]]; [by left| |].
  - rewrite Ho. destruct (Hrest n) as [n' ->]. by eexists.
  - destruct (is_online online f).
    + rewrite Hst. cbn [negb].
      rewrite bool_decide_eq_false_2 by (specialize (Hnear n); lia).
      destruct (Hrest (S n)) as [n' ->]. by eexists.
    + destruct (Hrest n) as [n' ->]. by eexists.
Qed.

Lemma sync_map_due online clock prev :
  (∃ f, f ∈ prev ∧ is_online online f = true
        ∧ (stamped f.(fr_lastSeen) = false
           ∨ ∀ k, clock k - default 0 f.(fr_lastSeen) > 10000)) →
  ∀ n, ∃ updated n', sync_map online clock n prev = (updated, true, n').
Proof.
  induction prev as [|f rest IH]; intros (g & Hg & Ho & Hdue) n.
  { by apply elem_of_nil in Hg. }
  cbn [sync_map]. apply elem_of_cons in Hg as [-> | Hg].
  - rewrite Ho. destruct (stamped (fr_lastSeen f)) eqn:Hst; cbn [negb].
    + destruct Hdue as [Hno | Hfar]; [done|].
      rewrite bool_decide_eq_true_2 by apply Hfar.
      destruct (sync_map online clock (S (S n)) rest) as [[r c] n'].
      by eexists _, _.
    + destruct (sync_map online clock (S n) rest) as [[r c] n'].
      by eexists _, _.
  - assert (Hrest : ∀ m, ∃ updated n',
              sync_map online clock m rest = (updated, true, n')).
    { apply IH. by exists g. }
    destruct (is_online online f).
    + destruct (negb (stamped (fr_lastSeen f))).
      * destruct (Hrest (S n)) as (r & n' & ->). by eexists _, _.
      * case_bool_decide.
        -- destruct (Hrest (S (S n))) as (r & n' & ->). by eexists _, _.
        -- destruct (Hrest (S n)) as (r & n' & ->). by eexists _, _.
    + destruct (Hrest n) as (r & n' & ->). by eexists _, _.
Qed.

(** X28. The last-seen effect.  It never adds, removes or reorders
    friends; a friend is left as it was or gets a reading of the clock as
    its last-seen stamp, with id, profile and date of adding unchanged.
    A friend who is not in the snapshot is left as it was; so is a friend
    whose stamp is set and at most ten seconds behind every clock
    reading.  A friend in the snapshot gets a new stamp when it has none
    (or the stamp 0) and when its stamp is more than ten seconds behind
    every clock reading.  When no friend is due in this way (each is out
    of the snapshot, or stamped within ten seconds of every reading)
    nothing at all is written; when some friend is due, the new list is
    written to storage, which then equals the list in memory.  Whatever
    happens, only the friends in memory and in storage change. *)
Theorem last_seen_effect online clock x :
  let x' := sync_friends online clock x in
  (x' = x
   ∨ x' = set_chat_friends (Some x'.(friends)) (set_friends x'.(friends) x))
  ∧ ((∀ f, f ∈ x.(friends) →
        is_online online f = false
        ∨ (stamped f.(fr_lastSeen) = true
           ∧ ∀ k, clock k - default 0 f.(fr_lastSeen) ≤ 10000)) →
     x' = x)
  ∧ ((∃ f, f ∈ x.(friends) ∧ is_online online f = true
           ∧ (stamped f.(fr_lastSeen) = false
              ∨ ∀ k, clock k - default 0 f.(fr_lastSeen) > 10000)) →
     x'.(chat_friends) = Some x'.(friends))
  ∧ Forall2
      (λ f f',
         (f' = f ∨ ∃ k, f' = set_lastSeen (clock k) f)
         ∧ (is_online online f = false → f' = f)
         ∧ (stamped f.(fr_lastSeen) = true →
            (∀ k, clock k - default 0 f.(fr_lastSeen) ≤ 10000) → f' = f)
         ∧ (is_online online f = true →
            stamped f.(fr_lastSeen) = false
            ∨ (∀ k, clock k - default 0 f.(fr_lastSeen) > 10000) →
            ∃ k, f' = set_lastSeen (clock k) f))
      x.(friends) x'.(friends).
Proof.
  intros x'. subst x'. unfold sync_friends.
  destruct (bool_decide (0 < length online)%nat) eqn:Hlen; cbn [andb].
  2:{ apply bool_decide_eq_false in Hlen.
      assert (Hoff : ∀ f, is_online online f = false).
      { intros f. destruct online; [done|]. simpl in Hlen. lia. }
      split; [by left|]. split; [done|]. split.
      { intros (f & _ & Ho & _). by rewrite Hoff in Ho. }
      apply Forall2_same_length_lookup. split; [done|].
      intros i f f' Hf Hf'. assert (f' = f) as -> by congruence.
      split; [by left|]. split; [done|]. split; [done|].
      intros Ho. by rewrite Hoff in Ho. }
  destruct (bool_decide (0 < length (friends x))%nat) eqn:Hfl.
  2:{ apply bool_decide_eq_false in Hfl.
      assert (Hnil : friends x = []).
      { destruct (friends x); [done|]. simpl in Hfl. lia. }
      split; [by left|]. split; [done|]. split.
      { intros (f & Hf & _). rewrite Hnil in Hf. by apply elem_of_nil in Hf. }
      rewrite Hnil. constructor. }
  pose proof (sync_map_spec online clock (friends x) 0%nat) as Hspec.
  pose proof (sync_map_quiet online clock (friends x)) as Hquiet.
  pose proof (sync_map_due online clock (friends x)) as Hdue.
  destruct (sync_map online clock 0 (friends x)) as [[updated changed] n']
    eqn:Hmap.
  destruct Hspec as (Hall & Hsame).
  assert (Hrel : Forall2
      (λ f f',
         (f' = f ∨ ∃ k, f' = set_lastSeen (clock k) f)
         ∧ (is_online online f = false → f' = f)
         ∧ (stamped f.(fr_lastSeen) = true →
            (∀ k, clock k - default 0 f.(fr_lastSeen) ≤ 10000) → f' = f)
         ∧ (is_online online f = true →
            stamped f.(fr_lastSeen) = false
            ∨ (∀ k, clock k - default 0 f.(fr_lastSeen) > 10000) →
            ∃ k, f' = set_lastSeen (clock k) f))
      x.(friends) updated).
  { eapply Forall2_impl; [exact Hall|].
    intros f f' [(Ho & ->) | [(Ho & Hst & k & ->) | [(Ho & Hst & k & Hgt & ->)
      | (Ho & Hst & (k & Hle) & ->)]]].
    - split; [by left|]. split; [done|]. split; [done|]. congruence.
    - split; [right; by exists k|]. split; [congruence|].
      split; [congruence|]. intros _ _. by exists k.
    - split; [right; by exists (S k)|]. split; [congruence|].
      split; [|intros _ _; by exists (S k)].
      intros _ Hclose. specialize (Hclose k). lia.
    - split; [by left|]. split; [done|]. split; [done|].
      intros _ [Hno | Hfar]; [congruence|]. specialize (Hfar k). lia. }
  destruct changed.
  - cbn [friends chat_friends friendRequests set_chat_friends set_friends].
    split; [by right|]. split; [|split; [done|exact Hrel]].
    intros Hq. destruct (Hquiet Hq 0%nat) as [n'' Hn'']. congruence.
  - rewrite Hsame in Hrel by done.
    split; [by left|]. split; [done|]. split; [|exact Hrel].
    intros Hd. destruct (Hdue Hd 0%nat) as (u & n'' & Hn''). congruence.
Qed.
